(** * Shallow embedding of the signal-extraction and series pipeline

    The development follows the Python sources [charts.py], [data_fetcher.py],
    [bybit.py] and [config.py].  Python values decoded from JSON are an
    inductive type, exceptions are an explicit error monad, [print] calls are
    recorded as a trace of events, and binary64 numbers are the
    [spec_float] values of the Standard Library with its correctly rounded
    operations.

    Modelling conventions.
    - A Python [str] is the byte string of its UTF-8 encoding; the character
      classes [\s] and [\d] and case folding are the ASCII ones.
    - Interpreter resource limits (recursion depth, integer digit limits,
      console encoding) are outside the model.
    - The network, the clock and the headless browser are inputs of the
      functions that use them; the calls that only draw on the plotly figure
      are left out.
    - The indicator routines of pandas-ta are a parameter, [ta_library]; the
      elementary pandas operations ([diff], [pct_change], [max], [min],
      [sort_values], [iloc], [tail]) are written out.
    - A datetime in the text form ['%Y-%m-%d %H:%M:%S'] is represented by the
      instant it denotes.
    - Of the [print] calls, those of [extract_trading_levels] are recorded;
      the others do not influence what a function returns or raises. *)

From Stdlib Require Import ZArith List String Ascii Bool Lia.
From Stdlib Require Import Sorting.Sorted Sorting.Permutation.
From Stdlib Require Import Numbers.DecimalString.
From Stdlib Require Import Floats.SpecFloat Floats.PrimFloat Floats.FloatOps.
Import ListNotations.

Set Warnings "-register-all".

Open Scope string_scope.
Open Scope Z_scope.

(* ================================================================= *)
(** * Python values, exceptions and the error monad *)

Inductive exn : Type :=
| JSONDecodeError
| AttributeError
| ValueError
| TypeError
| OverflowError
| IndexError
| KeyError (key : string)
| OSError
| Exception (msg : string).

Inductive result (A : Type) : Type :=
| Ok (a : A)
| Raise (e : exn).

Arguments Ok {A} a.
Arguments Raise {A} e.

Definition bind {A B : Type} (m : result A) (f : A -> result B) : result B :=
  match m with
  | Ok a => f a
  | Raise e => Raise e
  end.

Notation "x <- m ;; k" := (bind m (fun x => k))
  (at level 61, m at next level, right associativity).

Definition float := spec_float.

(** Values produced by [json.loads] and bound to Python variables. *)
Inductive pyval : Type :=
| PNone
| PBool (b : bool)
| PInt (z : Z)
| PFloat (f : float)
| PStr (s : string)
| PList (l : list pyval)
| PDict (d : list (string * pyval)).

(* ================================================================= *)
(** * Binary64 numbers *)

Module Float64.

Definition prec : Z := 53.
Definition emax : Z := 1024.

Definition zero (neg : bool) : float := S754_zero neg.

(** Nearest binary64 to [n / d], ties to even. *)
Definition of_ratio (neg : bool) (n d : positive) : float :=
  let '(q, e, l) := SFdiv_core_binary prec emax (Zpos n) 0 (Zpos d) 0 in
  binary_round_aux prec emax neg q e l.

(** Nearest binary64 to [n * 10 ^ e10]. *)
Definition of_decimal (neg : bool) (n : N) (e10 : Z) : float :=
  match n with
  | N0 => zero neg
  | Npos p =>
      match e10 with
      | Z0 => binary_round prec emax neg p 0
      | Zpos k => binary_round prec emax neg (p * Pos.pow 10 k) 0
      | Zneg k => of_ratio neg p (Pos.pow 10 k)
      end
  end.

(** [float(i)] for a Python [int]: [OverflowError] beyond the finite range. *)
Definition of_int (z : Z) : result float :=
  match z with
  | Z0 => Ok (zero false)
  | Zpos p =>
      match binary_round prec emax false p 0 with
      | S754_infinity _ => Raise OverflowError
      | f => Ok f
      end
  | Zneg p =>
      match binary_round prec emax true p 0 with
      | S754_infinity _ => Raise OverflowError
      | f => Ok f
      end
  end.

Definition is_zero (f : float) : bool :=
  match f with
  | S754_zero _ => true
  | _ => false
  end.

Definition is_nan (f : float) : bool :=
  match f with
  | S754_nan => true
  | _ => false
  end.

Definition sign_bit (f : float) : bool :=
  match f with
  | S754_zero s | S754_infinity s | S754_finite s _ _ => s
  | S754_nan => false
  end.

(** Round [n / d] to the nearest integer, ties to even ([0 <= n], [0 < d]). *)
Definition div_half_even (n d : Z) : Z :=
  let q := n / d in
  match (2 * (n mod d)) ?= d with
  | Lt => q
  | Gt => q + 1
  | Eq => if Z.even q then q else q + 1
  end.

(** [|f| * 10 ^ p] rounded to an integer, from the exact value of [f]. *)
Definition scaled_magnitude (p : nat) (f : float) : Z :=
  match f with
  | S754_finite _ m e =>
      match e with
      | Zneg k => div_half_even (Zpos m * 10 ^ Z.of_nat p) (Zpos (Pos.pow 2 k))
      | _ => Zpos m * 2 ^ e * 10 ^ Z.of_nat p
      end
  | _ => 0
  end.

End Float64.

(* ================================================================= *)
(** * Strings *)

Definition is_digit (c : ascii) : bool :=
  let n := N_of_ascii c in ((48 <=? n) && (n <=? 57))%N.

(** ASCII members of [str.isspace], the class [\s] of a [str] pattern. *)
Definition is_space (c : ascii) : bool :=
  let n := N_of_ascii c in
  (((9 <=? n) && (n <=? 13)) || ((28 <=? n) && (n <=? 32)))%N.

Definition upper_char (c : ascii) : ascii :=
  let n := N_of_ascii c in
  if ((97 <=? n) && (n <=? 122))%N then ascii_of_N (n - 32) else c.

Definition lower_char (c : ascii) : ascii :=
  let n := N_of_ascii c in
  if ((65 <=? n) && (n <=? 90))%N then ascii_of_N (n + 32) else c.

Fixpoint str_map (f : ascii -> ascii) (s : string) : string :=
  match s with
  | EmptyString => EmptyString
  | String c s' => String (f c) (str_map f s')
  end.

(** [s.upper()] *)
Definition upper (s : string) : string := str_map upper_char s.

(** [s.replace(old, new)] for single characters, [new] possibly empty. *)
Fixpoint replace_char (old : ascii) (new : string) (s : string) : string :=
  match s with
  | EmptyString => EmptyString
  | String c s' =>
      if Ascii.eqb c old then new ++ replace_char old new s'
      else String c (replace_char old new s')
  end.

Fixpoint take (n : nat) (s : string) : string :=
  match n, s with
  | S n', String c s' => String c (take n' s')
  | _, _ => EmptyString
  end.

Fixpoint repeat_char (c : ascii) (n : nat) : string :=
  match n with
  | O => EmptyString
  | S n' => String c (repeat_char c n')
  end.

Definition string_of_N (n : N) : string :=
  NilZero.string_of_uint (N.to_uint n).

(** [str(i)] for a Python [int]. *)
Definition string_of_Z (z : Z) : string :=
  match z with
  | Zneg p => "-" ++ string_of_N (Npos p)
  | _ => string_of_N (Z.to_N z)
  end.

Definition zero_pad (width : nat) (s : string) : string :=
  repeat_char "0" (width - String.length s) ++ s.

(** Leading run of decimal digits: accumulated value, number of digits read
    and the remaining text. *)
Fixpoint span_digits (s : string) (acc : N) (count : nat) : N * nat * string :=
  match s with
  | String c s' =>
      if is_digit c
      then span_digits s' (acc * 10 + (N_of_ascii c - 48))%N (S count)
      else (acc, count, s)
  | EmptyString => (acc, count, s)
  end.

(** [s] without its first character when that is [c]. *)
Definition strip_char (c : ascii) (s : string) : option string :=
  match s with
  | String c' s' => if Ascii.eqb c' c then Some s' else None
  | EmptyString => None
  end.

Definition strip_sign (s : string) : bool * string :=
  match strip_char "-" s with
  | Some s' => (true, s')
  | None =>
      match strip_char "+" s with
      | Some s' => (false, s')
      | None => (false, s)
      end
  end.

(** Optional exponent part [[eE][-+]?\d+]; [None] when it is malformed. *)
Definition parse_exponent (s : string) : option (Z * string) :=
  match s with
  | String c s' =>
      if (Ascii.eqb c "e" || Ascii.eqb c "E")%bool then
        let '(neg, s1) := strip_sign s' in
        let '(v, k, s2) := span_digits s1 0%N 0%nat in
        match k with
        | O => None
        | _ => Some (if neg then - Z.of_N v else Z.of_N v, s2)
        end
      else Some (0, s)
  | EmptyString => Some (0, s)
  end.

(** [float(s)] on plain decimal text: sign, digits, optional point and
    fraction, optional exponent.  The callers only pass text over digits and
    ['.'], so surrounding blanks, underscores and the words [inf] and [nan],
    which [float] also accepts, are not needed. *)
Definition py_float (s : string) : result float :=
  let '(neg, s0) := strip_sign s in
  let '(ip, ni, s1) := span_digits s0 0%N 0%nat in
  let '(m, nf, s2) :=
    match strip_char "." s1 with
    | Some s1' => span_digits s1' ip 0%nat
    | None => (ip, 0%nat, s1)
    end in
  match (ni + nf)%nat with
  | O => Raise ValueError
  | _ =>
      match parse_exponent s2 with
      | Some (e, EmptyString) => Ok (Float64.of_decimal neg m (e - Z.of_nat nf))
      | _ => Raise ValueError
      end
  end.

(** Fixed-point text of a float, as the format specs [.pf] and [+.pf] give
    it ([p] at least 1), from the exact binary value with ties to even. *)
Definition format_fixed (plus : bool) (p : nat) (f : float) : string :=
  let sign := if Float64.sign_bit f then "-" else if plus then "+" else "" in
  match f with
  | S754_nan => sign ++ "nan"
  | S754_infinity _ => sign ++ "inf"
  | _ =>
      let n := Float64.scaled_magnitude p f in
      let unit := 10 ^ Z.of_nat p in
      sign ++ string_of_Z (n / unit) ++ "."
           ++ zero_pad p (string_of_Z (n mod unit))
  end.

(** Python truth value of [v]. *)
Definition truthy (v : pyval) : bool :=
  match v with
  | PNone => false
  | PBool b => b
  | PInt z => negb (z =? 0)
  | PFloat f => negb (Float64.is_zero f)
  | PStr s => negb (s =? "")%string
  | PList l => match l with [] => false | _ => true end
  | PDict d => match d with [] => false | _ => true end
  end.

(** [format(v, ".pf")]: numbers only; [bool] is an [int]. *)
Definition format_f (plus : bool) (p : nat) (v : pyval) : result string :=
  match v with
  | PFloat f => Ok (format_fixed plus p f)
  | PInt z => f <- Float64.of_int z ;; Ok (format_fixed plus p f)
  | PBool b => Ok (format_fixed plus p
                     (if b then binary_round Float64.prec Float64.emax false 1 0
                      else Float64.zero false))
  | PStr _ => Raise ValueError
  | PNone | PList _ | PDict _ => Raise TypeError
  end.

(* ================================================================= *)
(** * Regular expressions: the part of [re] the program uses *)

Module Re.

Inductive set_item : Type :=
| ItemChar (c : ascii)
| ItemSpace
| ItemDigit.

Inductive regex : Type :=
| Empty
| Chr (c : ascii)
| Any
| CharSet (items : list set_item)
| EndAnchor
| Seq (r1 r2 : regex)
| Alt (r1 r2 : regex)
| Star (greedy : bool) (r : regex)
| Group (r : regex)
| Lookahead (r : regex).

Definition Plus (greedy : bool) (r : regex) : regex := Seq r (Star greedy r).
Definition Opt (greedy : bool) (r : regex) : regex :=
  if greedy then Alt r Empty else Alt Empty r.

(** ** Pattern syntax *)

Definition escape_item (c : ascii) : set_item :=
  if Ascii.eqb c "s" then ItemSpace
  else if Ascii.eqb c "d" then ItemDigit
  else if Ascii.eqb c "n" then ItemChar "010"
  else ItemChar c.

Definition escape_atom (c : ascii) : regex :=
  match escape_item c with
  | ItemChar c' => Chr c'
  | i => CharSet [i]
  end.

(** Items of a bracketed set up to the closing bracket. *)
Fixpoint parse_set (s : string) (acc : list set_item)
  : option (regex * string) :=
  match s with
  | String "]" rest => Some (CharSet (rev acc), rest)
  | String "\" (String c rest) => parse_set rest (escape_item c :: acc)
  | String c rest => parse_set rest (ItemChar c :: acc)
  | EmptyString => None
  end.

(** A quantifier after an atom, lazy when followed by [?]. *)
Definition parse_quant (a : regex) (s : string) : regex * string :=
  match s with
  | String "*" (String "?" rest) => (Star false a, rest)
  | String "*" rest => (Star true a, rest)
  | String "+" (String "?" rest) => (Plus false a, rest)
  | String "+" rest => (Plus true a, rest)
  | String "?" (String "?" rest) => (Opt false a, rest)
  | String "?" rest => (Opt true a, rest)
  | _ => (a, s)
  end.

Fixpoint parse_alt (fuel : nat) (s : string) : option (regex * string) :=
  match fuel with
  | O => None
  | S n =>
      match parse_seq n s with
      | Some (r1, String "|" rest) =>
          match parse_alt n rest with
          | Some (r2, rest') => Some (Alt r1 r2, rest')
          | None => None
          end
      | other => other
      end
  end
with parse_seq (fuel : nat) (s : string) : option (regex * string) :=
  match fuel with
  | O => None
  | S n =>
      match s with
      | EmptyString | String "|" _ | String ")" _ => Some (Empty, s)
      | _ =>
          match parse_atom n s with
          | Some (a, rest) =>
              let '(a', rest') := parse_quant a rest in
              match parse_seq n rest' with
              | Some (Empty, rest'') => Some (a', rest'')
              | Some (r, rest'') => Some (Seq a' r, rest'')
              | None => None
              end
          | None => None
          end
      end
  end
with parse_atom (fuel : nat) (s : string) : option (regex * string) :=
  match fuel with
  | O => None
  | S n =>
      match s with
      | String "(" (String "?" (String "=" rest)) =>
          match parse_alt n rest with
          | Some (r, String ")" rest') => Some (Lookahead r, rest')
          | _ => None
          end
      | String "(" rest =>
          match parse_alt n rest with
          | Some (r, String ")" rest') => Some (Group r, rest')
          | _ => None
          end
      | String "[" rest => parse_set rest []
      | String "\" (String c rest) => Some (escape_atom c, rest)
      | String "." rest => Some (Any, rest)
      | String "$" rest => Some (EndAnchor, rest)
      | String c rest =>
          if (Ascii.eqb c "*" || Ascii.eqb c "+" || Ascii.eqb c "?")%bool
          then None
          else Some (Chr c, rest)
      | EmptyString => None
      end
  end.

(** [re.compile(pattern)]; [None] stands for [re.error]. *)
Definition compile (pattern : string) : option regex :=
  match parse_alt (3 * S (String.length pattern)) pattern with
  | Some (r, EmptyString) => Some r
  | _ => None
  end.

(** ** Matching *)

Record flags : Type := { ignorecase : bool; dotall : bool }.

Definition item_matches (c : ascii) (i : set_item) : bool :=
  match i with
  | ItemChar c' => Ascii.eqb c c'
  | ItemSpace => is_space c
  | ItemDigit => is_digit c
  end.

Definition char_eq (fl : flags) (a b : ascii) : bool :=
  if ignorecase fl then Ascii.eqb (lower_char a) (lower_char b)
  else Ascii.eqb a b.

(** State of a match in progress: text of group 1, if it took part. *)
Definition capture := option string.

(** Result of a successful match: the unread text and group 1. *)
Definition outcome : Type := string * capture.

(** Repetition of [step], at most [n] times; an iteration must consume
    input.  Greedy repetition tries one more iteration before it tries to
    go on, lazy repetition the other way round. *)
Fixpoint star_loop
  (step : string -> capture -> (string -> capture -> option outcome)
          -> option outcome)
  (greedy : bool) (k : string -> capture -> option outcome)
  (n : nat) (s : string) (g : capture) {struct n} : option outcome :=
  match n with
  | O => k s g
  | S n' =>
      let again :=
        step s g
          (fun s' g' =>
             if (String.length s' <? String.length s)%nat
             then star_loop step greedy k n' s' g' else None) in
      if greedy then
        match again with
        | Some o => Some o
        | None => k s g
        end
      else
        match k s g with
        | Some o => Some o
        | None => again
        end
  end.

(** Backtracking matcher in continuation-passing style: alternatives are
    tried in priority order and the first one whose continuation succeeds
    wins. *)
Fixpoint rmatch (fl : flags) (r : regex) (s : string) (g : capture)
  (k : string -> capture -> option outcome) {struct r} : option outcome :=
  match r with
  | Empty => k s g
  | Chr c =>
      match s with
      | String c' s' => if char_eq fl c' c then k s' g else None
      | EmptyString => None
      end
  | Any =>
      match s with
      | String c' s' =>
          if (dotall fl || negb (Ascii.eqb c' "010"))%bool then k s' g else None
      | EmptyString => None
      end
  | CharSet items =>
      match s with
      | String c' s' => if existsb (item_matches c') items then k s' g else None
      | EmptyString => None
      end
  | EndAnchor =>
      match s with
      | EmptyString => k s g
      | String c' EmptyString => if Ascii.eqb c' "010" then k s g else None
      | _ => None
      end
  | Seq r1 r2 => rmatch fl r1 s g (fun s' g' => rmatch fl r2 s' g' k)
  | Alt r1 r2 =>
      match rmatch fl r1 s g k with
      | Some o => Some o
      | None => rmatch fl r2 s g k
      end
  | Star greedy r' => star_loop (rmatch fl r') greedy k (String.length s) s g
  | Group r' =>
      rmatch fl r' s g
        (fun s' _ => k s' (Some (take (String.length s - String.length s') s)))
  | Lookahead r' =>
      match rmatch fl r' s g (fun s' g' => Some (s', g')) with
      | Some (_, g') => k s g'
      | None => None
      end
  end.

(** A match object: the texts of [group(0)] and [group(1)]. *)
Record match_object : Type := { group0 : string; group1 : capture }.

Fixpoint search_from (fl : flags) (r : regex) (s : string)
  : option match_object :=
  match rmatch fl r s None (fun s' g => Some (s', g)) with
  | Some (rest, g) =>
      Some {| group0 := take (String.length s - String.length rest) s;
              group1 := g |}
  | None =>
      match s with
      | String _ s' => search_from fl r s'
      | EmptyString => None
      end
  end.

(** [re.search(pattern, text, flags)] *)
Definition search (pattern text : string) (fl : flags) : option match_object :=
  match compile pattern with
  | Some r => search_from fl r text
  | None => None
  end.

(** ** Static facts about a pattern *)

(** Group 1 takes part in every match of [r]. *)
Fixpoint sets_group (r : regex) : bool :=
  match r with
  | Group _ => true
  | Seq r1 r2 => (sets_group r1 || sets_group r2)%bool
  | Alt r1 r2 => (sets_group r1 && sets_group r2)%bool
  | _ => false
  end.

(** Every match of [r] reads the character [c], which has no case. *)
Fixpoint reads_char (c : ascii) (r : regex) : bool :=
  match r with
  | Chr c' => Ascii.eqb c' c
  | Seq r1 r2 => (reads_char c r1 || reads_char c r2)%bool
  | Alt r1 r2 => (reads_char c r1 && reads_char c r2)%bool
  | Group r' => reads_char c r'
  | _ => false
  end.

Definition is_some {A : Type} (o : option A) : bool :=
  match o with
  | Some _ => true
  | None => false
  end.

(** [s'] is what is left of [s] after reading some prefix. *)
Inductive suffix : string -> string -> Prop :=
| suffix_refl : forall s, suffix s s
| suffix_skip : forall c s s', suffix s' s -> suffix s' (String c s).

Definition matcher : Type :=
  string -> capture -> (string -> capture -> option outcome) -> option outcome.

(** A successful match ends in a successful call of its continuation, on
    a suffix of the text. *)
Definition continues (m : matcher) : Prop :=
  forall s g k o, m s g k = Some o ->
  exists s' g', suffix s' s /\ k s' g' = Some o.

(** A group that is set stays set. *)
Definition keeps_group (m : matcher) : Prop :=
  forall s g k o, is_some g = true -> m s g k = Some o ->
  exists s' g', is_some g' = true /\ k s' g' = Some o.

(** [c] is matched by itself only, whatever the flags. *)
Definition caseless (c : ascii) : Prop :=
  forall fl x, char_eq fl x c = true -> x = c.

Definition NOFLAG : flags := {| ignorecase := false; dotall := false |}.
Definition IGNORECASE : flags := {| ignorecase := true; dotall := false |}.
Definition DOTALL : flags := {| ignorecase := false; dotall := true |}.
Definition DOTALL_IGNORECASE : flags := {| ignorecase := true; dotall := true |}.

End Re.

(* ================================================================= *)
(** * JSON decoding: [json.loads] *)

Module Json.

Definition dquote : ascii := "034".

Definition is_ws (c : ascii) : bool :=
  (Ascii.eqb c " " || Ascii.eqb c "009" || Ascii.eqb c "010"
   || Ascii.eqb c "013")%bool.

Fixpoint skip_ws (s : string) : string :=
  match s with
  | String c s' => if is_ws c then skip_ws s' else s
  | EmptyString => s
  end.

Fixpoint strip_prefix (p s : string) : option string :=
  match p, s with
  | EmptyString, _ => Some s
  | String a p', String b s' => if Ascii.eqb a b then strip_prefix p' s' else None
  | String _ _, EmptyString => None
  end.

Definition hex_val (c : ascii) : option N :=
  let n := N_of_ascii c in
  if ((48 <=? n) && (n <=? 57))%N then Some (n - 48)%N
  else if ((97 <=? n) && (n <=? 102))%N then Some (n - 87)%N
  else if ((65 <=? n) && (n <=? 70))%N then Some (n - 55)%N
  else None.

(** Four hexadecimal digits of a [\u] escape. *)
Definition hex4 (s : string) : option (N * string) :=
  match s with
  | String a (String b (String c (String d rest))) =>
      match hex_val a, hex_val b, hex_val c, hex_val d with
      | Some x, Some y, Some z, Some w =>
          Some (((x * 16 + y) * 16 + z) * 16 + w, rest)%N
      | _, _, _, _ => None
      end
  | _ => None
  end.

Definition byte (n : N) : string := String (ascii_of_N n) EmptyString.

(** UTF-8 bytes of a code point (a lone surrogate keeps its three-byte
    form). *)
Definition utf8 (cp : N) : string :=
  (if cp <? 128 then byte cp
   else if cp <? 2048 then byte (192 + cp / 64) ++ byte (128 + cp mod 64)
   else if cp <? 65536 then
     byte (224 + cp / 4096) ++ byte (128 + (cp / 64) mod 64)
       ++ byte (128 + cp mod 64)
   else
     byte (240 + cp / 262144) ++ byte (128 + (cp / 4096) mod 64)
       ++ byte (128 + (cp / 64) mod 64) ++ byte (128 + cp mod 64))%N.

(** Code point of a [\u] escape whose four digits gave [hi], joined with a
    following low surrogate escape when [hi] is a high surrogate. *)
Definition unicode_escape (hi : N) (rest : string) : N * string :=
  if ((55296 <=? hi) && (hi <=? 56319))%N then
    match strip_char "\" rest with
    | Some r1 =>
        match strip_char "u" r1 with
        | Some r2 =>
            match hex4 r2 with
            | Some (lo, r3) =>
                if ((56320 <=? lo) && (lo <=? 57343))%N
                then (65536 + ((hi - 55296) * 1024 + (lo - 56320)), r3)%N
                else (hi, rest)
            | None => (hi, rest)
            end
        | None => (hi, rest)
        end
    | None => (hi, rest)
    end
  else (hi, rest).

Definition simple_escape (c : ascii) : option ascii :=
  if (Ascii.eqb c dquote || Ascii.eqb c "\" || Ascii.eqb c "/")%bool then Some c
  else if Ascii.eqb c "b" then Some "008"%char
  else if Ascii.eqb c "f" then Some "012"%char
  else if Ascii.eqb c "n" then Some "010"%char
  else if Ascii.eqb c "r" then Some "013"%char
  else if Ascii.eqb c "t" then Some "009"%char
  else None.

(** Body of a string after its opening quote, up to the closing quote
    (strict mode: raw control characters are rejected). *)
Fixpoint scan_string (fuel : nat) (s : string) : option (string * string) :=
  match fuel with
  | O => None
  | S n =>
      match s with
      | EmptyString => None
      | String c rest =>
          if Ascii.eqb c "\" then
            match rest with
            | EmptyString => None
            | String e rest' =>
                if Ascii.eqb e "u" then
                  match hex4 rest' with
                  | Some (hi, rest'') =>
                      let '(cp, rest3) := unicode_escape hi rest'' in
                      match scan_string n rest3 with
                      | Some (str, out) => Some (utf8 cp ++ str, out)
                      | None => None
                      end
                  | None => None
                  end
                else
                  match simple_escape e with
                  | Some c' =>
                      match scan_string n rest' with
                      | Some (str, out) => Some (String c' str, out)
                      | None => None
                      end
                  | None => None
                  end
            end
          else if Ascii.eqb c dquote then Some (EmptyString, rest)
          else if (N_of_ascii c <? 32)%N then None
          else
            match scan_string n rest with
            | Some (str, out) => Some (String c str, out)
            | None => None
            end
      end
  end.

(** Exponent [[eE][-+]?\d+] of a number, when present and well formed. *)
Definition scan_exponent (s : string) : option (Z * string) :=
  match s with
  | String c s' =>
      if (Ascii.eqb c "e" || Ascii.eqb c "E")%bool then
        let '(neg, s1) := strip_sign s' in
        let '(v, k, s2) := span_digits s1 0%N 0%nat in
        match k with
        | O => None
        | _ => Some (if neg then - Z.of_N v else Z.of_N v, s2)
        end
      else None
  | EmptyString => None
  end.

(** Longest prefix in the number grammar of [json.scanner] (optional minus,
    [0] or a run of digits not led by [0], optional fraction, optional
    exponent): an [int] without fraction and exponent, a [float]
    otherwise. *)
Definition scan_number (s : string) : option (pyval * string) :=
  let '(neg, s0) :=
    match strip_char "-" s with
    | Some s' => (true, s')
    | None => (false, s)
    end in
  match s0 with
  | String c s1 =>
      if is_digit c then
        let '(ip, _, s2) :=
          if Ascii.eqb c "0" then (0%N, 1%nat, s1)
          else span_digits s0 0%N 0%nat in
        let '(m, nf, s3) :=
          match strip_char "." s2 with
          | Some s2' =>
              let '(m, nf, r) := span_digits s2' ip 0%nat in
              match nf with
              | O => (ip, 0%nat, s2)
              | _ => (m, nf, r)
              end
          | None => (ip, 0%nat, s2)
          end in
        match scan_exponent s3 with
        | Some (e, s4) =>
            Some (PFloat (Float64.of_decimal neg m (e - Z.of_nat nf)), s4)
        | None =>
            match nf with
            | O => Some (PInt (if neg then - Z.of_N ip else Z.of_N ip), s3)
            | _ => Some (PFloat (Float64.of_decimal neg m (- Z.of_nat nf)), s3)
            end
        end
      else None
  | EmptyString => None
  end.

Fixpoint dict_get (d : list (string * pyval)) (key : string) : option pyval :=
  match d with
  | [] => None
  | (k, v) :: d' => if (k =? key)%string then Some v else dict_get d' key
  end.

(** [d[key] = v]: a key that is present keeps its place. *)
Fixpoint dict_set (d : list (string * pyval)) (key : string) (v : pyval)
  : list (string * pyval) :=
  match d with
  | [] => [(key, v)]
  | (k, x) :: d' =>
      if (k =? key)%string then (k, v) :: d' else (k, x) :: dict_set d' key v
  end.

Definition constant (s : string) : option (pyval * string) :=
  match strip_prefix "null" s with
  | Some r => Some (PNone, r)
  | None =>
  match strip_prefix "true" s with
  | Some r => Some (PBool true, r)
  | None =>
  match strip_prefix "false" s with
  | Some r => Some (PBool false, r)
  | None => None
  end end end.

Definition special_float (s : string) : option (pyval * string) :=
  match strip_prefix "NaN" s with
  | Some r => Some (PFloat S754_nan, r)
  | None =>
  match strip_prefix "Infinity" s with
  | Some r => Some (PFloat (S754_infinity false), r)
  | None =>
  match strip_prefix "-Infinity" s with
  | Some r => Some (PFloat (S754_infinity true), r)
  | None => None
  end end end.

(** [scan_once]: one value at the head of [s]. [scan_members] continues an
    object just after the opening quote of a key, [scan_elements] an array
    at the start of an element. *)
Fixpoint scan_value (fuel : nat) (s : string) : option (pyval * string) :=
  match fuel with
  | O => None
  | S n =>
      match s with
      | EmptyString => None
      | String c rest =>
          if Ascii.eqb c dquote then
            match scan_string (String.length rest) rest with
            | Some (str, out) => Some (PStr str, out)
            | None => None
            end
          else if Ascii.eqb c "{" then
            match skip_ws rest with
            | EmptyString => None
            | String c' rest' =>
                if Ascii.eqb c' "}" then Some (PDict [], rest')
                else if Ascii.eqb c' dquote then scan_members n rest' []
                else None
            end
          else if Ascii.eqb c "[" then
            match skip_ws rest with
            | EmptyString => None
            | String c' rest' =>
                if Ascii.eqb c' "]" then Some (PList [], rest')
                else scan_elements n (String c' rest') []
            end
          else
            match constant s with
            | Some r => Some r
            | None =>
                match scan_number s with
                | Some r => Some r
                | None => special_float s
                end
            end
      end
  end
with scan_members (fuel : nat) (s : string) (acc : list (string * pyval))
  : option (pyval * string) :=
  match fuel with
  | O => None
  | S n =>
      match scan_string (String.length s) s with
      | Some (key, s1) =>
          match skip_ws s1 with
          | EmptyString => None
          | String c s2 =>
              if Ascii.eqb c ":" then
                match scan_value n (skip_ws s2) with
                | Some (v, s3) =>
                    let acc' := dict_set acc key v in
                    match skip_ws s3 with
                    | EmptyString => None
                    | String c' s4 =>
                        if Ascii.eqb c' "}" then Some (PDict acc', s4)
                        else if Ascii.eqb c' "," then
                          match skip_ws s4 with
                          | EmptyString => None
                          | String c'' s5 =>
                              if Ascii.eqb c'' dquote
                              then scan_members n s5 acc'
                              else None
                          end
                        else None
                    end
                | None => None
                end
              else None
          end
      | None => None
      end
  end
with scan_elements (fuel : nat) (s : string) (acc : list pyval)
  : option (pyval * string) :=
  match fuel with
  | O => None
  | S n =>
      match scan_value n s with
      | Some (v, s1) =>
          match skip_ws s1 with
          | EmptyString => None
          | String c s2 =>
              if Ascii.eqb c "]" then Some (PList (rev (v :: acc)), s2)
              else if Ascii.eqb c "," then
                scan_elements n (skip_ws s2) (v :: acc)
              else None
          end
      | None => None
      end
  end.

(** [json.loads(s)]: one value between optional blanks, nothing after it. *)
Definition loads (s : string) : result pyval :=
  match scan_value (2 * S (String.length s)) (skip_ws s) with
  | Some (v, rest) =>
      match skip_ws rest with
      | EmptyString => Ok v
      | _ => Raise JSONDecodeError
      end
  | None => Raise JSONDecodeError
  end.

(** ** Fuel

    The three scanners of values share one reading of enough fuel: a scan
    that succeeds reads at least one character, and succeeds alike with any
    fuel that covers the characters read. *)
Definition value_fuel (n : nat) : Prop :=
  forall s v out,
    scan_value n s = Some (v, out) ->
    (String.length out < String.length s)%nat
    /\ forall m, (String.length s - String.length out <= m)%nat ->
                 scan_value m s = Some (v, out).

Definition members_fuel (n : nat) : Prop :=
  forall s acc v out,
    scan_members n s acc = Some (v, out) ->
    (String.length out < String.length s)%nat
    /\ forall m, (String.length s - String.length out <= m)%nat ->
                 scan_members m s acc = Some (v, out).

Definition elements_fuel (n : nat) : Prop :=
  forall s acc v out,
    scan_elements n s acc = Some (v, out) ->
    (String.length out < String.length s)%nat
    /\ forall m, (String.length s - String.length out <= m)%nat ->
                 scan_elements m s acc = Some (v, out).

End Json.

(* ================================================================= *)
(** * Console output and exceptions together *)

(** What the [print] calls of [extract_trading_levels] report. *)
Inductive event : Type :=
| JsonParsed (data : pyval)
| JsonFailed (e : exn)
| FallbackToRegex
| SignalSection (text : string)
| Found (field : string) (value : option string)
| CouldNotParse (field : string) (value : string).

(** A computation that appends to the console log and returns or raises. *)
Definition M (A : Type) : Type := list event -> list event * result A.

Definition ret {A : Type} (a : A) : M A := fun log => (log, Ok a).

Definition lift {A : Type} (r : result A) : M A := fun log => (log, r).

Definition print (e : event) : M unit := fun log => ((log ++ [e])%list, Ok tt).

Definition bindM {A B : Type} (m : M A) (f : A -> M B) : M B :=
  fun log =>
    match m log with
    | (log', Ok a) => f a log'
    | (log', Raise e) => (log', Raise e)
    end.

Notation "x <~ m ;; k" := (bindM m (fun x => k))
  (at level 61, m at next level, right associativity).

(** [try: body  except <caught> as e: handler e] *)
Definition try_except {A : Type} (body : M A) (caught : exn -> bool)
  (handler : exn -> M A) : M A :=
  fun log =>
    match body log with
    | (log', Raise e) => if caught e then handler e log' else (log', Raise e)
    | r => r
    end.

(* ================================================================= *)
(** * charts.py: [extract_trading_levels] *)

(** The returned tuple [(entry, tp1, tp2, tp3, sl, signal, probability)]. *)
Record levels : Type := mk_levels {
  entry : pyval;
  tp1 : pyval;
  tp2 : pyval;
  tp3 : pyval;
  sl : pyval;
  signal : pyval;
  probability : pyval
}.

(** All seven variables at their initial [None]. *)
Definition no_levels : levels :=
  mk_levels PNone PNone PNone PNone PNone PNone PNone.

(** [data.get(key, default)] *)
Definition py_get (data : pyval) (key : string) (default : pyval)
  : result pyval :=
  match data with
  | PDict d =>
      Ok (match Json.dict_get d key with
          | Some v => v
          | None => default
          end)
  | _ => Raise AttributeError
  end.

(** [v.upper()] *)
Definition py_upper (v : pyval) : result pyval :=
  match v with
  | PStr s => Ok (PStr (upper s))
  | _ => Raise AttributeError
  end.

Definition is_json_or_attribute_error (e : exn) : bool :=
  match e with
  | JSONDecodeError | AttributeError => true
  | _ => false
  end.

(** The [try] block: [Some] is the [return] inside it, [None] is leaving the
    block without returning (no match, or an exception that was caught). *)
Definition json_phase (analysis_text : string) : M (option levels) :=
  try_except
    (match Re.search "\{.*\}" analysis_text Re.DOTALL with
     | Some json_match =>
         let json_str := Re.group0 json_match in
         data <~ lift (Json.loads json_str) ;;
         _ <~ lift (py_get data "signal" PNone) ;;
         _ <~ print (JsonParsed data) ;;
         signal0 <~ lift (py_get data "signal" (PStr "")) ;;
         signal <~ lift (py_upper signal0) ;;
         entry <~ lift (py_get data "entry" PNone) ;;
         sl <~ lift (py_get data "stop_loss" PNone) ;;
         tp1 <~ lift (py_get data "tp1" PNone) ;;
         tp2 <~ lift (py_get data "tp2" PNone) ;;
         tp3 <~ lift (py_get data "tp3" PNone) ;;
         probability <~ lift (py_get data "probability" PNone) ;;
         ret (Some (mk_levels entry tp1 tp2 tp3 sl signal probability))
     | None => ret None
     end)
    is_json_or_attribute_error
    (fun e => _ <~ print (JsonFailed e) ;; ret None).

(** The [patterns] dictionary, in insertion order. *)
Definition patterns : list (string * list string) :=
  [ ("signal",
     [ "\*\*SIGNAL\*\*:\s*(BUY|SELL|HOLD)";
       "SIGNAL:\s*(BUY|SELL|HOLD)";
       "Signal:\s*(BUY|SELL|HOLD)" ]);
    ("entry",
     [ "\*\*ENTRY\*\*:\s*([\d,]+\.?\d*)";
       "ENTRY:\s*([\d,]+\.?\d*)";
       "Entry:\s*([\d,]+\.?\d*)";
       "\*\*ENTRY\*\*:\s*\n\s*([\d,]+\.?\d*)";
       "\*\*ENTRY\*\*:\s*\n\s*\n\s*([\d,]+\.?\d*)" ]);
    ("tp1",
     [ "\*\*TP1\*\*:\s*([\d,]+\.?\d*)";
       "TP1:\s*([\d,]+\.?\d*)";
       "\*\*TP1\*\*:\s*\n\s*([\d,]+\.?\d*)";
       "\*\*TP1\*\*:\s*\n\s*\n\s*([\d,]+\.?\d*)" ]);
    ("tp2",
     [ "\*\*TP2\*\*:\s*([\d,]+\.?\d*)";
       "TP2:\s*([\d,]+\.?\d*)";
       "\*\*TP2\*\*:\s*\n\s*([\d,]+\.?\d*)";
       "\*\*TP2\*\*:\s*\n\s*\n\s*([\d,]+\.?\d*)" ]);
    ("tp3",
     [ "\*\*TP3\*\*:\s*([\d,]+\.?\d*)";
       "TP3:\s*([\d,]+\.?\d*)";
       "\*\*TP3\*\*:\s*\n\s*([\d,]+\.?\d*)";
       "\*\*TP3\*\*:\s*\n\s*\n\s*([\d,]+\.?\d*)" ]);
    ("sl",
     [ "\*\*STOP LOSS\*\*:\s*([\d,]+\.?\d*)";
       "STOP LOSS:\s*([\d,]+\.?\d*)";
       "Stop Loss:\s*([\d,]+\.?\d*)";
       "SL:\s*([\d,]+\.?\d*)";
       "\*\*STOP LOSS\*\*:\s*\n\s*([\d,]+\.?\d*)";
       "\*\*STOP LOSS\*\*:\s*\n\s*\n\s*([\d,]+\.?\d*)" ]) ].

(** The chain [if field == 'entry': entry = value  elif ...]. *)
Definition assign_level (field : string) (value : pyval) (l : levels) : levels :=
  if (field =? "entry")%string then
    mk_levels value (tp1 l) (tp2 l) (tp3 l) (sl l) (signal l) (probability l)
  else if (field =? "tp1")%string then
    mk_levels (entry l) value (tp2 l) (tp3 l) (sl l) (signal l) (probability l)
  else if (field =? "tp2")%string then
    mk_levels (entry l) (tp1 l) value (tp3 l) (sl l) (signal l) (probability l)
  else if (field =? "tp3")%string then
    mk_levels (entry l) (tp1 l) (tp2 l) value (sl l) (signal l) (probability l)
  else if (field =? "sl")%string then
    mk_levels (entry l) (tp1 l) (tp2 l) (tp3 l) value (signal l) (probability l)
  else l.

Definition assign_signal (value : pyval) (l : levels) : levels :=
  mk_levels (entry l) (tp1 l) (tp2 l) (tp3 l) (sl l) value (probability l).

(** [match.group(1).upper()], [match.group(1).replace(',', '')]: a group
    that took no part in the match is [None], which has neither method. *)
Definition group1_text (m : Re.match_object) : result string :=
  match Re.group1 m with
  | Some s => Ok s
  | None => Raise AttributeError
  end.

(** [except ValueError]; [JSONDecodeError] is a subclass of it. *)
Definition is_value_error (e : exn) : bool :=
  match e with
  | ValueError | JSONDecodeError => true
  | _ => false
  end.

(** Body of [if match:] for one field. *)
Definition on_match (field : string) (m : Re.match_object) (l : levels)
  : M levels :=
  _ <~ print (Found field (Re.group1 m)) ;;
  if (field =? "signal")%string then
    s <~ lift (group1_text m) ;;
    ret (assign_signal (PStr (upper s)) l)
  else
    try_except
      (s <~ lift (group1_text m) ;;
       let value_str := replace_char "," "" s in
       value <~ lift (py_float value_str) ;;
       ret (assign_level field (PFloat value) l))
      is_value_error
      (fun _ =>
         s <~ lift (group1_text m) ;;
         _ <~ print (CouldNotParse field s) ;;
         ret l).

(** Inner loop: the first pattern that matches decides, then [break]. *)
Fixpoint try_patterns (field : string) (pattern_list : list string)
  (analysis_text : string) (l : levels) : M levels :=
  match pattern_list with
  | [] => ret l
  | pattern :: rest =>
      match Re.search pattern analysis_text Re.IGNORECASE with
      | Some m => on_match field m l
      | None => try_patterns field rest analysis_text l
      end
  end.

(** Outer loop over [patterns.items()]. *)
Fixpoint regex_phase (items : list (string * list string))
  (analysis_text : string) (l : levels) : M levels :=
  match items with
  | [] => ret l
  | (field, pattern_list) :: rest =>
      l' <~ try_patterns field pattern_list analysis_text l ;;
      regex_phase rest analysis_text l'
  end.

Definition print_signal_section (analysis_text : string) : M unit :=
  match Re.search "### IMMEDIATE TRADING SIGNAL.*?(?=###|$)" analysis_text
          Re.DOTALL_IGNORECASE with
  | Some signal_section => print (SignalSection (Re.group0 signal_section))
  | None => ret tt
  end.

Definition extract_trading_levels_m (analysis_text : string) : M levels :=
  r <~ json_phase analysis_text ;;
  match r with
  | Some l => ret l
  | None =>
      _ <~ print FallbackToRegex ;;
      _ <~ print_signal_section analysis_text ;;
      regex_phase patterns analysis_text no_levels
  end.

(** [extract_trading_levels(analysis_text)]: what it returns or raises. *)
Definition extract_trading_levels (analysis_text : string) : result levels :=
  snd (extract_trading_levels_m analysis_text []).

(** What a call of [extract_trading_levels] prints. *)
Definition extract_trading_levels_log (analysis_text : string) : list event :=
  fst (extract_trading_levels_m analysis_text []).

(* ================================================================= *)
(** * Text of values: [repr] and [str] *)

Definition nl : string := String "010" EmptyString.

Fixpoint join (sep : string) (l : list string) : string :=
  match l with
  | [] => ""
  | [s] => s
  | s :: l' => s ++ sep ++ join sep l'
  end.

Fixpoint contains_char (c : ascii) (s : string) : bool :=
  match s with
  | EmptyString => false
  | String c' s' => (Ascii.eqb c c' || contains_char c s')%bool
  end.

Module Repr.

Definition hex_digit (n : N) : ascii :=
  if (n <? 10)%N then ascii_of_N (48 + n) else ascii_of_N (87 + n).

(** One character inside a [str] literal quoted with [quote]. *)
Definition escape_char (quote c : ascii) : string :=
  let n := N_of_ascii c in
  if (Ascii.eqb c quote || Ascii.eqb c "\")%bool
  then String "\" (String c EmptyString)
  else if Ascii.eqb c "009" then "\t"
  else if Ascii.eqb c "010" then "\n"
  else if Ascii.eqb c "013" then "\r"
  else if ((n <? 32) || (n =? 127))%N
  then String "\" (String "x" (String (hex_digit (n / 16))
                                (String (hex_digit (n mod 16)) EmptyString)))
  else String c EmptyString.

Fixpoint escape_all (quote : ascii) (s : string) : string :=
  match s with
  | EmptyString => EmptyString
  | String c s' => escape_char quote c ++ escape_all quote s'
  end.

(** [repr(s)] of a [str]: single quotes unless the text has a single quote
    and no double quote.  Bytes above 127 are kept, as for printable
    characters. *)
Definition of_str (s : string) : string :=
  let quote : ascii :=
    if (contains_char "'" s && negb (contains_char "034" s))%bool
    then "034"%char else "'"%char in
  String quote (escape_all quote s) ++ String quote EmptyString.

(** Number of decimal digits of a positive integer, by repeated division. *)
Fixpoint count_digits (fuel : nat) (z : Z) : Z :=
  match fuel with
  | O => 0
  | S n => if z <? 10 then 1 else 1 + count_digits n (z / 10)
  end.

(** Least [j] with [num * 10 ^ j >= den], searched upwards from [j]. *)
Fixpoint scale_up (fuel : nat) (num den j : Z) : Z :=
  match fuel with
  | O => j
  | S n => if den <=? num then j else scale_up n (num * 10) den (j + 1)
  end.

(** [decpt] of the positive ratio [num / den]: the [k] with
    [10 ^ (k - 1) <= num / den < 10 ^ k]. *)
Definition decimal_point (num den : Z) : Z :=
  if den <=? num then count_digits 400 (num / den)
  else 1 - scale_up 400 num den 0.

Fixpoint strip_zeros (fuel : nat) (c : Z) (e : Z) : Z * Z :=
  match fuel with
  | O => (c, e)
  | S n => if (c mod 10 =? 0) && negb (c =? 0) then strip_zeros n (c / 10) (e + 1)
           else (c, e)
  end.

Definition same_float (a b : float) : bool :=
  match a, b with
  | S754_finite s m e, S754_finite s' m' e' =>
      (Bool.eqb s s' && Pos.eqb m m' && (e =? e'))%bool
  | _, _ => false
  end.

(** The [n]-digit decimals just below and above [num / den] that convert
    back to [f]; of two that do, the nearer one. *)
Definition candidate (f : float) (num den k : Z) (n : Z) : option (Z * Z) :=
  let e := k - n in
  let '(snum, sden) :=
    if 0 <=? e then (num, den * 10 ^ e) else (num * 10 ^ (- e), den) in
  let lo := snum / sden in
  let r := snum mod sden in
  let hi := if r =? 0 then lo else lo + 1 in
  let ok c := same_float (Float64.of_decimal false (Z.to_N c) e) f in
  match ok lo, ok hi with
  | true, true =>
      match (2 * r) ?= sden with
      | Lt => Some (lo, e)
      | Gt => Some (hi, e)
      | Eq => Some (if Z.even lo then lo else hi, e)
      end
  | true, false => Some (lo, e)
  | false, true => Some (hi, e)
  | false, false => None
  end.

Fixpoint shortest (fuel : nat) (f : float) (num den k n : Z) : Z * Z :=
  match fuel with
  | O => (0, 0)
  | S fuel' =>
      match candidate f num den k n with
      | Some ce => ce
      | None => shortest fuel' f num den k (n + 1)
      end
  end.

(** Layout of the digits [c] times [10 ^ e] the way [repr] prints a
    float: exponent form when the decimal point lies outside [-3 .. 16]. *)
Definition layout (c e : Z) : string :=
  let digits := string_of_Z c in
  let nd := Z.of_nat (String.length digits) in
  let decpt := nd + e in
  if (decpt <=? -4) || (16 <? decpt) then
    let x := decpt - 1 in
    let mant :=
      match digits with
      | String d EmptyString => digits
      | String d rest => String d (String "." rest)
      | EmptyString => digits
      end in
    mant ++ "e" ++ (if x <? 0 then "-" else "+")
         ++ zero_pad 2 (string_of_Z (Z.abs x))
  else if decpt <=? 0 then
    "0." ++ repeat_char "0" (Z.to_nat (- decpt)) ++ digits
  else if decpt <? nd then
    take (Z.to_nat decpt) digits ++ "."
      ++ substring (Z.to_nat decpt) (Z.to_nat (nd - decpt)) digits
  else digits ++ repeat_char "0" (Z.to_nat (decpt - nd)) ++ ".0".

(** [repr(f)] of a float: the shortest digits that read back as [f]. *)
Definition of_float (f : float) : string :=
  match f with
  | S754_nan => "nan"
  | S754_infinity s => if s then "-inf" else "inf"
  | S754_zero s => if s then "-0.0" else "0.0"
  | S754_finite s m e =>
      let '(num, den) :=
        match e with
        | Zneg k => (Zpos m, Zpos (Pos.pow 2 k))
        | _ => (Zpos m * 2 ^ e, 1)
        end in
      let k := decimal_point num den in
      let '(c, e10) := shortest 17 (S754_finite false m e) num den k 1 in
      let '(c', e10') := strip_zeros 400 c e10 in
      (if s then "-" else "") ++ layout c' e10'
  end.

End Repr.

(** [repr(v)] *)
Fixpoint py_repr (v : pyval) : string :=
  match v with
  | PNone => "None"
  | PBool b => if b then "True" else "False"
  | PInt z => string_of_Z z
  | PFloat f => Repr.of_float f
  | PStr s => Repr.of_str s
  | PList l => "[" ++ join ", " (map py_repr l) ++ "]"
  | PDict d =>
      "{" ++ join ", "
               (map (fun kv => Repr.of_str (fst kv) ++ ": " ++ py_repr (snd kv)) d)
          ++ "}"
  end.

(** [str(v)], which an f-string applies to a value without a format spec. *)
Definition py_str (v : pyval) : string :=
  match v with
  | PStr s => s
  | _ => py_repr v
  end.

(* ================================================================= *)
(** * config.py *)

Record config : Type := {
  EMA_PERIODS : list nat;
  RSI_PERIOD : nat;
  VOLATILITY_PERIOD : nat;
  AI_OUTPUT_MODE : string;
  SIGNAL_FORMAT : list (string * bool);
  PNG_PATH : string
}.

(** The values the module assigns. *)
Definition config_py : config := {|
  EMA_PERIODS := [20; 50; 200]%nat;
  RSI_PERIOD := 14%nat;
  VOLATILITY_PERIOD := 20%nat;
  AI_OUTPUT_MODE := "both";
  SIGNAL_FORMAT :=
    [("entry", true); ("stoploss", true); ("tp1", true); ("tp2", true);
     ("tp3", true)];
  PNG_PATH := "/home/mortezapoudat/projects/ai_app/data/charts"
|}.

Definition with_mode (mode : string) (cfg : config) : config := {|
  EMA_PERIODS := EMA_PERIODS cfg;
  RSI_PERIOD := RSI_PERIOD cfg;
  VOLATILITY_PERIOD := VOLATILITY_PERIOD cfg;
  AI_OUTPUT_MODE := mode;
  SIGNAL_FORMAT := SIGNAL_FORMAT cfg;
  PNG_PATH := PNG_PATH cfg
|}.

(** [SIGNAL_FORMAT.get(key, True)] *)
Fixpoint flag_get (d : list (string * bool)) (key : string) : bool :=
  match d with
  | [] => true
  | (k, b) :: d' => if (k =? key)%string then b else flag_get d' key
  end.

(* ================================================================= *)
(** * charts.py: [format_ai_output] *)

(** One [if value and flag: signal_text += f"<label>{value:.4f}\n"]. *)
Definition add_level_line (label : string) (value : pyval) (flag : bool)
  (signal_text : string) : result string :=
  if (truthy value && flag)%bool then
    s <- format_f false 4 value ;;
    Ok (signal_text ++ label ++ s ++ nl)
  else Ok signal_text.

(** One [if value: signal_text += f"<label>{value}<unit>\n"]. *)
Definition add_text_line (label : string) (value : pyval) (unit : string)
  (signal_text : string) : string :=
  if truthy value then signal_text ++ label ++ py_str value ++ unit ++ nl
  else signal_text.

(** The block that builds [signal_text]; the branches for the modes
    ["signal"] and ["both"] contain the same statements. *)
Definition build_signal_text (cfg : config) (symbol : string) (l : levels)
  : result string :=
  let signal_text := "📊 #" ++ symbol ++ " SIGNALS:" ++ nl in
  let signal_text := add_text_line "📈 Signal: " (signal l) "" signal_text in
  let signal_text :=
    add_text_line "🎯 Probability: " (probability l) "%" signal_text in
  signal_text <- add_level_line "🎯 Entry: " (entry l)
                   (flag_get (SIGNAL_FORMAT cfg) "entry") signal_text ;;
  signal_text <- add_level_line "🛑 SL: " (sl l)
                   (flag_get (SIGNAL_FORMAT cfg) "stoploss") signal_text ;;
  signal_text <- add_level_line "🎯 TP1: " (tp1 l)
                   (flag_get (SIGNAL_FORMAT cfg) "tp1") signal_text ;;
  signal_text <- add_level_line "🎯 TP2: " (tp2 l)
                   (flag_get (SIGNAL_FORMAT cfg) "tp2") signal_text ;;
  signal_text <- add_level_line "🎯 TP3: " (tp3 l)
                   (flag_get (SIGNAL_FORMAT cfg) "tp3") signal_text ;;
  Ok signal_text.

(** The body of [format_ai_output] after the levels are extracted. *)
Definition format_levels (cfg : config) (analysis_text symbol : string)
  (l : levels) : result string :=
  if (AI_OUTPUT_MODE cfg =? "signal")%string then
    build_signal_text cfg symbol l
  else if (AI_OUTPUT_MODE cfg =? "detailed")%string then
    Ok ("🤖 AI Analysis for #" ++ symbol ++ ":" ++ nl ++ analysis_text)
  else
    signal_text <- build_signal_text cfg symbol l ;;
    Ok (signal_text ++ nl ++ nl ++ "🤖 Detailed Analysis:" ++ nl
          ++ analysis_text).

Definition format_ai_output (cfg : config) (analysis_text symbol : string)
  : result string :=
  l <- extract_trading_levels analysis_text ;;
  format_levels cfg analysis_text symbol l.

(* ================================================================= *)
(** * Provider payloads and data frames *)

(** One bar as a provider sends it.  [raw_datetime] is the instant the
    provider's text denotes, in milliseconds since the epoch; the prices are
    still text. *)
Record raw_bar : Type := {
  raw_datetime : Z;
  raw_open : string;
  raw_high : string;
  raw_low : string;
  raw_close : string
}.

(** One row of a frame after [strftime('%Y-%m-%d %H:%M:%S')].  The text of
    [datetime] is fixed-width and orders as the instants do, so it is
    represented by its number of whole seconds since the epoch.
    [indicators] are the further columns, in the order they were added. *)
Record row : Type := {
  row_datetime : Z;
  row_open : float;
  row_high : float;
  row_low : float;
  row_close : float;
  indicators : list (string * pyval)
}.

(** What the key ['values'] of a payload holds: the provider's bars, or the
    records written back by [df.to_dict('records')]. *)
Inductive series_values : Type :=
| Raw (bars : list raw_bar)
| Records (rows : list row).

(** The decoded response of a provider, a dictionary whose keys may be
    missing: twelvedata sends [status], [message], [meta] and [values];
    Bybit sends [retMsg] and [result]. *)
Record payload : Type := {
  status : option string;
  message : option string;
  meta_symbol : option string;
  values : option series_values;
  retMsg : option string;
  result_symbol : option string;
  result_list : option (list raw_bar)
}.

Definition set_values (v : series_values) (data : payload) : payload := {|
  status := status data;
  message := message data;
  meta_symbol := meta_symbol data;
  values := Some v;
  retMsg := retMsg data;
  result_symbol := result_symbol data;
  result_list := result_list data
|}.

(** [d[key]] *)
Definition getitem {A : Type} (field : option A) (key : string) : result A :=
  match field with
  | Some a => Ok a
  | None => Raise (KeyError key)
  end.

Fixpoint mapM {A B : Type} (f : A -> result B) (l : list A) : result (list B) :=
  match l with
  | [] => Ok []
  | a :: l' => b <- f a ;; bs <- mapM f l' ;; Ok (b :: bs)
  end.

(** ** Sorting by a key *)

Fixpoint insert_by {A : Type} (key : A -> Z) (x : A) (l : list A) : list A :=
  match l with
  | [] => [x]
  | y :: l' => if key x <=? key y then x :: l else y :: insert_by key x l'
  end.

(** [df.sort_values(column)]: rows in ascending order of the key.  pandas
    does not fix the relative order of rows with equal keys; this model
    keeps their order. *)
Definition sort_values {A : Type} (key : A -> Z) (l : list A) : list A :=
  fold_right (insert_by key) [] l.

(** ** Columns *)

Definition closes (df : list row) : list float := map row_close df.

Definition with_indicator (name : string) (v : pyval) (r : row) : row := {|
  row_datetime := row_datetime r;
  row_open := row_open r;
  row_high := row_high r;
  row_low := row_low r;
  row_close := row_close r;
  indicators := Json.dict_set (indicators r) name v
|}.

Fixpoint zip_column (name : string) (col : list float) (df : list row)
  : result (list row) :=
  match col, df with
  | [], [] => Ok []
  | x :: col', r :: df' =>
      rest <- zip_column name col' df' ;;
      Ok (with_indicator name (PFloat x) r :: rest)
  | _, _ => Raise ValueError
  end.

(** [df[name] = col], where a library function that declines a series
    returns [None] and the column is then [None] in every row. *)
Definition set_column (name : string) (col : option (list float))
  (df : list row) : result (list row) :=
  match col with
  | Some c => zip_column name c df
  | None => Ok (map (with_indicator name PNone) df)
  end.

Definition SF64sub : float -> float -> float :=
  SFsub Float64.prec Float64.emax.
Definition SF64mul : float -> float -> float :=
  SFmul Float64.prec Float64.emax.
Definition SF64div : float -> float -> float :=
  SFdiv Float64.prec Float64.emax.
Definition SF64ltb : float -> float -> bool := SFltb.

Definition float_of_nat (n : nat) : float :=
  Float64.of_decimal false (N.of_nat n) 0.

(** [series.diff()] *)
Fixpoint diff_from (prev : float) (l : list float) : list float :=
  match l with
  | [] => []
  | x :: l' => SF64sub x prev :: diff_from x l'
  end.

Definition series_diff (l : list float) : list float :=
  match l with
  | [] => []
  | x :: l' => S754_nan :: diff_from x l'
  end.

(** [series.pct_change() * 100] on a series without gaps. *)
Fixpoint pct_from (prev : float) (l : list float) : list float :=
  match l with
  | [] => []
  | x :: l' =>
      SF64mul (SF64sub (SF64div x prev) (float_of_nat 1)) (float_of_nat 100)
        :: pct_from x l'
  end.

Definition series_pct_change_100 (l : list float) : list float :=
  match l with
  | [] => []
  | x :: l' => SF64mul S754_nan (float_of_nat 100) :: pct_from x l'
  end.

(* ================================================================= *)
(** * data_fetcher.py *)

(** The indicator routines of pandas-ta, which the repository calls and does
    not define: each maps the close column and a window length to a column,
    or to [None] when it declines the series. *)
Record ta_library : Type := {
  ta_ema : list float -> nat -> option (list float);
  ta_rsi : list float -> nat -> option (list float);
  ta_stdev : list float -> nat -> option (list float);
  ta_sma : list float -> nat -> option (list float)
}.

Definition calculate_ema (ta : ta_library) (data : list float) (period : nat)
  : option (list float) := ta_ema ta data period.

Definition calculate_rsi (ta : ta_library) (data : list float) (period : nat)
  : option (list float) := ta_rsi ta data period.

Definition string_of_nat (n : nat) : string := string_of_N (N.of_nat n).

(** [for period in EMA_PERIODS: df[f'ema_{period}'] = ...] *)
Fixpoint add_emas (ta : ta_library) (periods : list nat) (df : list row)
  : result (list row) :=
  match periods with
  | [] => Ok df
  | period :: rest =>
      df' <- set_column ("ema_" ++ string_of_nat period)
               (calculate_ema ta (closes df) period) df ;;
      add_emas ta rest df'
  end.

Definition add_technical_indicators (ta : ta_library) (cfg : config)
  (df : list row) : result (list row) :=
  df <- add_emas ta (EMA_PERIODS cfg) df ;;
  df <- set_column "rsi" (calculate_rsi ta (closes df) (RSI_PERIOD cfg)) df ;;
  df <- set_column "price_change" (Some (series_diff (closes df))) df ;;
  df <- set_column "price_change_pct"
          (Some (series_pct_change_100 (closes df))) df ;;
  df <- set_column "volatility"
          (ta_stdev ta (closes df) (VOLATILITY_PERIOD cfg)) df ;;
  df <- set_column "sma_20" (ta_sma ta (closes df) 20%nat) df ;;
  Ok df.

(** [max(l)]: [ValueError] on an empty list. *)
Definition py_max (l : list nat) : result nat :=
  match l with
  | [] => Raise ValueError
  | x :: l' => Ok (fold_left Nat.max l' x)
  end.

(** [if len(df) > max_period: df = df.iloc[max_period:]] *)
Definition trim_warmup (max_period : nat) (df : list row) : list row :=
  if (max_period <? List.length df)%nat then skipn max_period df else df.

(** A bar with its prices converted by [astype(float)], keyed by the
    instant [t]. *)
Definition typed_bar (convert : string -> result float) (t : Z) (b : raw_bar)
  : result row :=
  o <- convert (raw_open b) ;;
  h <- convert (raw_high b) ;;
  lo <- convert (raw_low b) ;;
  c <- convert (raw_close b) ;;
  Ok {| row_datetime := t; row_open := o; row_high := h; row_low := lo;
        row_close := c; indicators := [] |}.

(** [strftime] keeps whole seconds. *)
Definition strftime_seconds (ms : Z) : Z := ms / 1000.

Definition set_datetime (t : Z) (r : row) : row := {|
  row_datetime := t;
  row_open := row_open r;
  row_high := row_high r;
  row_low := row_low r;
  row_close := row_close r;
  indicators := indicators r
|}.

Definition is_empty_values (v : series_values) : bool :=
  match v with
  | Raw [] | Records [] => true
  | _ => false
  end.

(** [pd.DataFrame(data['values'])], [to_datetime], the sort by [datetime]
    and [astype(float)]: rows keyed by the instant in milliseconds.  A frame
    built from an empty list has no column [datetime]. *)
Definition sorted_frame (v : series_values) : result (list row) :=
  if is_empty_values v then Raise (KeyError "datetime")
  else
    match v with
    | Raw bars =>
        let bars := sort_values raw_datetime bars in
        mapM (fun b => typed_bar py_float (raw_datetime b) b) bars
    | Records rows =>
        Ok (sort_values row_datetime
              (map (fun r => set_datetime (row_datetime r * 1000) r) rows))
    end.

(** The loop body shared, statement for statement, by [get_symbol_data] and
    [get_coin_data] once the response is decoded. *)
Definition twelvedata_body (ta : ta_library) (cfg : config) (data : payload)
  : result payload :=
  match values data with
  | Some v =>
      st <- getitem (status data) "status" ;;
      if (st =? "ok")%string then
        df <- sorted_frame v ;;
        df <- add_technical_indicators ta cfg df ;;
        max_period <- py_max (EMA_PERIODS cfg) ;;
        let df := trim_warmup max_period df in
        let df :=
          map (fun r => set_datetime (strftime_seconds (row_datetime r)) r) df in
        Ok (set_values (Records df) data)
      else Ok data
  | None => Ok data
  end.

(** The [for] loop with its accumulator [json_data]; [fetch] stands for
    the HTTP request and [response.json()]. *)
Fixpoint twelvedata_loop (ta : ta_library) (cfg : config)
  (fetch : string -> payload) (symbols : list string)
  (json_data : list payload) : result (list payload) :=
  match symbols with
  | [] => Ok json_data
  | symbol :: rest =>
      data <- twelvedata_body ta cfg (fetch symbol) ;;
      twelvedata_loop ta cfg fetch rest (json_data ++ [data])%list
  end.

Definition get_symbol_data (ta : ta_library) (cfg : config)
  (fetch : string -> payload) (symbols : list string) : result (list payload) :=
  twelvedata_loop ta cfg fetch symbols [].

Definition get_coin_data (ta : ta_library) (cfg : config)
  (fetch : string -> payload) (coins : list string) : result (list payload) :=
  twelvedata_loop ta cfg fetch coins [].

(* ================================================================= *)
(** * bybit.py *)

Definition interval_map : list (string * string) :=
  [("1min", "1"); ("5min", "5"); ("15min", "15"); ("30min", "30");
   ("1h", "60")].

Fixpoint assoc_get (d : list (string * string)) (key : string) : result string :=
  match d with
  | [] => Raise (KeyError key)
  | (k, v) :: d' => if (k =? key)%string then Ok v else assoc_get d' key
  end.

(** [astype(str).str.replace(',', '.').astype(float)] *)
Definition comma_decimal_float (s : string) : result float :=
  py_float (replace_char "," "." s).

(** The branch [if data['retMsg'] == 'OK'] of [get_bybit_coin_data]. *)
Definition bybit_ok_branch (ta : ta_library) (cfg : config) (data : payload)
  : result payload :=
  bars <- getitem (result_list data) "result" ;;
  let bars := sort_values raw_datetime bars in
  df <- mapM (fun b => typed_bar comma_decimal_float
                         (strftime_seconds (raw_datetime b)) b) bars ;;
  df <- add_technical_indicators ta cfg df ;;
  max_period <- py_max (EMA_PERIODS cfg) ;;
  let df := trim_warmup max_period df in
  Ok (set_values (Records df) data).

Fixpoint bybit_loop (ta : ta_library) (cfg : config)
  (fetch : string -> string -> payload) (interval : string)
  (coins : list string) (json_data : list payload) : result (list payload) :=
  match coins with
  | [] => Ok json_data
  | coin :: rest =>
      code <- assoc_get interval_map interval ;;
      let data := fetch coin code in
      msg <- getitem (retMsg data) "retMsg" ;;
      if (msg =? "OK")%string then
        data' <- bybit_ok_branch ta cfg data ;;
        bybit_loop ta cfg fetch interval rest (json_data ++ [data'])%list
      else
        (* raise Exception(f"Error: {json_data[0]['retMsg']}") *)
        match json_data with
        | [] => Raise IndexError
        | first :: _ =>
            m <- getitem (retMsg first) "retMsg" ;;
            Raise (Exception ("Error: " ++ m))
        end
  end.

Definition get_bybit_coin_data (ta : ta_library) (cfg : config)
  (fetch : string -> string -> payload) (interval : string)
  (coins : list string) : result (list payload) :=
  bybit_loop ta cfg fetch interval coins [].

(* ================================================================= *)
(** * charts.py: [extract_df] and [generate_charts] *)

Definition drop_indicators (r : row) : row := {|
  row_datetime := row_datetime r;
  row_open := row_open r;
  row_high := row_high r;
  row_low := row_low r;
  row_close := row_close r;
  indicators := []
|}.

(** The frame keeps the five named columns only; it is sorted again unless
    the exchange is ["bybit"]. *)
Definition extract_df (entry : payload) (exchange : string)
  : result (string * list row) :=
  v <- getitem (values entry) "values" ;;
  df <- match v with
        | Raw bars =>
            mapM (fun b => typed_bar py_float
                             (strftime_seconds (raw_datetime b)) b) bars
        | Records rows => Ok (map drop_indicators rows)
        end ;;
  let df :=
    if negb (exchange =? "bybit")%string then sort_values row_datetime df
    else df in
  if (exchange =? "bybit")%string then
    symbol <- getitem (result_symbol entry) "result" ;;
    Ok (symbol, df)
  else
    symbol <- getitem (meta_symbol entry) "meta" ;;
    Ok (symbol, df).

(** What the surroundings decide during one call: the clock, whether the
    [try] block that writes and screenshots the chart completes, and
    whether the HTML file of the [except] branch can be written. *)
Record environment : Type := {
  timestamp : string;
  png_saved : bool;
  html_saved : bool
}.

(** [df.tail(n)] *)
Definition tail (n : nat) (df : list row) : list row :=
  skipn (List.length df - n) df.

(** [series.iloc[-1]] *)
Fixpoint iloc_last {A : Type} (l : list A) : result A :=
  match l with
  | [] => Raise IndexError
  | [x] => Ok x
  | _ :: l' => iloc_last l'
  end.

(** [series.max()] and [series.min()], which skip NaN. *)
Definition pick (better : float -> float -> bool) (acc x : float) : float :=
  if Float64.is_nan acc then x
  else if Float64.is_nan x then acc
  else if better x acc then x else acc.

Definition series_max (l : list float) : float :=
  fold_left (pick (fun x acc => SF64ltb acc x)) l S754_nan.

Definition series_min (l : list float) : float :=
  fold_left (pick (fun x acc => SF64ltb x acc)) l S754_nan.

(** [name in df.columns] and [df[name].iloc[-1]] for an added column. *)
Definition has_column (name : string) (df : list row) : bool :=
  match df with
  | [] => false
  | r :: _ =>
      match Json.dict_get (indicators r) name with
      | Some _ => true
      | None => false
      end
  end.

Definition last_cell (name : string) (df : list row) : result pyval :=
  r <- iloc_last df ;;
  getitem (Json.dict_get (indicators r) name) name.

Definition as_float (v : pyval) : result float :=
  match v with
  | PFloat f => Ok f
  | _ => Raise TypeError
  end.

(** [if value: fig.add_hline(..., annotation_text=f"<label>{value:.2f}")] *)
Definition add_hline (value : pyval) : result unit :=
  if truthy value then _ <- format_f false 2 value ;; Ok tt else Ok tt.

(** [format(v, ".2f if entry else 'N/A'")]: the text after the colon of the
    replacement field is the format spec, and it is not a valid one. *)
Definition format_conditional_spec (v : pyval) : result string :=
  match v with
  | PNone | PList _ | PDict _ => Raise TypeError
  | PBool _ | PInt _ | PFloat _ | PStr _ => Raise ValueError
  end.

Definition rsi_summary (df : list row) : result string :=
  if has_column "rsi" df then
    v <- last_cell "rsi" df ;;
    current_rsi <- as_float v ;;
    let rsi_status :=
      if SF64ltb (float_of_nat 70) current_rsi then "Overbought"
      else if SF64ltb current_rsi (float_of_nat 30) then "Oversold"
      else "Neutral" in
    Ok ("RSI: " ++ format_fixed false 1 current_rsi ++ " (" ++ rsi_status ++ ")")
  else Ok "".

Definition ema_summary (cfg : config) (df : list row) : result string :=
  match EMA_PERIODS cfg with
  | p0 :: p1 :: _ =>
      let ema1_col := "ema_" ++ string_of_nat p0 in
      let ema2_col := "ema_" ++ string_of_nat p1 in
      if (has_column ema1_col df && has_column ema2_col df)%bool then
        v1 <- last_cell ema1_col df ;;
        v2 <- last_cell ema2_col df ;;
        ema1_val <- as_float v1 ;;
        ema2_val <- as_float v2 ;;
        let ema_trend :=
          if SF64ltb ema2_val ema1_val then "Bullish" else "Bearish" in
        Ok ("EMA Trend: " ++ ema_trend ++ " (" ++ string_of_nat p0 ++ ": "
              ++ format_fixed false 2 ema1_val ++ ", " ++ string_of_nat p1
              ++ ": " ++ format_fixed false 2 ema2_val ++ ")")
      else Ok ""
  | _ => Ok ""
  end.

Definition levels_summary (l : levels) : result string :=
  if (truthy (entry l) || truthy (tp1 l) || truthy (tp2 l) || truthy (tp3 l)
      || truthy (sl l))%bool then
    e <- format_conditional_spec (entry l) ;;
    t1 <- format_conditional_spec (tp1 l) ;;
    t2 <- format_conditional_spec (tp2 l) ;;
    t3 <- format_conditional_spec (tp3 l) ;;
    s <- format_conditional_spec (sl l) ;;
    Ok (nl ++ "🎯 Trading Levels:" ++ nl ++ "Entry: " ++ e ++ nl ++ "TP1: "
          ++ t1 ++ nl ++ "TP2: " ++ t2 ++ nl ++ "TP3: " ++ t3 ++ nl ++ "SL: "
          ++ s)
  else Ok "".

(** The [except Exception] branch: the textual summary. *)
Definition text_summary (cfg : config) (env : environment) (symbol : string)
  (df : list row) (l : levels) : result string :=
  _ <- (if html_saved env then Ok tt else Raise OSError) ;;
  latest_price <- iloc_last (map row_close df) ;;
  last_open <- iloc_last (map row_open df) ;;
  let price_change := SF64sub latest_price last_open in
  let price_change_pct :=
    SF64mul (SF64div price_change last_open) (float_of_nat 100) in
  let high := series_max (map row_high df) in
  let low := series_min (map row_low df) in
  rsi_text <- rsi_summary df ;;
  ema_text <- ema_summary cfg df ;;
  levels_text <- levels_summary l ;;
  Ok (nl ++ "📊 #" ++ symbol ++ " Technical Analysis:" ++ nl
        ++ "💰 Current Price: " ++ format_fixed false 4 latest_price ++ nl
        ++ "📈 Change: " ++ format_fixed true 4 price_change ++ " ("
        ++ format_fixed true 2 price_change_pct ++ "%)" ++ nl
        ++ "📊 High: " ++ format_fixed false 4 high ++ nl
        ++ "📉 Low: " ++ format_fixed false 4 low ++ nl
        ++ rsi_text ++ nl
        ++ ema_text ++ levels_text ++ nl
        ++ "⏰ Timeframe: Last 5 minutes" ++ nl
        ++ "        ").

Definition generate_charts (cfg : config) (env : environment) (data : payload)
  (analysis_text exchange : string) : result string :=
  sd <- extract_df data exchange ;;
  let '(symbol, df) := sd in
  let df := tail 20 df in
  l <- extract_trading_levels analysis_text ;;
  _ <- add_hline (entry l) ;;
  _ <- add_hline (tp1 l) ;;
  _ <- add_hline (tp2 l) ;;
  _ <- add_hline (tp3 l) ;;
  _ <- add_hline (sl l) ;;
  if png_saved env then
    Ok (PNG_PATH cfg ++ "/" ++ replace_char "/" "" symbol ++ "_"
          ++ timestamp env ++ ".png")
  else text_summary cfg env symbol df l.

(* ================================================================= *)
(** * Vocabulary of the statements *)

(** The [try] block of [extract_trading_levels] ended without its
    [return]: no braces in the text, or text between braces that is not a
    JSON object with a textual signal. *)
Definition json_phase_fell_through (analysis_text : string) : bool :=
  match snd (json_phase analysis_text []) with
  | Ok None => true
  | _ => false
  end.

Definition pattern_matches (analysis_text pattern : string) : bool :=
  Re.is_some (Re.search pattern analysis_text Re.IGNORECASE).

(** None of the label patterns occurs in the text. *)
Definition no_pattern_matches (analysis_text : string) : bool :=
  forallb (fun item => forallb (fun p => negb (pattern_matches analysis_text p))
                         (snd item))
    patterns.

(** Neither phase finds anything in the text. *)
Definition unparseable (analysis_text : string) : bool :=
  (json_phase_fell_through analysis_text && no_pattern_matches analysis_text)%bool.

(** The pattern compiles and group 1 takes part in each of its matches. *)
Definition captures_value (pattern : string) : bool :=
  match Re.compile pattern with
  | Some r => Re.sets_group r
  | None => false
  end.

(** The pattern compiles and each of its matches reads [c]. *)
Definition pattern_reads (c : ascii) (pattern : string) : bool :=
  match Re.compile pattern with
  | Some r => Re.reads_char c r
  | None => false
  end.

(** [s] between double quotes. *)
Definition quoted (s : string) : string :=
  String Json.dquote (s ++ String Json.dquote EmptyString).

(** The model answer
    [{"signal":"buy","entry":100,"stop_loss":95,"tp1":105}]. *)
Definition json_answer : string :=
  "{" ++ quoted "signal" ++ ":" ++ quoted "buy" ++ ","
      ++ quoted "entry" ++ ":100,"
      ++ quoted "stop_loss" ++ ":95,"
      ++ quoted "tp1" ++ ":105}".

(** The model answer with labels and values on separate lines and a
    thousands separator. *)
Definition markdown_answer : string :=
  "**SIGNAL**: SELL" ++ nl
  ++ "**ENTRY**:" ++ nl
  ++ nl
  ++ "1234.5" ++ nl
  ++ "**STOP LOSS**: 1,200.00".

(** Two values of a field that the report cannot tell apart: the same
    value, or two values that are both false in a condition. *)
Definition same_or_falsy (v v' : pyval) : Prop :=
  v = v' \/ (truthy v = false /\ truthy v' = false).

Definition levels_agree (l l' : levels) : Prop :=
  same_or_falsy (entry l) (entry l')
  /\ same_or_falsy (tp1 l) (tp1 l')
  /\ same_or_falsy (tp2 l) (tp2 l')
  /\ same_or_falsy (tp3 l) (tp3 l')
  /\ same_or_falsy (sl l) (sl l')
  /\ same_or_falsy (signal l) (signal l')
  /\ same_or_falsy (probability l) (probability l').

(** Levels with a zero entry, a zero probability and an empty signal. *)
Definition falsy_levels : levels := {|
  entry := PInt 0;
  tp1 := PFloat (S754_zero false);
  tp2 := PNone;
  tp3 := PNone;
  sl := PFloat (S754_zero true);
  signal := PStr "";
  probability := PInt 0
|}.

(** One bar of a frame, as [df.to_dict('records')] leaves it. *)
Definition sample_row : row := {|
  row_datetime := 1700000000;
  row_open := Prim2SF 100.5;
  row_high := Prim2SF 101.0;
  row_low := Prim2SF 99.25;
  row_close := Prim2SF 100.75;
  indicators := []
|}.

(** A processed Bybit payload holding that bar. *)
Definition sample_payload : payload := {|
  status := None;
  message := None;
  meta_symbol := None;
  values := Some (Records [sample_row]);
  retMsg := Some "OK";
  result_symbol := Some "BTCUSDT";
  result_list := Some []
|}.

(** The screenshot fails, the HTML fallback file can be written. *)
Definition png_fails : environment := {|
  timestamp := "20240101_120000";
  png_saved := false;
  html_saved := true
|}.

(** Some level is present. *)
Definition any_level (l : levels) : bool :=
  (truthy (entry l) || truthy (tp1 l) || truthy (tp2 l) || truthy (tp3 l)
   || truthy (sl l))%bool.

(** The [datetime] column of the series a payload carries. *)
Definition timestamps (data : payload) : list Z :=
  match values data with
  | Some (Records rows) => map row_datetime rows
  | Some (Raw bars) => map (fun b => strftime_seconds (raw_datetime b)) bars
  | None => []
  end.

(** The series under ['values'] was produced by a normalizer. *)
Definition has_series (data : payload) : bool :=
  match values data with
  | Some (Records _) => true
  | _ => false
  end.

(** A twelvedata payload that was accepted carries an ascending series. *)
Definition accepted_ascending (data : payload) : Prop :=
  status data = Some "ok" -> Sorted Z.le (timestamps data).

(** pandas-ta on a series shorter than every window: each routine declines
    and returns [None]. *)
Definition ta_declines : ta_library := {|
  ta_ema := fun _ _ => None;
  ta_rsi := fun _ _ => None;
  ta_stdev := fun _ _ => None;
  ta_sma := fun _ _ => None
|}.

(** The error payload of twelvedata: [status] is not ["ok"] and [message]
    says why. *)
Definition twelvedata_error : payload := {|
  status := Some "error";
  message := Some "**symbol** not found: EUR/USDX";
  meta_symbol := None;
  values := None;
  retMsg := None;
  result_symbol := None;
  result_list := None
|}.

(** An error payload of Bybit. *)
Definition bybit_error : payload := {|
  status := None;
  message := None;
  meta_symbol := None;
  values := None;
  retMsg := Some "Symbol Is Invalid";
  result_symbol := None;
  result_list := None
|}.

Definition minute_bar (ms : Z) (price : string) : raw_bar := {|
  raw_datetime := ms;
  raw_open := price;
  raw_high := price;
  raw_low := price;
  raw_close := price
|}.

(** A successful Bybit payload with two bars, newest first. *)
Definition bybit_success : payload := {|
  status := None;
  message := None;
  meta_symbol := None;
  values := None;
  retMsg := Some "OK";
  result_symbol := Some "BTCUSDT";
  result_list := Some [minute_bar 120000 "17131.64"; minute_bar 60000 "17164.16"]
|}.

(** An accepted twelvedata payload in which the provider repeats a bar. *)
Definition duplicate_payload : payload := {|
  status := Some "ok";
  message := None;
  meta_symbol := Some "EUR/USD";
  values := Some (Raw [minute_bar 120000 "1.0850"; minute_bar 60000 "1.0849";
                       minute_bar 60000 "1.0849"]);
  retMsg := None;
  result_symbol := None;
  result_list := None
|}.

(* ================================================================= *)
(** * bybit.py: [decode_message] and [get_instrument_information] *)


(** One entry of [data['result']['list']] in the answer of
    [/v5/market/instruments-info]: the two filters the code reads, each
    absent or an object. *)
Record instrument : Type := {
  lotSizeFilter : option (list (string * pyval));
  leverageFilter : option (list (string * pyval))
}.

(** The decoded answer: [retMsg], and the list under ['result']['list']
    ([None] without ['result'], [Some None] when ['result'] has no
    ['list']). *)
Record instruments_info : Type := {
  info_retMsg : option string;
  info_result : option (option (list instrument))
}.

(** [l[0]] *)
Definition first_item {A : Type} (l : list A) : result A :=
  match l with
  | [] => Raise IndexError
  | x :: _ => Ok x
  end.

(** [get_instrument_information] once the response is decoded: both
    filters are read before [retMsg] is looked at. *)
Definition get_instrument_information (data : instruments_info)
  : result (list (string * pyval)) :=
  r <- getitem (info_result data) "result" ;;
  l <- getitem r "list" ;;
  i <- first_item l ;;
  qty_info <- getitem (lotSizeFilter i) "lotSizeFilter" ;;
  leverage_info <- getitem (leverageFilter i) "leverageFilter" ;;
  msg <- getitem (info_retMsg data) "retMsg" ;;
  if (msg =? "OK")%string then
    minOrderQty <- getitem (Json.dict_get qty_info "minOrderQty") "minOrderQty" ;;
    maxOrderQty <- getitem (Json.dict_get qty_info "maxOrderQty") "maxOrderQty" ;;
    qtyStep <- getitem (Json.dict_get qty_info "qtyStep") "qtyStep" ;;
    minLeverage <-
      getitem (Json.dict_get leverage_info "minLeverage") "minLeverage" ;;
    maxLeverage <-
      getitem (Json.dict_get leverage_info "maxLeverage") "maxLeverage" ;;
    Ok [("minOrderQty", minOrderQty); ("maxOrderQty", maxOrderQty);
        ("qtyStep", qtyStep); ("minLeverage", minLeverage);
        ("maxLeverage", maxLeverage)]
  else Raise (Exception ("Error: " ++ msg)).

(* ================================================================= *)
(** * grok_call.py *)

(** [simplified_data]: the empty dictionary, or the symbol with the recent
    values. *)
Inductive simplified_data : Type :=
| NoData
| MarketData (symbol : string) (current_market_data : series_values).

(** [values[-n:]] *)
Definition last_values (n : nat) (v : series_values) : series_values :=
  match v with
  | Raw bars => Raw (skipn (List.length bars - n) bars)
  | Records rows => Records (tail n rows)
  end.

(** The text of the prompt, line by line: [contxt] and the dumped market
    data are the two interpolations. *)
Definition prompt_text (contxt dumped : string) : string :=
  join nl
    [ "You are Gork, an expert " ++ contxt
      ++ " trading analyst. Analyze CURRENT market conditions.";
      "";
      "CURRENT MARKET DATA:";
      dumped;
      "";
      "ANALYZE:";
      "1. Current price action and indicators";
      "2. EMA positions and crossovers";
      "3. RSI levels and opportunities";
      "4. Support/resistance levels";
      "5. Volatility and momentum";
      "";
      "OUTPUT FORMAT - RESPOND IN JSON:";
      "{";
      "  " ++ quoted "trend" ++ ": " ++ quoted "Bullish/Bearish/Sideways"
        ++ ",";
      "  " ++ quoted "ema_status" ++ ": " ++ quoted "Current EMA positions"
        ++ ",";
      "  " ++ quoted "rsi" ++ ": "
        ++ quoted "Current RSI value and interpretation" ++ ",";
      "  " ++ quoted "volume" ++ ": " ++ quoted "Current volume analysis"
        ++ ",";
      "  " ++ quoted "support" ++ ": " ++ quoted "Current support levels"
        ++ ",";
      "  " ++ quoted "resistance" ++ ": "
        ++ quoted "Current resistance levels" ++ ",";
      "  " ++ quoted "volatility" ++ ": "
        ++ quoted "Current volatility assessment" ++ ",";
      "  " ++ quoted "signal" ++ ": " ++ quoted "BUY/SELL/HOLD" ++ ",";
      "  " ++ quoted "probability" ++ ": 85,";
      "  " ++ quoted "reason" ++ ": " ++ quoted "Technical reasoning" ++ ",";
      "  " ++ quoted "entry" ++ ": 157.16,";
      "  " ++ quoted "stop_loss" ++ ": 156.50,";
      "  " ++ quoted "tp1" ++ ": 158.51,";
      "  " ++ quoted "tp2" ++ ": 159.00,";
      "  " ++ quoted "tp3" ++ ": 160.00,";
      "  " ++ quoted "risk_level" ++ ": " ++ quoted "Low/Medium/High" ++ ",";
      "  " ++ quoted "position_size" ++ ": "
        ++ quoted "Recommended % of capital" ++ ",";
      "  " ++ quoted "timeframe" ++ ": " ++ quoted "Next 10-15 minutes";
      "}";
      "";
      "IMPORTANT: ";
      "- Focus on CURRENT market conditions";
      "- Use LATEST price values for entry, stop_loss, tp1, tp2, tp3";
      "- Respond ONLY with valid JSON format";
      "- Use actual price scale (e.g., BTC ~113,894, not 113.894)";
      "";
      "TRADING LOGIC:";
      "- BUY: SL below entry, TPs above entry";
      "- SELL: SL above entry, TPs below entry";
      "";
      "PROBABILITY:";
      "- Assess confidence (0-100%)";
      "- 80%+ for strong signals with multiple confirmations";
      "- 50-70% for weaker signals";
      "- Consider technical alignment, market conditions, volatility";
      "";
      "Provide concise analysis for immediate trading decisions." ].

(** [make_prompt]; [dumps] stands for [json.dumps(_, indent=2)].  The loop
    that replaces each [datetime] by its [str] changes nothing: the
    timestamps of a payload are texts already. *)
Definition make_prompt (dumps : simplified_data -> string) (data : payload)
  (contxt exchange : string) : result string :=
  sv <- (if (exchange =? "bybit")%string then
           symbol <- getitem (result_symbol data) "result" ;;
           values <- getitem (values data) "values" ;;
           Ok (symbol, values)
         else
           symbol <- getitem (meta_symbol data) "meta" ;;
           values <- getitem (values data) "values" ;;
           Ok (symbol, values)) ;;
  let '(symbol, values) := sv in
  let simplified_data :=
    if negb (is_empty_values values)
    then MarketData symbol (last_values 100 values)
    else NoData in
  Ok (prompt_text contxt (dumps simplified_data)).

(** [ask_grok]; [completion] stands for the request to the model and the
    text of its first choice. *)
Definition ask_grok (dumps : simplified_data -> string)
  (completion : string -> result string) (data : payload)
  (contxt exchange : string) : result string :=
  prompt <- make_prompt dumps data contxt exchange ;;
  completion prompt.

(* ================================================================= *)
(** * main.py *)

(** The lists of config.py that [run] reads. *)
Record watchlist : Type := {
  SYMBOLS : list string;
  COINS : list string;
  COINS_BYBIT : list string;
  INTERVAL : string
}.

Definition watchlist_py : watchlist := {|
  SYMBOLS := ["EUR/USD"; "XAU/USD"];
  COINS := ["BTC/USD"; "ETH/USD"; "SOL/USD"];
  COINS_BYBIT := ["BTCUSDT"; "ETHUSDT"; "SOLUSDT"];
  INTERVAL := "15min"
|}.

(** What [run] meets outside the program: the decoded responses of the two
    providers, [json.dumps], the answer of the model to a prompt, and the
    surroundings of the chart of a payload. *)
Record services : Type := {
  forex_response : string -> payload;
  coin_response : string -> payload;
  bybit_response : string -> string -> payload;
  json_dumps : simplified_data -> string;
  completion : string -> result string;
  chart_environment : payload -> environment
}.

(** What is handed to Telegram: [send_image] and [send_message], which are
    taken to return. *)
Inductive sent : Type :=
| Image (path : string)
| Message (text : string).

(** [s.endswith(suffix)] *)
Definition endswith (s suffix : string) : bool :=
  ((String.length suffix <=? String.length s)%nat
   && (substring (String.length s - String.length suffix)
         (String.length suffix) s =? suffix)%string)%bool.

(** The body of the loop of [run] for one payload: what it sends. *)
Definition symbol_report (cfg : config) (w : services)
  (contxt exchange : string) (symbol : payload) : result (list sent) :=
  analysis <- ask_grok (json_dumps w) (completion w) symbol contxt exchange ;;
  chart_result <- generate_charts cfg (chart_environment w symbol) symbol
                    analysis exchange ;;
  formatted_analysis <-
    (if (exchange =? "bybit")%string then
       name <- getitem (result_symbol symbol) "result" ;;
       format_ai_output cfg analysis name
     else
       name <- getitem (meta_symbol symbol) "meta" ;;
       format_ai_output cfg analysis name) ;;
  if endswith chart_result ".png" then
    Ok [Image chart_result; Message formatted_analysis]
  else Ok [Message (chart_result ++ nl ++ nl ++ formatted_analysis)].

(** The loop, with what was sent so far: an exception leaves the loop and
    what was sent stays sent. *)
Fixpoint run_loop (report : payload -> result (list sent))
  (data : list payload) (outbox : list sent) : list sent * result unit :=
  match data with
  | [] => (outbox, Ok tt)
  | symbol :: rest =>
      match report symbol with
      | Ok messages => run_loop report rest (outbox ++ messages)%list
      | Raise e => (outbox, Raise e)
      end
  end.

(** [run(contxt, exchange)]: what is sent, and whether it returns. *)
Definition run (ta : ta_library) (cfg : config) (wl : watchlist)
  (w : services) (contxt exchange : string) : list sent * result unit :=
  let fetched :=
    if (contxt =? "crypto")%string then
      if (exchange =? "bybit")%string then
        get_bybit_coin_data ta cfg (bybit_response w) (INTERVAL wl)
          (COINS_BYBIT wl)
      else get_coin_data ta cfg (coin_response w) (COINS wl)
    else if (contxt =? "forex")%string then
      get_symbol_data ta cfg (forex_response w) (SYMBOLS wl)
    else Raise ValueError in
  match fetched with
  | Ok data => run_loop (symbol_report cfg w contxt exchange) data []
  | Raise e => ([], Raise e)
  end.

(* ================================================================= *)
(** * Vocabulary of the further statements *)

(** A level as the regex phase leaves it: [None] or a float. *)
Definition none_or_float (v : pyval) : Prop :=
  v = PNone \/ exists f, v = PFloat f.

(** A signal as the regex phase leaves it: [None] or a text. *)
(** The words the patterns accept as a signal. *)
Definition signal_words : list string := ["BUY"; "SELL"; "HOLD"].

(** No signal, or one of the three words in upper case. *)
Definition trade_signal (v : pyval) : Prop :=
  v = PNone \/ exists w, In w signal_words /\ v = PStr w.

Definition regex_shaped (l : levels) : Prop :=
  none_or_float (entry l) /\ none_or_float (tp1 l) /\ none_or_float (tp2 l)
  /\ none_or_float (tp3 l) /\ none_or_float (sl l)
  /\ trade_signal (signal l) /\ probability l = PNone.

(** [value if flag else None] *)
Definition shown_if (flag : bool) (value : pyval) : pyval :=
  if flag then value else PNone.

(** The levels with those switched off in [SIGNAL_FORMAT] taken away. *)
Definition masked (cfg : config) (l : levels) : levels := {|
  entry := shown_if (flag_get (SIGNAL_FORMAT cfg) "entry") (entry l);
  tp1 := shown_if (flag_get (SIGNAL_FORMAT cfg) "tp1") (tp1 l);
  tp2 := shown_if (flag_get (SIGNAL_FORMAT cfg) "tp2") (tp2 l);
  tp3 := shown_if (flag_get (SIGNAL_FORMAT cfg) "tp3") (tp3 l);
  sl := shown_if (flag_get (SIGNAL_FORMAT cfg) "stoploss") (sl l);
  signal := signal l;
  probability := probability l
|}.

(** The levels that get a line, in the order of their lines. *)
Definition printed_levels (cfg : config) (l : levels) : list pyval :=
  filter truthy
    [shown_if (flag_get (SIGNAL_FORMAT cfg) "entry") (entry l);
     shown_if (flag_get (SIGNAL_FORMAT cfg) "stoploss") (sl l);
     shown_if (flag_get (SIGNAL_FORMAT cfg) "tp1") (tp1 l);
     shown_if (flag_get (SIGNAL_FORMAT cfg) "tp2") (tp2 l);
     shown_if (flag_get (SIGNAL_FORMAT cfg) "tp3") (tp3 l)].

(** The format spec [.4f] accepts the value. *)
Definition formattable (v : pyval) : bool :=
  match format_f false 4 v with
  | Ok _ => true
  | Raise _ => false
  end.

Definition returns {A : Type} (r : result A) : bool :=
  match r with
  | Ok _ => true
  | Raise _ => false
  end.

(** A row with the five named columns and nothing else. *)
Definition bare (r : row) : Prop := indicators r = [].

(** The five price levels, in the order the chart draws their lines. *)
Definition drawn_levels (l : levels) : list pyval :=
  [entry l; tp1 l; tp2 l; tp3 l; sl l].

(** A level the chart can label: absent, zero, or a number. *)
Definition drawable (v : pyval) : bool := (negb (truthy v) || formattable v)%bool.

(** The response is one the twelvedata loop normalizes:
    ['values' in data and data['status'] == 'ok']. *)
Definition accepted (data : payload) : bool :=
  match values data, status data with
  | Some _, Some st => (st =? "ok")%string
  | _, _ => false
  end.

(** The names of the columns [add_technical_indicators] writes. *)
Definition indicator_columns (cfg : config) : list string :=
  List.app
    (map (fun period => "ema_" ++ string_of_nat period) (EMA_PERIODS cfg))
    ["rsi"; "price_change"; "price_change_pct"; "volatility"; "sma_20"].

(** The row has a cell in the column [name]. *)
Definition has_cell (name : string) (r : row) : bool :=
  match Json.dict_get (indicators r) name with
  | Some _ => true
  | None => false
  end.

(** What is left of the ascending instants [ts] after the warm-up of
    [max_period] bars is cut off. *)
Definition after_warmup (max_period : nat) (ts : list Z) : list Z :=
  if (max_period <? List.length ts)%nat then skipn max_period ts else ts.

(** The instants of the raw bars, in milliseconds and ascending. *)
Definition sorted_instants (bars : list raw_bar) : list Z :=
  sort_values (fun t => t) (map raw_datetime bars).

(** What writing one column does to a frame. *)
Definition column_written (name : string) (df df' : list row) : Prop :=
  map drop_indicators df' = map drop_indicators df
  /\ Forall (fun r => has_cell name r = true) df'
  /\ forall other, Forall (fun r => has_cell other r = true) df ->
                   Forall (fun r => has_cell other r = true) df'.

(** [raise Exception(...)], as opposed to a built-in exception. *)
Definition is_plain_exception (e : exn) : bool :=
  match e with
  | Exception _ => true
  | _ => false
  end.

(** What [get_symbol_data] and [get_coin_data] return for one response. *)
Definition answers (response out : payload) : Prop :=
  status out = status response
  /\ message out = message response
  /\ meta_symbol out = meta_symbol response
  /\ (if accepted response then has_series out = true else out = response).

(** What [get_bybit_coin_data] returns for one response. *)
Definition bybit_answers (response out : payload) : Prop :=
  retMsg response = Some "OK"
  /\ retMsg out = Some "OK"
  /\ result_symbol out = result_symbol response
  /\ has_series out = true.




(** An error answer of the instruments endpoint: the result is empty. *)
Definition instruments_error : instruments_info := {|
  info_retMsg := Some "params error: symbol invalid";
  info_result := Some None
|}.

(** The words a pattern made of characters, sequences and alternatives
    reads. *)
Fixpoint literal_words (r : Re.regex) : option (list string) :=
  match r with
  | Re.Empty => Some [""]
  | Re.Chr c => Some [String c ""]
  | Re.Seq r1 r2 =>
      match literal_words r1, literal_words r2 with
      | Some l1, Some l2 =>
          Some (flat_map (fun w1 => map (fun w2 => w1 ++ w2) l2) l1)
      | _, _ => None
      end
  | Re.Alt r1 r2 =>
      match literal_words r1, literal_words r2 with
      | Some l1, Some l2 => Some (List.app l1 l2)
      | _, _ => None
      end
  | _ => None
  end.

(** Group 1, wherever it stands in [r], reads one of the words [ws]. *)
Fixpoint groups_read (ws : list string) (r : Re.regex) : bool :=
  match r with
  | Re.Group r' =>
      match literal_words r' with
      | Some l => forallb (fun w => existsb (String.eqb w) ws) l
      | None => false
      end
  | Re.Seq r1 r2 | Re.Alt r1 r2 => (groups_read ws r1 && groups_read ws r2)%bool
  | Re.Star _ r' | Re.Lookahead r' => groups_read ws r'
  | _ => true
  end.

(** [w] at the head of [s], up to the flags: what follows it. *)
Fixpoint reads_word (fl : Re.flags) (w s : string) : option string :=
  match w, s with
  | EmptyString, _ => Some s
  | String c w', String x s' =>
      if Re.char_eq fl x c then reads_word fl w' s' else None
  | String _ _, EmptyString => None
  end.

(** Group 1 holds one of the words [ws], in any case, or nothing. *)
Definition word_capture (ws : list string) (g : Re.capture) : Prop :=
  match g with
  | Some x => exists w, In w ws /\ upper x = upper w
  | None => True
  end.

Definition keeps_words (ws : list string) (m : Re.matcher) : Prop :=
  forall s g k o, word_capture ws g -> m s g k = Some o ->
  exists s' g', word_capture ws g' /\ k s' g' = Some o.

(** The group of a signal pattern reads a signal word. *)
Definition signal_pattern (pattern : string) : bool :=
  match Re.compile pattern with
  | Some r => groups_read signal_words r
  | None => true
  end.

Definition signal_patterns (items : list (string * list string)) : bool :=
  forallb (fun item => (negb (fst item =? "signal")%string
                        || forallb signal_pattern (snd item))%bool) items.

(** Services in which twelvedata answers every symbol with its error
    payload. *)
Definition twelvedata_down : services := {|
  forex_response := fun _ => twelvedata_error;
  coin_response := fun _ => twelvedata_error;
  bybit_response := fun _ _ => bybit_error;
  json_dumps := fun _ => "{}";
  completion := fun _ => Ok "";
  chart_environment := fun _ => png_fails
|}.




(* ================================================================= *)
(** * Properties of the matcher *)

Module ReFacts.
Import Re.

Lemma suffix_trans : forall a b c, suffix a b -> suffix b c -> suffix a c.
Proof.
  intros a b c Hab Hbc. induction Hbc.
  - assumption.
  - apply suffix_skip. auto.
Qed.

Lemma suffix_contains : forall c s' s,
  suffix s' s -> contains_char c s' = true -> contains_char c s = true.
Proof.
  intros c s' s H. induction H; intro Hc.
  - assumption.
  - simpl. rewrite IHsuffix by assumption. apply orb_true_r.
Qed.

Lemma star_loop_continues : forall step greedy,
  continues step ->
  forall n, continues (fun s g k => star_loop step greedy k n s g).
Proof.
  intros step greedy Hstep n. unfold continues.
  induction n as [| n IHn]; intros s g k o H; simpl in H.
  - exists s, g. split; [constructor | assumption].
  - assert (Hagain : forall o',
      step s g (fun s' g' =>
                  if (String.length s' <? String.length s)%nat
                  then star_loop step greedy k n s' g' else None) = Some o' ->
      exists s' g', suffix s' s /\ k s' g' = Some o').
    { intros o' E. apply Hstep in E. destruct E as (s1 & g1 & Hs1 & Hk).
      destruct (String.length s1 <? String.length s)%nat; [| discriminate].
      apply IHn in Hk. destruct Hk as (s2 & g2 & Hs2 & Hk).
      exists s2, g2. split; [eapply suffix_trans; eauto | assumption]. }
    destruct greedy.
    + destruct (step s g _) eqn:E.
      * inversion H; subst. apply Hagain. reflexivity.
      * exists s, g. split; [constructor | assumption].
    + destruct (k s g) eqn:Ek.
      * inversion H; subst. exists s, g. split; [constructor | assumption].
      * apply Hagain. assumption.
Qed.

Lemma rmatch_continues : forall fl r, continues (rmatch fl r).
Proof.
  intros fl r. unfold continues.
  induction r; intros s g k o H; simpl in H.
  - exists s, g. split; [constructor | assumption].
  - destruct s as [| c' s']; [discriminate |].
    destruct (char_eq fl c' c); [| discriminate].
    exists s', g. split; [repeat constructor | assumption].
  - destruct s as [| c' s']; [discriminate |].
    destruct (dotall fl || negb (Ascii.eqb c' "010"))%bool; [| discriminate].
    exists s', g. split; [repeat constructor | assumption].
  - destruct s as [| c' s']; [discriminate |].
    destruct (existsb (item_matches c') items); [| discriminate].
    exists s', g. split; [repeat constructor | assumption].
  - destruct s as [| c' s'].
    + exists EmptyString, g. split; [constructor | assumption].
    + destruct s'; [| discriminate].
      destruct (Ascii.eqb c' "010"); [| discriminate].
      eexists _, g. split; [constructor | assumption].
  - apply IHr1 in H. destruct H as (s1 & g1 & Hs1 & H).
    apply IHr2 in H. destruct H as (s2 & g2 & Hs2 & H).
    exists s2, g2. split; [eapply suffix_trans; eauto | assumption].
  - destruct (rmatch fl r1 s g k) eqn:E1.
    + inversion H; subst. eapply IHr1; eauto.
    + eapply IHr2; eauto.
  - eapply (star_loop_continues (rmatch fl r) greedy); [| exact H].
    exact IHr.
  - apply IHr in H. destruct H as (s1 & g1 & Hs1 & H).
    eexists s1, _. split; [assumption | exact H].
  - destruct (rmatch fl r s g (fun s' g' => Some (s', g'))) as [[rest g'] |] eqn:E;
      [| discriminate].
    exists s, g'. split; [constructor | assumption].
Qed.

Lemma star_loop_keeps_group : forall step greedy,
  keeps_group step ->
  forall n, keeps_group (fun s g k => star_loop step greedy k n s g).
Proof.
  intros step greedy Hstep n. unfold keeps_group.
  induction n as [| n IHn]; intros s g k o Hg H; simpl in H.
  - exists s, g. auto.
  - assert (Hagain : forall o',
      step s g (fun s' g' =>
                  if (String.length s' <? String.length s)%nat
                  then star_loop step greedy k n s' g' else None) = Some o' ->
      exists s' g', is_some g' = true /\ k s' g' = Some o').
    { intros o' E. apply Hstep in E; [| assumption].
      destruct E as (s1 & g1 & Hg1 & Hk).
      destruct (String.length s1 <? String.length s)%nat; [| discriminate].
      eapply IHn; eauto. }
    destruct greedy.
    + destruct (step s g _) eqn:E.
      * inversion H; subst. apply Hagain. reflexivity.
      * exists s, g. auto.
    + destruct (k s g) eqn:Ek.
      * inversion H; subst. exists s, g. auto.
      * apply Hagain. assumption.
Qed.

Lemma rmatch_keeps_group : forall fl r, keeps_group (rmatch fl r).
Proof.
  intros fl r. unfold keeps_group.
  induction r; intros s g k o Hg H; simpl in H.
  - exists s, g. auto.
  - destruct s as [| c' s']; [discriminate |].
    destruct (char_eq fl c' c); [| discriminate]. exists s', g. auto.
  - destruct s as [| c' s']; [discriminate |].
    destruct (dotall fl || negb (Ascii.eqb c' "010"))%bool; [| discriminate].
    exists s', g. auto.
  - destruct s as [| c' s']; [discriminate |].
    destruct (existsb (item_matches c') items); [| discriminate].
    exists s', g. auto.
  - destruct s as [| c' s'].
    + exists EmptyString, g. auto.
    + destruct s'; [| discriminate].
      destruct (Ascii.eqb c' "010"); [| discriminate].
      eexists _, g. eauto.
  - apply IHr1 in H; [| assumption]. destruct H as (s1 & g1 & Hg1 & H).
    eapply IHr2; eauto.
  - destruct (rmatch fl r1 s g k) eqn:E1.
    + inversion H; subst. eapply IHr1; eauto.
    + eapply IHr2; eauto.
  - eapply (star_loop_keeps_group (rmatch fl r) greedy); [| exact Hg | exact H].
    exact IHr.
  - apply rmatch_continues in H. destruct H as (s1 & g1 & _ & H).
    eexists s1, _. split; [| exact H]. reflexivity.
  - destruct (rmatch fl r s g (fun s' g' => Some (s', g'))) as [[rest g'] |] eqn:E;
      [| discriminate].
    apply IHr in E; [| assumption]. destruct E as (s1 & g1 & Hg1 & E).
    inversion E; subst. exists s, g'. auto.
Qed.

(** A pattern with [sets_group] hands group 1 to its continuation. *)
Lemma rmatch_sets_group : forall fl r s g k o,
  sets_group r = true ->
  rmatch fl r s g k = Some o ->
  exists s' g', is_some g' = true /\ k s' g' = Some o.
Proof.
  intros fl r. induction r; intros s g k o Hr H; simpl in Hr;
    try discriminate.
  - simpl in H. apply orb_true_iff in Hr. destruct Hr as [Hr | Hr].
    + apply IHr1 in H; [| assumption]. destruct H as (s1 & g1 & Hg1 & H).
      eapply rmatch_keeps_group; eauto.
    + apply rmatch_continues in H. destruct H as (s1 & g1 & _ & H).
      eapply IHr2; eauto.
  - simpl in H. apply andb_true_iff in Hr. destruct Hr as [Hr1 Hr2].
    destruct (rmatch fl r1 s g k) eqn:E1.
    + inversion H; subst. eapply IHr1; eauto.
    + eapply IHr2; eauto.
  - simpl in H. apply rmatch_continues in H. destruct H as (s1 & g1 & _ & H).
    eexists s1, _. split; [| exact H]. reflexivity.
Qed.

Lemma search_from_group1 : forall fl r s m,
  sets_group r = true ->
  search_from fl r s = Some m ->
  is_some (group1 m) = true.
Proof.
  intros fl r s. induction s as [| c s IHs]; intros m Hr H; simpl in H.
  - destruct (rmatch fl r "" None _) as [[rest g] |] eqn:E; [| discriminate].
    apply rmatch_sets_group in E; [| assumption].
    destruct E as (s1 & g1 & Hg1 & E). inversion E; subst.
    inversion H; subst. assumption.
  - destruct (rmatch fl r (String c s) None _) as [[rest g] |] eqn:E.
    + apply rmatch_sets_group in E; [| assumption].
      destruct E as (s1 & g1 & Hg1 & E). inversion E; subst.
      inversion H; subst. assumption.
    + auto.
Qed.

(** A pattern that reads [c] matches only where [c] occurs. *)
Lemma rmatch_reads_char : forall c fl r,
  caseless c ->
  forall s g k o,
  reads_char c r = true ->
  rmatch fl r s g k = Some o ->
  contains_char c s = true.
Proof.
  intros c fl r Hc. induction r; intros s g k o Hr H; simpl in Hr;
    try discriminate.
  - simpl in H. destruct s as [| c' s']; [discriminate |].
    destruct (char_eq fl c' c0) eqn:E; [| discriminate].
    apply Ascii.eqb_eq in Hr. subst c0. apply Hc in E. subst c'.
    simpl. rewrite Ascii.eqb_refl. reflexivity.
  - simpl in H. apply orb_true_iff in Hr. destruct Hr as [Hr | Hr].
    + eapply IHr1; eauto.
    + apply rmatch_continues in H. destruct H as (s1 & g1 & Hs1 & H).
      eapply suffix_contains; eauto.
  - simpl in H. apply andb_true_iff in Hr. destruct Hr as [Hr1 Hr2].
    destruct (rmatch fl r1 s g k) eqn:E1.
    + eapply IHr1; eauto.
    + eapply IHr2; eauto.
  - simpl in H. eapply IHr; eauto.
Qed.

Lemma search_from_reads_char : forall c fl r,
  caseless c ->
  reads_char c r = true ->
  forall s,
  contains_char c s = false ->
  search_from fl r s = None.
Proof.
  intros c fl r Hc Hr s. induction s as [| x s IHs]; intro Hs; simpl.
  - destruct (rmatch fl r "" None _) as [[rest g] |] eqn:E; [| reflexivity].
    eapply rmatch_reads_char in E; eauto. discriminate.
  - destruct (rmatch fl r (String x s) None _) as [[rest g] |] eqn:E.
    + eapply rmatch_reads_char in E; eauto. congruence.
    + apply IHs. simpl in Hs. apply orb_false_iff in Hs. tauto.
Qed.

Lemma colon_caseless : caseless ":".
Proof.
  intros fl x H. unfold char_eq in H.
  destruct x as [[] [] [] [] [] [] [] []]; destruct (ignorecase fl);
    vm_compute in H; congruence.
Qed.

Lemma brace_caseless : caseless "{".
Proof.
  intros fl x H. unfold char_eq in H.
  destruct x as [[] [] [] [] [] [] [] []]; destruct (ignorecase fl);
    vm_compute in H; congruence.
Qed.

End ReFacts.

(* ================================================================= *)
(** * Properties of the JSON decoder *)

Module JsonFacts.
Import Json.

Local Open Scope nat_scope.

Ltac len_norm :=
  repeat match goal with
         | H : context [String.length (String ?c ?r)] |- _ =>
             change (String.length (String c r)) with (S (String.length r)) in H
         | |- context [String.length (String ?c ?r)] =>
             change (String.length (String c r)) with (S (String.length r))
         end.

Lemma skip_ws_length : forall s, String.length (skip_ws s) <= String.length s.
Proof.
  induction s as [| c s IH]; simpl; [lia |].
  destruct (is_ws c); simpl; lia.
Qed.

Lemma strip_prefix_length : forall p s r,
  strip_prefix p s = Some r ->
  String.length r + String.length p = String.length s.
Proof.
  induction p as [| a p IH]; intros s r H; simpl in H.
  - inversion H; subst. simpl. lia.
  - destruct s as [| b s]; [discriminate |].
    destruct (Ascii.eqb a b); [| discriminate].
    apply IH in H. simpl. lia.
Qed.

Lemma constant_length : forall s v r,
  constant s = Some (v, r) -> String.length r < String.length s.
Proof.
  intros s v r H. unfold constant in H.
  destruct (strip_prefix "null" s) eqn:E1.
  { inversion H; subst. apply strip_prefix_length in E1. simpl in E1. lia. }
  destruct (strip_prefix "true" s) eqn:E2.
  { inversion H; subst. apply strip_prefix_length in E2. simpl in E2. lia. }
  destruct (strip_prefix "false" s) eqn:E3; [| discriminate].
  inversion H; subst. apply strip_prefix_length in E3. simpl in E3. lia.
Qed.

Lemma special_float_length : forall s v r,
  special_float s = Some (v, r) -> String.length r < String.length s.
Proof.
  intros s v r H. unfold special_float in H.
  destruct (strip_prefix "NaN" s) eqn:E1.
  { inversion H; subst. apply strip_prefix_length in E1. simpl in E1. lia. }
  destruct (strip_prefix "Infinity" s) eqn:E2.
  { inversion H; subst. apply strip_prefix_length in E2. simpl in E2. lia. }
  destruct (strip_prefix "-Infinity" s) eqn:E3; [| discriminate].
  inversion H; subst. apply strip_prefix_length in E3. simpl in E3. lia.
Qed.

Lemma span_digits_length : forall s acc k v k' r,
  span_digits s acc k = (v, k', r) -> String.length r <= String.length s.
Proof.
  induction s as [| c s IH]; intros acc k v k' r H; simpl in H.
  - inversion H; subst. simpl. lia.
  - destruct (is_digit c).
    + apply IH in H. simpl. lia.
    + inversion H; subst. simpl. lia.
Qed.

Lemma strip_char_length : forall c s r,
  strip_char c s = Some r -> String.length s = S (String.length r).
Proof.
  intros c s r H. destruct s as [| c' s]; simpl in H; [discriminate |].
  destruct (Ascii.eqb c' c); inversion H; subst. reflexivity.
Qed.

Lemma strip_sign_length : forall s neg r,
  strip_sign s = (neg, r) -> String.length r <= String.length s.
Proof.
  intros s neg r H. unfold strip_sign in H.
  destruct (strip_char "-" s) eqn:E1.
  { inversion H; subst. apply strip_char_length in E1. lia. }
  destruct (strip_char "+" s) eqn:E2.
  { inversion H; subst. apply strip_char_length in E2. lia. }
  inversion H; subst. lia.
Qed.

Lemma scan_exponent_length : forall s e r,
  scan_exponent s = Some (e, r) -> String.length r <= String.length s.
Proof.
  intros s e r H. unfold scan_exponent in H.
  destruct s as [| c s]; [discriminate |].
  destruct (Ascii.eqb c "e" || Ascii.eqb c "E")%bool; [| discriminate].
  destruct (strip_sign s) as [neg s1] eqn:E1.
  destruct (span_digits s1 0%N 0) as [[v k] s2] eqn:E2.
  destruct k; [discriminate |]. inversion H; subst.
  apply strip_sign_length in E1. apply span_digits_length in E2. simpl. lia.
Qed.

Lemma scan_number_length : forall s v r,
  scan_number s = Some (v, r) -> String.length r < String.length s.
Proof.
  intros s v r H. unfold scan_number in H.
  destruct (match strip_char "-" s with
            | Some s' => (true, s')
            | None => (false, s)
            end) as [neg s0] eqn:E0.
  assert (H0 : String.length s0 <= String.length s).
  { destruct (strip_char "-" s) eqn:E; inversion E0; subst; [| lia].
    apply strip_char_length in E. lia. }
  destruct s0 as [| c s1]; [discriminate |].
  destruct (is_digit c) eqn:Ed; [| discriminate].
  destruct (if Ascii.eqb c "0" then (0%N, 1, s1)
            else span_digits (String c s1) 0%N 0) as [[ip k] s2] eqn:E1.
  assert (H2 : String.length s2 <= String.length s1).
  { destruct (Ascii.eqb c "0"); [inversion E1; subst; lia |].
    simpl in E1. rewrite Ed in E1. apply span_digits_length in E1. lia. }
  destruct (match strip_char "." s2 with
            | Some s2' =>
                let '(m, nf, r) := span_digits s2' ip 0 in
                match nf with
                | 0 => (ip, 0, s2)
                | S _ => (m, nf, r)
                end
            | None => (ip, 0, s2)
            end) as [[m nf] s3] eqn:E2.
  assert (H3 : String.length s3 <= String.length s2).
  { destruct (strip_char "." s2) as [s2' |] eqn:E; [| inversion E2; subst; lia].
    destruct (span_digits s2' ip 0) as [[m' nf'] r'] eqn:E'.
    apply strip_char_length in E. apply span_digits_length in E'.
    destruct nf'; inversion E2; subst; lia. }
  simpl in H0.
  destruct (scan_exponent s3) as [[e s4] |] eqn:E3.
  - apply scan_exponent_length in E3. inversion H; subst. lia.
  - destruct nf; inversion H; subst; lia.
Qed.

Lemma hex4_length : forall s n r,
  hex4 s = Some (n, r) -> String.length s = 4 + String.length r.
Proof.
  intros s n r H. unfold hex4 in H.
  destruct s as [| a [| b [| c [| d rest]]]]; try discriminate.
  destruct (hex_val a), (hex_val b), (hex_val c), (hex_val d);
    try discriminate.
  inversion H; subst. reflexivity.
Qed.

Lemma unicode_escape_length : forall hi rest cp rest',
  unicode_escape hi rest = (cp, rest') ->
  String.length rest' <= String.length rest.
Proof.
  intros hi rest cp rest' H. unfold unicode_escape in H.
  destruct ((55296 <=? hi) && (hi <=? 56319))%N; [| inversion H; subst; lia].
  destruct (strip_char "\" rest) as [r1 |] eqn:E1; [| inversion H; subst; lia].
  destruct (strip_char "u" r1) as [r2 |] eqn:E2; [| inversion H; subst; lia].
  destruct (hex4 r2) as [[lo r3] |] eqn:E3; [| inversion H; subst; lia].
  apply strip_char_length in E1, E2. apply hex4_length in E3.
  destruct ((56320 <=? lo) && (lo <=? 57343))%N; inversion H; subst; lia.
Qed.

(** A string that is scanned with some fuel is scanned with any fuel that
    covers the characters read. *)
Lemma scan_string_fuel : forall n s str out,
  scan_string n s = Some (str, out) ->
  String.length out < String.length s
  /\ forall m, String.length s - String.length out <= m ->
               scan_string m s = Some (str, out).
Proof.
  induction n as [| n IH]; intros s str out H; [discriminate |].
  simpl in H. destruct s as [| c rest]; [discriminate |].
  destruct (Ascii.eqb c "\") eqn:Ebs.
  - destruct rest as [| e rest']; [discriminate |].
    destruct (Ascii.eqb e "u") eqn:Eu.
    + destruct (hex4 rest') as [[hi rest''] |] eqn:Eh; [| discriminate].
      destruct (unicode_escape hi rest'') as [cp rest3] eqn:Ee.
      destruct (scan_string n rest3) as [[str' out'] |] eqn:Es; [| discriminate].
      inversion H; subst. apply IH in Es. destruct Es as [Hlen Hm].
      pose proof (hex4_length _ _ _ Eh) as Hh.
      pose proof (unicode_escape_length _ _ _ _ Ee) as Hu.
      split; [len_norm; lia |].
      intros m Hle. destruct m as [| m]; [len_norm; lia |].
      simpl. rewrite Ebs, Eu, Eh, Ee. rewrite Hm; [reflexivity |].
      len_norm. lia.
    + destruct (simple_escape e) as [c' |] eqn:Ese; [| discriminate].
      destruct (scan_string n rest') as [[str' out'] |] eqn:Es; [| discriminate].
      inversion H; subst. apply IH in Es. destruct Es as [Hlen Hm].
      split; [len_norm; lia |].
      intros m Hle. destruct m as [| m]; [len_norm; lia |].
      simpl. rewrite Ebs, Eu, Ese. rewrite Hm; [reflexivity |].
      len_norm. lia.
  - destruct (Ascii.eqb c dquote) eqn:Eq.
    + inversion H; subst. split; [len_norm; lia |].
      intros m Hle. destruct m as [| m]; [len_norm; lia |].
      simpl. rewrite Ebs, Eq. reflexivity.
    + destruct (N_of_ascii c <? 32)%N eqn:Ec; [discriminate |].
      destruct (scan_string n rest) as [[str' out'] |] eqn:Es; [| discriminate].
      inversion H; subst. apply IH in Es. destruct Es as [Hlen Hm].
      split; [len_norm; lia |].
      intros m Hle. destruct m as [| m]; [len_norm; lia |].
      simpl. rewrite Ebs, Eq, Ec. rewrite Hm; [reflexivity |].
      len_norm. lia.
Qed.

Lemma scan_string_enough : forall n s r,
  scan_string n s = Some r -> scan_string (String.length s) s = Some r.
Proof.
  intros n s [str out] H. apply scan_string_fuel in H.
  destruct H as [_ H]. apply H. lia.
Qed.

Lemma scan_value_step : forall n,
  members_fuel n -> elements_fuel n -> value_fuel (S n).
Proof.
  intros n Hmem Hel s v out H. simpl in H.
  destruct s as [| c rest]; [discriminate |].
  destruct (Ascii.eqb c dquote) eqn:E1.
  { destruct (scan_string (String.length rest) rest) as [[str o] |] eqn:Es;
      [| discriminate].
    inversion H; subst. pose proof (scan_string_fuel _ _ _ _ Es) as [Hl _].
    split; [len_norm; lia |].
    intros m Hle. destruct m as [| m]; [len_norm; lia |].
    simpl. rewrite E1, Es. reflexivity. }
  destruct (Ascii.eqb c "{") eqn:E2.
  { pose proof (skip_ws_length rest) as Hws.
    destruct (skip_ws rest) as [| c' rest'] eqn:Ews; [discriminate |].
    len_norm.
    destruct (Ascii.eqb c' "}") eqn:E3.
    { inversion H; subst. split; [len_norm; lia |].
      intros m Hle. destruct m as [| m]; [len_norm; lia |].
      simpl. rewrite E1, E2, Ews, E3. reflexivity. }
    destruct (Ascii.eqb c' dquote) eqn:E4; [| discriminate].
    apply Hmem in H. destruct H as [Hl Hm].
    split; [len_norm; lia |].
    intros m Hle. destruct m as [| m]; [len_norm; lia |].
    simpl. rewrite E1, E2, Ews, E3, E4. apply Hm. len_norm. lia. }
  destruct (Ascii.eqb c "[") eqn:E3.
  { pose proof (skip_ws_length rest) as Hws.
    destruct (skip_ws rest) as [| c' rest'] eqn:Ews; [discriminate |].
    len_norm.
    destruct (Ascii.eqb c' "]") eqn:E4.
    { inversion H; subst. split; [len_norm; lia |].
      intros m Hle. destruct m as [| m]; [len_norm; lia |].
      simpl. rewrite E1, E2, E3, Ews, E4. reflexivity. }
    apply Hel in H. destruct H as [Hl Hm]. len_norm.
    split; [len_norm; lia |].
    intros m Hle. destruct m as [| m]; [len_norm; lia |].
    simpl. rewrite E1, E2, E3, Ews, E4. apply Hm. len_norm. lia. }
  assert (Hl : String.length out < String.length (String c rest)).
  { destruct (constant (String c rest)) as [[v' o'] |] eqn:Ec.
    - inversion H; subst. eapply constant_length; eauto.
    - destruct (scan_number (String c rest)) as [[v' o'] |] eqn:En.
      + inversion H; subst. eapply scan_number_length; eauto.
      + eapply special_float_length; eauto. }
  split; [assumption |].
  intros m Hle. destruct m as [| m]; [len_norm; lia |].
  simpl. rewrite E1, E2, E3. assumption.
Qed.
Lemma scan_members_step : forall n,
  value_fuel n -> members_fuel n -> members_fuel (S n).
Proof.
  intros n Hval Hmem s acc v out H. simpl in H.
  destruct (scan_string (String.length s) s) as [[key s1] |] eqn:Ek;
    [| discriminate].
  pose proof (scan_string_fuel _ _ _ _ Ek) as [Hk _].
  pose proof (skip_ws_length s1) as Hw1.
  destruct (skip_ws s1) as [| c s2] eqn:Ew1; [discriminate |].
  destruct (Ascii.eqb c ":") eqn:Ec; [| discriminate].
  destruct (scan_value n (skip_ws s2)) as [[x s3] |] eqn:Ev; [| discriminate].
  pose proof (Hval _ _ _ Ev) as [Hv Hvm].
  pose proof (skip_ws_length s2) as Hw2.
  pose proof (skip_ws_length s3) as Hw3.
  destruct (skip_ws s3) as [| c' s4] eqn:Ew3; [discriminate |].
  len_norm.
  destruct (Ascii.eqb c' "}") eqn:E1.
  { inversion H; subst. split; [lia |].
    intros m Hle. destruct m as [| m]; [lia |].
    simpl. rewrite Ek, Ew1, Ec. rewrite Hvm by lia.
    rewrite Ew3, E1. reflexivity. }
  destruct (Ascii.eqb c' ",") eqn:E2; [| discriminate].
  pose proof (skip_ws_length s4) as Hw4.
  destruct (skip_ws s4) as [| c'' s5] eqn:Ew4; [discriminate |].
  len_norm.
  destruct (Ascii.eqb c'' dquote) eqn:E3; [| discriminate].
  apply Hmem in H. destruct H as [Hl Hm].
  split; [lia |].
  intros m Hle. destruct m as [| m]; [lia |].
  simpl. rewrite Ek, Ew1, Ec. rewrite Hvm by lia.
  rewrite Ew3, E1, E2, Ew4, E3. apply Hm. lia.
Qed.

Lemma scan_elements_step : forall n,
  value_fuel n -> elements_fuel n -> elements_fuel (S n).
Proof.
  intros n Hval Hel s acc v out H. simpl in H.
  destruct (scan_value n s) as [[x s1] |] eqn:Ev; [| discriminate].
  pose proof (Hval _ _ _ Ev) as [Hv Hvm].
  pose proof (skip_ws_length s1) as Hw1.
  destruct (skip_ws s1) as [| c s2] eqn:Ew1; [discriminate |].
  len_norm.
  destruct (Ascii.eqb c "]") eqn:E1.
  { inversion H; subst. split; [lia |].
    intros m Hle. destruct m as [| m]; [lia |].
    simpl. rewrite Hvm by lia. rewrite Ew1, E1. reflexivity. }
  destruct (Ascii.eqb c ",") eqn:E2; [| discriminate].
  pose proof (skip_ws_length s2) as Hw2.
  apply Hel in H. destruct H as [Hl Hm].
  split; [lia |].
  intros m Hle. destruct m as [| m]; [lia |].
  simpl. rewrite Hvm by lia. rewrite Ew1, E1, E2. apply Hm. lia.
Qed.

Lemma scanners_fuel : forall n,
  value_fuel n /\ members_fuel n /\ elements_fuel n.
Proof.
  induction n as [| n (Hv & Hm & He)].
  - repeat split; repeat intro; discriminate.
  - split; [| split].
    + apply scan_value_step; assumption.
    + apply scan_members_step; assumption.
    + apply scan_elements_step; assumption.
Qed.

(** The fuel of [loads] is enough: a text that some amount of fuel scans is
    scanned by [loads] with the same result. *)
Theorem loads_fuel_is_enough : forall n s v rest,
  scan_value n (skip_ws s) = Some (v, rest) ->
  scan_value (2 * S (String.length s)) (skip_ws s) = Some (v, rest).
Proof.
  intros n s v rest H.
  destruct (scanners_fuel n) as (Hv & _ & _).
  apply Hv in H. destruct H as [_ H]. apply H.
  pose proof (skip_ws_length s). lia.
Qed.

End JsonFacts.

(* ================================================================= *)
(** * Properties of [extract_trading_levels] *)

Lemma loads_raises_decode_error : forall s e,
  Json.loads s = Raise e -> e = JSONDecodeError.
Proof.
  intros s e H. unfold Json.loads in H.
  destruct (Json.scan_value _ _) as [[v rest] |]; [| congruence].
  destruct (Json.skip_ws rest); congruence.
Qed.

Lemma py_float_raises_value_error : forall s e,
  py_float s = Raise e -> e = ValueError.
Proof.
  intros s e H. unfold py_float in H.
  destruct (strip_sign s) as [neg s0].
  destruct (span_digits s0 0%N 0%nat) as [[ip ni] s1].
  destruct (match strip_char "." s1 with
            | Some s1' => span_digits s1' ip 0%nat
            | None => (ip, 0%nat, s1)
            end) as [[m nf] s2].
  destruct (ni + nf)%nat; [congruence |].
  destruct (parse_exponent s2) as [[e' [| c r]] |]; congruence.
Qed.

(** The [try] block never lets an exception out. *)
Lemma json_phase_returns : forall text log,
  exists log' r, json_phase text log = (log', Ok r).
Proof.
  intros text log. unfold json_phase, try_except.
  destruct (Re.search "\{.*\}" text Re.DOTALL) as [m |].
  2: { unfold ret. eauto. }
  unfold bindM, lift, print, ret.
  destruct (Json.loads (Re.group0 m)) as [data | e] eqn:Eloads.
  2: { apply loads_raises_decode_error in Eloads. subst e. simpl. eauto. }
  destruct data; simpl; eauto.
  destruct (Json.dict_get d "signal") as [v |]; simpl; eauto.
  destruct v; simpl; eauto.
Qed.

Lemma on_match_returns : forall field m l log,
  Re.is_some (Re.group1 m) = true ->
  exists log' l', on_match field m l log = (log', Ok l').
Proof.
  intros field m l log Hg. unfold on_match, group1_text.
  destruct (Re.group1 m) as [s |]; [| discriminate].
  unfold bindM, try_except, lift, print, ret. simpl.
  destruct (field =? "signal")%string; [eauto |].
  destruct (py_float (replace_char "," "" s)) as [f | e] eqn:E; [eauto |].
  apply py_float_raises_value_error in E. subst e. simpl. eauto.
Qed.

Lemma search_sets_group1 : forall pattern text fl m,
  captures_value pattern = true ->
  Re.search pattern text fl = Some m ->
  Re.is_some (Re.group1 m) = true.
Proof.
  intros pattern text fl m Hp H. unfold captures_value in Hp.
  unfold Re.search in H. destruct (Re.compile pattern) as [r |]; [| discriminate].
  eapply ReFacts.search_from_group1; eauto.
Qed.

Lemma try_patterns_returns : forall field pattern_list text l log,
  forallb captures_value pattern_list = true ->
  exists log' l', try_patterns field pattern_list text l log = (log', Ok l').
Proof.
  intros field pattern_list text l log.
  induction pattern_list as [| p ps IH]; intro H; simpl.
  - unfold ret. eauto.
  - simpl in H. apply andb_true_iff in H. destruct H as [Hp Hps].
    destruct (Re.search p text Re.IGNORECASE) as [m |] eqn:E.
    + apply on_match_returns. eapply search_sets_group1; eauto.
    + auto.
Qed.

Lemma regex_phase_returns : forall items text l log,
  forallb (fun item => forallb captures_value (snd item)) items = true ->
  exists log' l', regex_phase items text l log = (log', Ok l').
Proof.
  intros items text. induction items as [| [field ps] items IH];
    intros l log H; simpl.
  - unfold ret. eauto.
  - simpl in H. apply andb_true_iff in H. destruct H as [Hp Hitems].
    unfold bindM.
    destruct (try_patterns_returns field ps text l log Hp) as (log1 & l1 & E).
    rewrite E. apply IH. assumption.
Qed.

(** The two patterns outside the table compile as well. *)
Lemma other_patterns_compile :
  Re.is_some (Re.compile "\{.*\}") = true
  /\ Re.is_some (Re.compile "### IMMEDIATE TRADING SIGNAL.*?(?=###|$)") = true.
Proof. split; vm_compute; reflexivity. Qed.

Lemma patterns_capture_value :
  forallb (fun item => forallb captures_value (snd item)) patterns = true.
Proof. vm_compute. reflexivity. Qed.

Lemma print_signal_section_returns : forall text log,
  exists log', print_signal_section text log = (log', Ok tt).
Proof.
  intros text log. unfold print_signal_section.
  destruct (Re.search _ text Re.DOTALL_IGNORECASE); unfold print, ret; eauto.
Qed.

Lemma extract_trading_levels_m_returns : forall text log,
  exists log' l, extract_trading_levels_m text log = (log', Ok l).
Proof.
  intros text log. unfold extract_trading_levels_m, bindM.
  destruct (json_phase_returns text log) as (log1 & r & E). rewrite E.
  destruct r as [l |].
  - unfold ret. eauto.
  - unfold print at 1.
    destruct (print_signal_section_returns text (log1 ++ [FallbackToRegex])%list)
      as (log2 & E2).
    rewrite E2. apply regex_phase_returns. apply patterns_capture_value.
Qed.

Lemma try_patterns_no_match : forall field pattern_list text l log,
  forallb (fun p => negb (pattern_matches text p)) pattern_list = true ->
  try_patterns field pattern_list text l log = (log, Ok l).
Proof.
  intros field pattern_list text l log.
  induction pattern_list as [| p ps IH]; intro H; simpl.
  - reflexivity.
  - simpl in H. apply andb_true_iff in H. destruct H as [Hp Hps].
    unfold pattern_matches in Hp.
    destruct (Re.search p text Re.IGNORECASE); [discriminate | auto].
Qed.

Lemma regex_phase_no_match : forall items text l log,
  forallb (fun item => forallb (fun p => negb (pattern_matches text p))
                         (snd item)) items = true ->
  regex_phase items text l log = (log, Ok l).
Proof.
  intros items text l log. induction items as [| [field ps] items IH];
    intro H; simpl.
  - reflexivity.
  - simpl in H. apply andb_true_iff in H. destruct H as [Hp Hitems].
    unfold bindM. rewrite try_patterns_no_match by assumption. auto.
Qed.

Lemma unparseable_no_levels : forall text,
  unparseable text = true -> extract_trading_levels text = Ok no_levels.
Proof.
  intros text H. unfold unparseable in H. apply andb_true_iff in H.
  destruct H as [Hj Hp]. unfold json_phase_fell_through in Hj.
  unfold extract_trading_levels, extract_trading_levels_m, bindM.
  destruct (json_phase text []) as [log1 [[l |] | e]]; simpl in Hj;
    try discriminate.
  unfold print at 1.
  destruct (print_signal_section_returns text (log1 ++ [FallbackToRegex])%list)
    as (log2 & E2).
  rewrite E2. unfold no_pattern_matches in Hp.
  rewrite regex_phase_no_match by assumption. reflexivity.
Qed.

Lemma patterns_read_colon :
  forallb (fun item => forallb (pattern_reads ":") (snd item)) patterns = true.
Proof. vm_compute. reflexivity. Qed.

Lemma search_needs_char : forall c pattern text fl,
  Re.caseless c ->
  pattern_reads c pattern = true ->
  contains_char c text = false ->
  Re.search pattern text fl = None.
Proof.
  intros c pattern text fl Hc Hp Ht. unfold pattern_reads in Hp.
  unfold Re.search. destruct (Re.compile pattern) as [r |]; [| reflexivity].
  eapply ReFacts.search_from_reads_char; eauto.
Qed.

Lemma no_colon_no_pattern : forall text,
  contains_char ":" text = false -> no_pattern_matches text = true.
Proof.
  intros text Ht. unfold no_pattern_matches.
  pose proof patterns_read_colon as H.
  induction patterns as [| [field ps] items IH]; [reflexivity |].
  simpl in *. apply andb_true_iff in H. destruct H as [Hps Hitems].
  rewrite IH by assumption. rewrite andb_true_r. clear IH Hitems.
  induction ps as [| p ps IHp]; [reflexivity |].
  simpl in *. apply andb_true_iff in Hps. destruct Hps as [Hp Hps].
  rewrite IHp by assumption. rewrite andb_true_r.
  unfold pattern_matches.
  rewrite (search_needs_char ":" p text Re.IGNORECASE ReFacts.colon_caseless Hp Ht).
  reflexivity.
Qed.

Lemma no_brace_fell_through : forall text,
  contains_char "{" text = false -> json_phase_fell_through text = true.
Proof.
  intros text Ht. unfold json_phase_fell_through, json_phase, try_except.
  rewrite (search_needs_char "{" "\{.*\}" text Re.DOTALL ReFacts.brace_caseless);
    [reflexivity | vm_compute; reflexivity | assumption].
Qed.

(** Text without a colon and without an opening brace is unparseable. *)
Lemma no_colon_no_brace_unparseable : forall text,
  contains_char ":" text = false ->
  contains_char "{" text = false ->
  unparseable text = true.
Proof.
  intros text Hc Hb. unfold unparseable.
  rewrite no_brace_fell_through by assumption.
  rewrite no_colon_no_pattern by assumption. reflexivity.
Qed.



(** C3.  On the answer [{"signal":"buy","entry":100,"stop_loss":95,"tp1":105}]
    the result is signal ["BUY"], entry 100, stop loss 95, tp1 105 and
    [None] for tp2, tp3 and probability; the call returns from the JSON
    phase, so that nothing of the regex phase is printed or run. *)
Theorem json_answer_levels :
  extract_trading_levels json_answer
  = Ok {| entry := PInt 100; tp1 := PInt 105; tp2 := PNone; tp3 := PNone;
          sl := PInt 95; signal := PStr "BUY"; probability := PNone |}
  /\ json_phase_fell_through json_answer = false
  /\ extract_trading_levels_log json_answer
     = [JsonParsed (PDict [("signal", PStr "buy"); ("entry", PInt 100);
                           ("stop_loss", PInt 95); ("tp1", PInt 105)])]
  /\ ~ In FallbackToRegex (extract_trading_levels_log json_answer).
Proof.
  split; [| split; [| split]].
  - vm_compute. reflexivity.
  - vm_compute. reflexivity.
  - vm_compute. reflexivity.
  - vm_compute. intros [H | []]. discriminate.
Qed.

(** C4.  On the answer with the labels SIGNAL, ENTRY and STOP LOSS in bold,
    the entry two lines below its label and the stop loss written
    [1,200.00], no JSON object is found and the regex phase returns signal
    ["SELL"], entry 1234.5 and stop loss 1200.0: the comma of the matched
    text is removed before the conversion to float. *)
Theorem markdown_answer_levels :
  json_phase_fell_through markdown_answer = true
  /\ extract_trading_levels markdown_answer
     = Ok {| entry := PFloat (Prim2SF 1234.5); tp1 := PNone; tp2 := PNone;
             tp3 := PNone; sl := PFloat (Prim2SF 1200.0);
             signal := PStr "SELL"; probability := PNone |}
  /\ extract_trading_levels_log markdown_answer
     = [FallbackToRegex; Found "signal" (Some "SELL");
        Found "entry" (Some "1234.5"); Found "sl" (Some "1,200.00")]
  /\ py_float (replace_char "," "" "1,200.00") = Ok (Prim2SF 1200.0).
Proof.
  repeat split; vm_compute; reflexivity.
Qed.

(* ================================================================= *)
(** * Properties of [format_ai_output] *)

Ltac use_agreement H :=
  let H' := fresh H in
  destruct H as [H | [H H']]; [rewrite H | rewrite H, H'].

Lemma build_signal_text_agree : forall cfg symbol l l',
  levels_agree l l' ->
  build_signal_text cfg symbol l = build_signal_text cfg symbol l'.
Proof.
  intros cfg symbol l l' (He & H1 & H2 & H3 & Hs & Hsig & Hp).
  unfold build_signal_text, add_level_line, add_text_line.
  use_agreement Hsig; use_agreement Hp; use_agreement He; use_agreement Hs;
    use_agreement H1; use_agreement H2; use_agreement H3; reflexivity.
Qed.



(** With every inclusion flag true, zero levels, a zero probability and an
    empty signal leave the header alone, in the mode ["signal"] and at the
    head of the mode ["both"]. *)
Lemma falsy_levels_report :
  format_levels (with_mode "signal" config_py) "" "BTCUSDT" falsy_levels
  = Ok ("📊 #BTCUSDT SIGNALS:" ++ nl)
  /\ format_levels (with_mode "both" config_py) "" "BTCUSDT" falsy_levels
     = Ok ("📊 #BTCUSDT SIGNALS:" ++ nl ++ nl ++ nl
             ++ "🤖 Detailed Analysis:" ++ nl).
Proof. split; vm_compute; reflexivity. Qed.

(** Whatever the flags and the symbol, levels that are all zero, empty or
    absent leave the header alone. *)
Lemma falsy_levels_header_only : forall cfg symbol l,
  levels_agree l no_levels ->
  build_signal_text cfg symbol l = Ok ("📊 #" ++ symbol ++ " SIGNALS:" ++ nl).
Proof.
  intros cfg symbol l H.
  rewrite (build_signal_text_agree cfg symbol l no_levels H). reflexivity.
Qed.

Lemma substring_suffix : forall a b,
  substring (String.length a) (String.length b) (a ++ b) = b.
Proof.
  intros a b. induction a as [| c a IH]; simpl.
  - induction b as [| c b IHb]; simpl; [reflexivity |].
    rewrite IHb. reflexivity.
  - assumption.
Qed.

Lemma length_append : forall a b,
  String.length (a ++ b) = (String.length a + String.length b)%nat.
Proof.
  intros a b. induction a as [| c a IH]; simpl; [reflexivity |].
  rewrite IH. reflexivity.
Qed.

(** The last [length b] characters of a text that ends with [b]. *)
Lemma ends_with : forall a b,
  substring (String.length (a ++ b) - String.length b) (String.length b) (a ++ b)
  = b.
Proof.
  intros a b. rewrite length_append.
  replace (String.length a + String.length b - String.length b)%nat
    with (String.length a) by lia.
  apply substring_suffix.
Qed.

Lemma append_assoc : forall a b c : string, (a ++ b) ++ c = a ++ (b ++ c).
Proof.
  intros a b c. induction a as [| x a IH]; simpl; [reflexivity |].
  rewrite IH. reflexivity.
Qed.

(** C8, as the code has it.  In the mode ["both"] the output is the output
    of the mode ["signal"] followed by two newlines, the fixed header
    [Detailed Analysis:] on a line of its own and the analysis text; when
    the mode ["signal"] raises, so does the mode ["both"]. *)
Theorem both_is_signal_then_analysis : forall cfg analysis_text symbol,
  format_ai_output (with_mode "both" cfg) analysis_text symbol
  = (signal_text <- format_ai_output (with_mode "signal" cfg)
                      analysis_text symbol ;;
     Ok (signal_text ++ nl ++ nl ++ "🤖 Detailed Analysis:" ++ nl
           ++ analysis_text)).
Proof.
  intros cfg text symbol. unfold format_ai_output.
  destruct (extract_trading_levels text) as [l | e]; [| reflexivity].
  reflexivity.
Qed.

(** C8 fails as stated: for the empty analysis and the symbol [X], the
    output of the mode ["both"] is not the output of the mode ["signal"],
    any separator, and the output of the mode ["detailed"]. *)
Lemma both_is_not_signal_then_detailed :
  format_ai_output (with_mode "signal" config_py) "" "X"
  = Ok ("📊 #X SIGNALS:" ++ nl)
  /\ format_ai_output (with_mode "detailed" config_py) "" "X"
     = Ok ("🤖 AI Analysis for #X:" ++ nl)
  /\ forall separator,
       format_ai_output (with_mode "both" config_py) "" "X"
       <> Ok (("📊 #X SIGNALS:" ++ nl) ++ separator
                ++ ("🤖 AI Analysis for #X:" ++ nl)).
Proof.
  split; [vm_compute; reflexivity | split; [vm_compute; reflexivity |]].
  intros separator H.
  assert (E : format_ai_output (with_mode "both" config_py) "" "X"
              = Ok ("📊 #X SIGNALS:" ++ nl ++ nl ++ nl
                      ++ "🤖 Detailed Analysis:" ++ nl))
    by (vm_compute; reflexivity).
  assert (H' : "📊 #X SIGNALS:" ++ nl ++ nl ++ nl ++ "🤖 Detailed Analysis:" ++ nl
               = (("📊 #X SIGNALS:" ++ nl) ++ separator)
                   ++ ("🤖 AI Analysis for #X:" ++ nl)).
  { rewrite append_assoc. congruence. }
  clear H E.
  pose proof (ends_with (("📊 #X SIGNALS:" ++ nl) ++ separator)
                ("🤖 AI Analysis for #X:" ++ nl)) as Hend.
  rewrite <- H' in Hend. vm_compute in Hend. discriminate.
Qed.

(* ================================================================= *)
(** * Properties of [generate_charts] *)

Lemma format_conditional_spec_raises : forall v,
  exists e, format_conditional_spec v = Raise e.
Proof. intro v. destruct v; simpl; eauto. Qed.

Lemma levels_summary_raises : forall l,
  any_level l = true -> exists e, levels_summary l = Raise e.
Proof.
  intros l H. unfold levels_summary. unfold any_level in H. rewrite H.
  destruct (format_conditional_spec_raises (entry l)) as (e & E).
  rewrite E. simpl. eauto.
Qed.

(** Whenever the screenshot fails and some level is present, the call
    raises: the summary of the levels is never produced. *)
Lemma fallback_raises_with_a_level :
  forall cfg env data analysis_text exchange l,
  png_saved env = false ->
  extract_trading_levels analysis_text = Ok l ->
  any_level l = true ->
  exists e, generate_charts cfg env data analysis_text exchange = Raise e.
Proof.
  intros cfg env data text exchange l Hpng Hl Hany. unfold generate_charts.
  destruct (extract_df data exchange) as [[symbol df] | e]; simpl; [| eauto].
  rewrite Hl. simpl.
  destruct (add_hline (entry l)); simpl; [| eauto].
  destruct (add_hline (tp1 l)); simpl; [| eauto].
  destruct (add_hline (tp2 l)); simpl; [| eauto].
  destruct (add_hline (tp3 l)); simpl; [| eauto].
  destruct (add_hline (sl l)); simpl; [| eauto].
  rewrite Hpng. unfold text_summary.
  destruct (html_saved env); simpl; [| eauto].
  destruct (iloc_last (map row_close (tail 20 df))); simpl; [| eauto].
  destruct (iloc_last (map row_open (tail 20 df))); simpl; [| eauto].
  destruct (rsi_summary (tail 20 df)); simpl; [| eauto].
  destruct (ema_summary cfg (tail 20 df)); simpl; [| eauto].
  destruct (levels_summary_raises l Hany) as (e & E). rewrite E. simpl. eauto.
Qed.

(** C9 fails on the code.  The screenshot fails, the frame has a bar and
    the analysis is the JSON answer with entry, stop loss and tp1: the call
    raises [ValueError] out of the [except] branch instead of returning the
    summary; without any level the same call returns it. *)
Theorem generate_charts_raises_in_fallback :
  generate_charts config_py png_fails sample_payload json_answer "bybit"
  = Raise ValueError
  /\ generate_charts config_py png_fails sample_payload "" "bybit"
     = Ok (nl ++ "📊 #BTCUSDT Technical Analysis:" ++ nl
             ++ "💰 Current Price: 100.7500" ++ nl
             ++ "📈 Change: +0.2500 (+0.25%)" ++ nl
             ++ "📊 High: 101.0000" ++ nl
             ++ "📉 Low: 99.2500" ++ nl
             ++ nl
             ++ nl
             ++ "⏰ Timeframe: Last 5 minutes" ++ nl
             ++ "        ").
Proof. split; vm_compute; reflexivity. Qed.

(* ================================================================= *)
(** * Properties of the normalizers *)

(** From [x <- m ;; k = Ok r]: the step [m] returned some [a]. *)
Ltac step_bind H a E :=
  match type of H with
  | bind ?m _ = Ok _ =>
      destruct m as [a |] eqn:E; cbn [bind] in H; [| discriminate]
  end.

Lemma insert_by_hd : forall (A : Type) (key : A -> Z) x y l,
  key y <= key x ->
  HdRel Z.le (key y) (map key l) ->
  HdRel Z.le (key y) (map key (insert_by key x l)).
Proof.
  intros A key x y l Hyx H. destruct l as [| z l]; simpl.
  - constructor. assumption.
  - destruct (key x <=? key z); simpl; constructor.
    + assumption.
    + inversion H; assumption.
Qed.

Lemma insert_by_sorted : forall (A : Type) (key : A -> Z) x l,
  Sorted Z.le (map key l) -> Sorted Z.le (map key (insert_by key x l)).
Proof.
  intros A key x l. induction l as [| y l IH]; intro H; simpl.
  - repeat constructor.
  - destruct (key x <=? key y) eqn:E.
    + simpl. constructor; [assumption |]. constructor. lia.
    + simpl. inversion H; subst. constructor.
      * auto.
      * apply insert_by_hd; [lia | assumption].
Qed.

Lemma sort_values_sorted : forall (A : Type) (key : A -> Z) l,
  Sorted Z.le (map key (sort_values key l)).
Proof.
  intros A key l. unfold sort_values. induction l as [| x l IH]; simpl.
  - constructor.
  - apply insert_by_sorted. assumption.
Qed.

Lemma insert_by_perm : forall (A : Type) (key : A -> Z) x l,
  Permutation (x :: l) (insert_by key x l).
Proof.
  intros A key x l. induction l as [| y l IH]; simpl.
  - reflexivity.
  - destruct (key x <=? key y); [reflexivity |].
    rewrite perm_swap. constructor. assumption.
Qed.

(** Sorting keeps every row, once. *)
Lemma sort_values_perm : forall (A : Type) (key : A -> Z) l,
  Permutation l (sort_values key l).
Proof.
  intros A key l. unfold sort_values. induction l as [| x l IH]; simpl.
  - constructor.
  - rewrite <- insert_by_perm. constructor. assumption.
Qed.

Lemma Sorted_skipn : forall n (l : list Z),
  Sorted Z.le l -> Sorted Z.le (skipn n l).
Proof.
  intro n. induction n as [| n IH]; intros l H; simpl.
  - assumption.
  - destruct l as [| x l]; [constructor |]. inversion H; subst. auto.
Qed.

Lemma Sorted_map_monotone : forall (f : Z -> Z) (l : list Z),
  (forall a b, a <= b -> f a <= f b) ->
  Sorted Z.le l -> Sorted Z.le (map f l).
Proof.
  intros f l Hf H. induction H as [| x l Hs IH Hd]; simpl.
  - constructor.
  - constructor; [assumption |].
    destruct Hd; simpl; constructor. auto.
Qed.

Lemma strftime_seconds_monotone : forall a b,
  a <= b -> strftime_seconds a <= strftime_seconds b.
Proof.
  intros a b H. unfold strftime_seconds. apply Z.div_le_mono; lia.
Qed.

Lemma zip_column_datetimes : forall name col df df',
  zip_column name col df = Ok df' ->
  map row_datetime df' = map row_datetime df.
Proof.
  intros name col. induction col as [| x col IH]; intros df df' H;
    destruct df as [| r df]; simpl in H; try discriminate.
  - inversion H. reflexivity.
  - destruct (zip_column name col df) as [rest |] eqn:E; simpl in H;
      [| discriminate].
    inversion H; subst. simpl. f_equal. eauto.
Qed.

Lemma set_column_datetimes : forall name col df df',
  set_column name col df = Ok df' ->
  map row_datetime df' = map row_datetime df.
Proof.
  intros name col df df' H. destruct col as [c |]; simpl in H.
  - eapply zip_column_datetimes; eauto.
  - inversion H; subst. rewrite map_map. reflexivity.
Qed.

Lemma add_emas_datetimes : forall ta periods df df',
  add_emas ta periods df = Ok df' ->
  map row_datetime df' = map row_datetime df.
Proof.
  intros ta periods. induction periods as [| p ps IH]; intros df df' H;
    simpl in H.
  - inversion H. reflexivity.
  - destruct (set_column _ _ df) as [df1 |] eqn:E; simpl in H; [| discriminate].
    apply IH in H. apply set_column_datetimes in E. congruence.
Qed.

(** The indicator engine adds columns; it neither moves nor drops a row. *)
Lemma add_technical_indicators_datetimes : forall ta cfg df df',
  add_technical_indicators ta cfg df = Ok df' ->
  map row_datetime df' = map row_datetime df.
Proof.
  intros ta cfg df df' H. unfold add_technical_indicators in H.
  step_bind H d1 E1. step_bind H d2 E2. step_bind H d3 E3.
  step_bind H d4 E4. step_bind H d5 E5. step_bind H d6 E6.
  inversion H; subst.
  apply add_emas_datetimes in E1.
  apply set_column_datetimes in E2, E3, E4, E5, E6. congruence.
Qed.

Lemma trim_warmup_sorted : forall n df,
  Sorted Z.le (map row_datetime df) ->
  Sorted Z.le (map row_datetime (trim_warmup n df)).
Proof.
  intros n df H. unfold trim_warmup.
  destruct (n <? List.length df)%nat; [| assumption].
  rewrite <- skipn_map. apply Sorted_skipn. assumption.
Qed.

Lemma typed_bars_datetimes : forall convert (t : raw_bar -> Z) bars df,
  mapM (fun b => typed_bar convert (t b) b) bars = Ok df ->
  map row_datetime df = map t bars.
Proof.
  intros convert t bars. induction bars as [| b bars IH]; intros df H;
    simpl in H.
  - inversion H. reflexivity.
  - destruct (typed_bar convert (t b) b) as [r |] eqn:Er; simpl in H;
      [| discriminate].
    destruct (mapM _ bars) as [rs |] eqn:Ers; simpl in H; [| discriminate].
    inversion H; subst. simpl. f_equal.
    + unfold typed_bar in Er.
      destruct (convert (raw_open b)); simpl in Er; [| discriminate].
      destruct (convert (raw_high b)); simpl in Er; [| discriminate].
      destruct (convert (raw_low b)); simpl in Er; [| discriminate].
      destruct (convert (raw_close b)); simpl in Er; [| discriminate].
      inversion Er. reflexivity.
    + auto.
Qed.

Lemma sorted_frame_ascending : forall v df,
  sorted_frame v = Ok df -> Sorted Z.le (map row_datetime df).
Proof.
  intros v df H. unfold sorted_frame in H.
  destruct (is_empty_values v); [discriminate |].
  destruct v as [bars | rows].
  - apply typed_bars_datetimes in H. rewrite H. apply sort_values_sorted.
  - inversion H; subst. apply sort_values_sorted.
Qed.

Lemma strftime_rows_ascending : forall df,
  Sorted Z.le (map row_datetime df) ->
  Sorted Z.le
    (map row_datetime
       (map (fun r => set_datetime (strftime_seconds (row_datetime r)) r) df)).
Proof.
  intros df H. rewrite map_map. simpl.
  rewrite <- (map_map row_datetime strftime_seconds).
  apply Sorted_map_monotone; [apply strftime_seconds_monotone | assumption].
Qed.

Lemma twelvedata_body_ascending : forall ta cfg data out,
  twelvedata_body ta cfg data = Ok out -> accepted_ascending out.
Proof.
  intros ta cfg data out H. unfold twelvedata_body in H.
  destruct (values data) as [v |] eqn:Ev.
  - destruct (status data) as [st |] eqn:Est; simpl in H; [| discriminate].
    destruct (st =? "ok")%string eqn:Eok.
    + step_bind H d1 E1. step_bind H d2 E2. step_bind H mp E3.
      inversion H; subst. intros _. unfold timestamps. simpl.
      apply strftime_rows_ascending. apply trim_warmup_sorted.
      rewrite (add_technical_indicators_datetimes _ _ _ _ E2).
      eapply sorted_frame_ascending; eauto.
    + inversion H; subst. intro Hok. rewrite Est in Hok.
      inversion Hok; subst. discriminate.
  - inversion H; subst. intros _. unfold timestamps. rewrite Ev. constructor.
Qed.

Lemma twelvedata_loop_ascending : forall ta cfg fetch symbols json_data outs,
  Forall accepted_ascending json_data ->
  twelvedata_loop ta cfg fetch symbols json_data = Ok outs ->
  Forall accepted_ascending outs.
Proof.
  intros ta cfg fetch symbols.
  induction symbols as [| symbol rest IH]; intros json_data outs Hacc H;
    simpl in H.
  - inversion H; subst. assumption.
  - step_bind H data E. apply IH in H; [assumption |].
    apply Forall_app. split; [assumption |].
    constructor; [| constructor]. eapply twelvedata_body_ascending; eauto.
Qed.

Lemma bybit_ok_branch_ascending : forall ta cfg data out,
  bybit_ok_branch ta cfg data = Ok out -> Sorted Z.le (timestamps out).
Proof.
  intros ta cfg data out H. unfold bybit_ok_branch in H.
  step_bind H bars E0. step_bind H d1 E1. step_bind H d2 E2.
  step_bind H mp E3. inversion H; subst. unfold timestamps. simpl.
  apply trim_warmup_sorted.
  rewrite (add_technical_indicators_datetimes _ _ _ _ E2).
  apply typed_bars_datetimes in E1. rewrite E1.
  rewrite <- (map_map raw_datetime strftime_seconds).
  apply Sorted_map_monotone; [apply strftime_seconds_monotone |].
  apply sort_values_sorted.
Qed.

Lemma bybit_loop_ascending :
  forall ta cfg fetch interval coins json_data outs,
  Forall (fun out => Sorted Z.le (timestamps out)) json_data ->
  bybit_loop ta cfg fetch interval coins json_data = Ok outs ->
  Forall (fun out => Sorted Z.le (timestamps out)) outs.
Proof.
  intros ta cfg fetch interval coins.
  induction coins as [| coin rest IH]; intros json_data outs Hacc H;
    simpl in H.
  - inversion H; subst. assumption.
  - step_bind H code E0. step_bind H msg E1.
    destruct (msg =? "OK")%string.
    + step_bind H data' E2. apply IH in H; [assumption |].
      apply Forall_app. split; [assumption |].
      constructor; [| constructor]. eapply bybit_ok_branch_ascending; eauto.
    + destruct json_data as [| first others]; [discriminate |].
      destruct (getitem (retMsg first) "retMsg"); discriminate.
Qed.

Lemma extract_df_ascending : forall entry exchange symbol df,
  extract_df entry exchange = Ok (symbol, df) ->
  (exchange = "bybit" -> Sorted Z.le (timestamps entry)) ->
  Sorted Z.le (map row_datetime df).
Proof.
  intros entry exchange symbol df H Hin. unfold extract_df in H.
  step_bind H v Ev. step_bind H d1 E1.
  assert (Hd1 : map row_datetime d1 = timestamps entry).
  { unfold timestamps. destruct (values entry) as [v' |]; [| discriminate].
    inversion Ev; subst v'. destruct v as [bars | rows].
    - apply (typed_bars_datetimes py_float
               (fun b => strftime_seconds (raw_datetime b))) in E1.
      assumption.
    - inversion E1; subst. rewrite map_map. reflexivity. }
  destruct (exchange =? "bybit")%string eqn:Ex; simpl in H.
  - step_bind H name Es. inversion H; subst. rewrite Hd1.
    apply Hin. apply String.eqb_eq. assumption.
  - step_bind H name Es. inversion H; subst. apply sort_values_sorted.
Qed.

(** C7, as the code has it.  After normalization the timestamps of a series
    are in ascending order, equal timestamps allowed: in every accepted
    payload returned by [get_symbol_data] and [get_coin_data], in every
    payload returned by [get_bybit_coin_data], and in the frame [extract_df]
    builds from them, where the sort is skipped for Bybit and the order of
    the payload is kept. *)
Theorem timestamps_ascending : forall ta cfg,
  (forall fetch symbols outs,
      get_symbol_data ta cfg fetch symbols = Ok outs ->
      Forall accepted_ascending outs)
  /\ (forall fetch coins outs,
      get_coin_data ta cfg fetch coins = Ok outs ->
      Forall accepted_ascending outs)
  /\ (forall fetch interval coins outs,
      get_bybit_coin_data ta cfg fetch interval coins = Ok outs ->
      Forall (fun out => Sorted Z.le (timestamps out)) outs)
  /\ (forall entry exchange symbol df,
      extract_df entry exchange = Ok (symbol, df) ->
      (exchange = "bybit" -> Sorted Z.le (timestamps entry)) ->
      Sorted Z.le (map row_datetime df)).
Proof.
  intros ta cfg. repeat split.
  - intros fetch symbols outs H.
    eapply twelvedata_loop_ascending; [| exact H]. constructor.
  - intros fetch coins outs H.
    eapply twelvedata_loop_ascending; [| exact H]. constructor.
  - intros fetch interval coins outs H.
    eapply bybit_loop_ascending; [| exact H]. constructor.
  - apply extract_df_ascending.
Qed.

Lemma timestamps_ascending_witness :
  exists out,
    get_bybit_coin_data ta_declines config_py (fun _ _ => bybit_success)
      "15min" ["BTCUSDT"] = Ok [out]
    /\ timestamps out = [60; 120]
    /\ Forall (fun out => Sorted Z.le (timestamps out)) [out].
Proof.
  eexists. split; [vm_compute; reflexivity |]. split; [reflexivity |].
  apply (proj1 (proj2 (proj2 (timestamps_ascending ta_declines config_py)))
           (fun _ _ => bybit_success) "15min" ["BTCUSDT"]).
  vm_compute. reflexivity.
Defined.

(** C7 fails as stated: the accepted payload in which the provider repeats
    the bar of one minute is normalized to a series with that timestamp
    twice, so the timestamps are not strictly increasing. *)
Lemma duplicate_timestamps_survive :
  exists out,
    get_symbol_data ta_declines config_py (fun _ => duplicate_payload)
      ["EUR/USD"] = Ok [out]
    /\ status out = Some "ok"
    /\ timestamps out = [60; 60; 120]
    /\ ~ Sorted Z.lt (timestamps out).
Proof.
  eexists. split; [vm_compute; reflexivity |].
  split; [reflexivity |]. split; [reflexivity |].
  simpl. intro H. inversion H as [| a l Hs Hd]; subst.
  inversion Hd; subst. lia.
Qed.







(** The exception of [get_bybit_coin_data] does not carry the message of
    the failing payload: it reads [json_data[0]], which is missing for a
    first coin and is an earlier, successful payload otherwise. *)
Lemma bybit_error_message_is_lost :
  get_bybit_coin_data ta_declines config_py (fun _ _ => bybit_error)
    "15min" ["BTCUSDX"] = Raise IndexError
  /\ get_bybit_coin_data ta_declines config_py
       (fun coin _ => if (coin =? "BTCUSDT")%string then bybit_success
                      else bybit_error)
       "15min" ["BTCUSDT"; "BTCUSDX"] = Raise (Exception "Error: OK").
Proof. split; vm_compute; reflexivity. Qed.

(* ================================================================= *)
(** * Further properties of [extract_trading_levels] *)

Lemma upper_lower_char : forall x, upper_char (lower_char x) = upper_char x.
Proof. intro x. destruct x as [[] [] [] [] [] [] [] []]; reflexivity. Qed.

Lemma char_eq_upper : forall fl x c,
  Re.char_eq fl x c = true -> upper_char x = upper_char c.
Proof.
  intros fl x c H. unfold Re.char_eq in H. destruct (Re.ignorecase fl).
  - apply Ascii.eqb_eq in H.
    rewrite <- (upper_lower_char x), <- (upper_lower_char c), H. reflexivity.
  - apply Ascii.eqb_eq in H. subst. reflexivity.
Qed.

Lemma reads_word_upper : forall fl w s s',
  reads_word fl w s = Some s' ->
  String.length s = (String.length w + String.length s')%nat
  /\ upper (take (String.length s - String.length s') s) = upper w.
Proof.
  intros fl w. induction w as [| c w IH]; intros s s' H;
    cbn [reads_word] in H.
  - injection H as <-. rewrite Nat.sub_diag. split; [reflexivity |].
    destruct s; reflexivity.
  - destruct s as [| x s0]; [discriminate |].
    destruct (Re.char_eq fl x c) eqn:E; [| discriminate].
    destruct (IH _ _ H) as [Hl Hu]. split.
    + cbn [String.length]. lia.
    + replace (String.length (String x s0) - String.length s')%nat
        with (S (String.length s0 - String.length s'))
        by (cbn [String.length]; lia).
      cbn [take]. unfold upper in *. cbn [str_map]. rewrite Hu.
      rewrite (char_eq_upper _ _ _ E). reflexivity.
Qed.

Lemma reads_word_app : forall fl w1 w2 s s1 s2,
  reads_word fl w1 s = Some s1 -> reads_word fl w2 s1 = Some s2 ->
  reads_word fl (w1 ++ w2) s = Some s2.
Proof.
  intros fl w1. induction w1 as [| c w1 IH]; intros w2 s s1 s2 H1 H2;
    cbn [reads_word] in H1.
  - injection H1 as ->. exact H2.
  - destruct s as [| x s0]; [discriminate |]. cbn [append reads_word].
    destruct (Re.char_eq fl x c); [eauto | discriminate].
Qed.

Lemma literal_rmatch : forall fl r l,
  literal_words r = Some l ->
  forall s g k o, Re.rmatch fl r s g k = Some o ->
  exists w s', In w l /\ reads_word fl w s = Some s' /\ k s' g = Some o.
Proof.
  intros fl r. induction r; intros l Hl s g k o H; cbn [literal_words] in Hl;
    try discriminate; cbn [Re.rmatch] in H.
  - injection Hl as <-. exists "", s. repeat split; [left; reflexivity | assumption].
  - injection Hl as <-. destruct s as [| x s0]; [discriminate |].
    destruct (Re.char_eq fl x c) eqn:E; [| discriminate].
    exists (String c ""), s0. repeat split; [left; reflexivity | | assumption].
    cbn [reads_word]. rewrite E. reflexivity.
  - destruct (literal_words r1) as [l1 |]; [| discriminate].
    destruct (literal_words r2) as [l2 |]; [| discriminate].
    injection Hl as <-.
    destruct (IHr1 _ eq_refl _ _ _ _ H) as (w1 & s1 & Hin1 & Hr1 & Hk1).
    destruct (IHr2 _ eq_refl _ _ _ _ Hk1) as (w2 & s2 & Hin2 & Hr2 & Hk2).
    exists (w1 ++ w2), s2. repeat split; [| | assumption].
    + apply in_flat_map. exists w1. split; [assumption |].
      apply in_map. assumption.
    + eapply reads_word_app; eauto.
  - destruct (literal_words r1) as [l1 |]; [| discriminate].
    destruct (literal_words r2) as [l2 |]; [| discriminate].
    injection Hl as <-.
    destruct (Re.rmatch fl r1 s g k) eqn:E1.
    + injection H as ->.
      destruct (IHr1 _ eq_refl _ _ _ _ E1) as (w & s' & Hin & Hr & Hk).
      exists w, s'. repeat split; auto. apply in_or_app. auto.
    + destruct (IHr2 _ eq_refl _ _ _ _ H) as (w & s' & Hin & Hr & Hk).
      exists w, s'. repeat split; auto. apply in_or_app. auto.
Qed.

Lemma star_loop_keeps_words : forall ws step greedy,
  keeps_words ws step ->
  forall n, keeps_words ws (fun s g k => Re.star_loop step greedy k n s g).
Proof.
  intros ws step greedy Hstep n. unfold keeps_words.
  induction n as [| n IHn]; intros s g k o Hg H; cbn [Re.star_loop] in H.
  - exists s, g. auto.
  - assert (Hagain : forall o',
      step s g (fun s' g' =>
                  if (String.length s' <? String.length s)%nat
                  then Re.star_loop step greedy k n s' g' else None) = Some o' ->
      exists s' g', word_capture ws g' /\ k s' g' = Some o').
    { intros o' E. apply Hstep in E; [| assumption].
      destruct E as (s1 & g1 & Hg1 & Hk).
      destruct (String.length s1 <? String.length s)%nat; [| discriminate].
      eapply IHn; eauto. }
    cbv zeta in H. destruct greedy.
    + destruct (step s g _) eqn:E.
      * injection H as ->. apply Hagain. reflexivity.
      * exists s, g. auto.
    + destruct (k s g) eqn:Ek.
      * injection H as ->. exists s, g. auto.
      * apply Hagain. assumption.
Qed.

Lemma rmatch_keeps_words : forall ws fl r,
  groups_read ws r = true -> keeps_words ws (Re.rmatch fl r).
Proof.
  intros ws fl r. unfold keeps_words.
  induction r; intros Hr s g k o Hg H; cbn [groups_read] in Hr;
    cbn [Re.rmatch] in H.
  - exists s, g. auto.
  - destruct s as [| c' s']; [discriminate |].
    destruct (Re.char_eq fl c' c); [| discriminate]. exists s', g. auto.
  - destruct s as [| c' s']; [discriminate |].
    destruct (Re.dotall fl || negb (Ascii.eqb c' "010"))%bool; [| discriminate].
    exists s', g. auto.
  - destruct s as [| c' s']; [discriminate |].
    destruct (existsb (Re.item_matches c') items); [| discriminate].
    exists s', g. auto.
  - destruct s as [| c' s'].
    + exists EmptyString, g. auto.
    + destruct s'; [| discriminate].
      destruct (Ascii.eqb c' "010"); [| discriminate].
      eexists _, g. eauto.
  - apply andb_true_iff in Hr. destruct Hr as [Hr1 Hr2].
    apply (IHr1 Hr1) in H; [| assumption].
    destruct H as (s1 & g1 & Hg1 & H). eapply (IHr2 Hr2); eauto.
  - apply andb_true_iff in Hr. destruct Hr as [Hr1 Hr2].
    destruct (Re.rmatch fl r1 s g k) eqn:E1.
    + injection H as ->. eapply (IHr1 Hr1); eauto.
    + eapply (IHr2 Hr2); eauto.
  - eapply (star_loop_keeps_words ws (Re.rmatch fl r) greedy);
      [| exact Hg | exact H].
    exact (IHr Hr).
  - destruct (literal_words r) as [l |] eqn:El; [| discriminate].
    destruct (literal_rmatch fl r l El _ _ _ _ H) as (w & s' & Hin & Hw & Hk).
    eexists s', _. split; [| exact Hk].
    cbn [word_capture]. exists w. split.
    + rewrite forallb_forall in Hr. apply Hr in Hin.
      apply existsb_exists in Hin. destruct Hin as (w' & Hin' & Heq).
      apply String.eqb_eq in Heq. subst. assumption.
    + apply (reads_word_upper fl w s s' Hw).
  - destruct (Re.rmatch fl r s g (fun s' g' => Some (s', g')))
      as [[rest g'] |] eqn:E; [| discriminate].
    apply (IHr Hr) in E; [| assumption]. destruct E as (s1 & g1 & Hg1 & E).
    injection E as _ ->. exists s, g'. auto.
Qed.

Lemma search_from_words : forall ws fl r,
  groups_read ws r = true ->
  forall s m, Re.search_from fl r s = Some m -> word_capture ws (Re.group1 m).
Proof.
  intros ws fl r Hr s. induction s as [| x s IH]; intros m H;
    cbn [Re.search_from] in H.
  - destruct (Re.rmatch fl r "" None _) as [[rest g] |] eqn:E;
      [| discriminate].
    destruct (rmatch_keeps_words ws fl r Hr _ None _ _ I E) as (s' & g' & Hg & Hk).
    injection Hk as _ ->. injection H as <-. exact Hg.
  - destruct (Re.rmatch fl r (String x s) None _) as [[rest g] |] eqn:E;
      [| auto].
    destruct (rmatch_keeps_words ws fl r Hr _ None _ _ I E) as (s' & g' & Hg & Hk).
    injection Hk as _ ->. injection H as <-. exact Hg.
Qed.

Lemma search_signal_word : forall pattern text fl m,
  signal_pattern pattern = true ->
  Re.search pattern text fl = Some m ->
  word_capture signal_words (Re.group1 m).
Proof.
  intros pattern text fl m Hp H. unfold signal_pattern in Hp.
  unfold Re.search in H.
  destruct (Re.compile pattern) as [r |]; [| discriminate].
  eapply search_from_words; eauto.
Qed.

Lemma signal_word_upper : forall w, In w signal_words -> upper w = w.
Proof.
  intros w H. simpl in H.
  destruct H as [<- | [<- | [<- | []]]]; reflexivity.
Qed.

Lemma assign_level_shaped : forall field f l,
  regex_shaped l -> regex_shaped (assign_level field (PFloat f) l).
Proof.
  intros field f l (He & H1 & H2 & H3 & Hs & Hsig & Hp).
  unfold assign_level.
  destruct (field =? "entry")%string;
    [repeat split; simpl; auto; right; eauto |].
  destruct (field =? "tp1")%string;
    [repeat split; simpl; auto; right; eauto |].
  destruct (field =? "tp2")%string;
    [repeat split; simpl; auto; right; eauto |].
  destruct (field =? "tp3")%string;
    [repeat split; simpl; auto; right; eauto |].
  destruct (field =? "sl")%string;
    [repeat split; simpl; auto; right; eauto |].
  repeat split; assumption.
Qed.

Lemma on_match_shaped : forall field m l log log' l',
  regex_shaped l ->
  (field = "signal" -> word_capture signal_words (Re.group1 m)) ->
  on_match field m l log = (log', Ok l') ->
  regex_shaped l'.
Proof.
  intros field m l log log' l' Hl Hw H. unfold on_match, group1_text in H.
  unfold bindM, try_except, lift, print, ret in H. simpl in H.
  destruct (String.eqb_spec field "signal") as [Ef | Ef].
  - specialize (Hw Ef).
    destruct (Re.group1 m) as [s |]; [| discriminate].
    inversion H; subst. destruct Hl as (He & H1 & H2 & H3 & Hs & Hsig & Hp).
    repeat split; simpl; auto. right.
    destruct Hw as (w & Hin & Hu). exists w. split; [assumption |].
    rewrite Hu, (signal_word_upper w Hin). reflexivity.
  - destruct (Re.group1 m) as [s |]; simpl in H; [| discriminate].
    destruct (py_float (replace_char "," "" s)) as [f | e]; simpl in H.
    + inversion H; subst. apply assign_level_shaped. assumption.
    + destruct (is_value_error e); inversion H; subst. assumption.
Qed.

Lemma try_patterns_shaped : forall field pattern_list text l log log' l',
  regex_shaped l ->
  (field = "signal" -> forallb signal_pattern pattern_list = true) ->
  try_patterns field pattern_list text l log = (log', Ok l') ->
  regex_shaped l'.
Proof.
  intros field pattern_list text l log log' l' Hl.
  induction pattern_list as [| p ps IH]; intros Hp H; simpl in H.
  - inversion H; subst. assumption.
  - destruct (Re.search p text Re.IGNORECASE) as [m |] eqn:Em.
    + eapply on_match_shaped; [exact Hl | | exact H].
      intro Ef. specialize (Hp Ef). simpl in Hp.
      apply andb_true_iff in Hp. destruct Hp as [Hp _].
      eapply search_signal_word; eauto.
    + apply IH; [| assumption].
      intro Ef. specialize (Hp Ef). simpl in Hp.
      apply andb_true_iff in Hp. tauto.
Qed.

Lemma regex_phase_shaped : forall items text l log log' l',
  signal_patterns items = true ->
  regex_shaped l ->
  regex_phase items text l log = (log', Ok l') ->
  regex_shaped l'.
Proof.
  intros items text. induction items as [| [field ps] items IH];
    intros l log log' l' Hi Hl H; simpl in H.
  - inversion H; subst. assumption.
  - unfold bindM in H.
    destruct (try_patterns field ps text l log) as [log1 [l1 | e]] eqn:E;
      [| discriminate].
    unfold signal_patterns in Hi. cbn [forallb fst snd] in Hi.
    apply andb_true_iff in Hi. destruct Hi as [Hf Hi].
    eapply IH; [exact Hi | | exact H].
    eapply try_patterns_shaped; [exact Hl | | exact E].
    intros ->. exact Hf.
Qed.

Lemma no_levels_shaped : regex_shaped no_levels.
Proof. repeat split; left; reflexivity. Qed.

Lemma fell_through_shaped : forall text l,
  json_phase_fell_through text = true ->
  extract_trading_levels text = Ok l ->
  regex_shaped l.
Proof.
  intros text l Hj H. unfold json_phase_fell_through in Hj.
  unfold extract_trading_levels, extract_trading_levels_m, bindM in H.
  destruct (json_phase text []) as [log1 [[l0 |] | e]]; simpl in Hj;
    try discriminate.
  unfold print at 1 in H.
  destruct (print_signal_section_returns text (log1 ++ [FallbackToRegex])%list)
    as (log2 & E2).
  rewrite E2 in H.
  destruct (regex_phase patterns text no_levels log2) as [log3 r] eqn:E3.
  simpl in H. subst r.
  eapply regex_phase_shaped; [| apply no_levels_shaped | exact E3].
  vm_compute. reflexivity.
Qed.



(* ================================================================= *)
(** * Further properties of [format_ai_output] *)

Lemma add_level_line_returns : forall label v flag text,
  returns (add_level_line label v flag text)
  = (negb (truthy (shown_if flag v)) || formattable (shown_if flag v))%bool.
Proof.
  intros label v flag text. unfold add_level_line, shown_if, formattable.
  destruct flag; simpl.
  - rewrite andb_true_r. destruct (truthy v); simpl; [| reflexivity].
    destruct (format_f false 4 v); reflexivity.
  - rewrite andb_false_r. reflexivity.
Qed.

Lemma add_level_line_shown : forall label v flag text,
  add_level_line label v flag text
  = add_level_line label (shown_if flag v) flag text.
Proof.
  intros label v flag text. unfold add_level_line, shown_if.
  destruct flag; [reflexivity |]. rewrite !andb_false_r. reflexivity.
Qed.

(** X2.  A level whose flag in [SIGNAL_FORMAT] is false gets no line, present
    or not: the signal text is the one of the levels with the levels
    switched off taken away. *)
Theorem switched_off_level_is_omitted : forall cfg symbol l,
  build_signal_text cfg symbol l = build_signal_text cfg symbol (masked cfg l).
Proof.
  intros cfg symbol l. unfold build_signal_text, masked. simpl.
  unfold add_level_line, shown_if.
  destruct (flag_get (SIGNAL_FORMAT cfg) "entry");
    destruct (flag_get (SIGNAL_FORMAT cfg) "stoploss");
    destruct (flag_get (SIGNAL_FORMAT cfg) "tp1");
    destruct (flag_get (SIGNAL_FORMAT cfg) "tp2");
    destruct (flag_get (SIGNAL_FORMAT cfg) "tp3");
    rewrite ?andb_false_r, ?andb_true_r; reflexivity.
Qed.

Lemma filter_cons_truthy : forall v l,
  forallb formattable (filter truthy (v :: l))
  = ((negb (truthy v) || formattable v) && forallb formattable (filter truthy l))%bool.
Proof.
  intros v l. simpl. destruct (truthy v); reflexivity.
Qed.

Lemma bind_returns : forall (A B : Type) (m : result A) (f : A -> result B) b,
  (forall a, returns (f a) = b) ->
  returns (bind m f) = (returns m && b)%bool.
Proof.
  intros A B m f b H. destruct m; simpl; auto.
Qed.

Lemma build_signal_text_returns : forall cfg symbol l,
  returns (build_signal_text cfg symbol l)
  = forallb formattable (printed_levels cfg l).
Proof.
  intros cfg symbol l. unfold build_signal_text, printed_levels.
  rewrite !filter_cons_truthy. simpl filter. simpl forallb.
  rewrite andb_true_r.
  set (t0 := add_text_line _ _ _ _).
  generalize t0. clear t0. intro t0.
  destruct (add_level_line "🎯 Entry: " (entry l) _ t0) as [t1 |] eqn:E1.
  2: { pose proof (add_level_line_returns "🎯 Entry: " (entry l)
                     (flag_get (SIGNAL_FORMAT cfg) "entry") t0) as H.
       rewrite E1 in H. simpl in H. rewrite <- H. reflexivity. }
  pose proof (add_level_line_returns "🎯 Entry: " (entry l)
                (flag_get (SIGNAL_FORMAT cfg) "entry") t0) as H1.
  rewrite E1 in H1. simpl in H1. rewrite <- H1. cbn [bind andb].
  destruct (add_level_line "🛑 SL: " (sl l) _ t1) as [t2 |] eqn:E2.
  2: { pose proof (add_level_line_returns "🛑 SL: " (sl l)
                     (flag_get (SIGNAL_FORMAT cfg) "stoploss") t1) as H.
       rewrite E2 in H. simpl in H. rewrite <- H. reflexivity. }
  pose proof (add_level_line_returns "🛑 SL: " (sl l)
                (flag_get (SIGNAL_FORMAT cfg) "stoploss") t1) as H2.
  rewrite E2 in H2. simpl in H2. rewrite <- H2. cbn [bind andb].
  destruct (add_level_line "🎯 TP1: " (tp1 l) _ t2) as [t3 |] eqn:E3.
  2: { pose proof (add_level_line_returns "🎯 TP1: " (tp1 l)
                     (flag_get (SIGNAL_FORMAT cfg) "tp1") t2) as H.
       rewrite E3 in H. simpl in H. rewrite <- H. reflexivity. }
  pose proof (add_level_line_returns "🎯 TP1: " (tp1 l)
                (flag_get (SIGNAL_FORMAT cfg) "tp1") t2) as H3.
  rewrite E3 in H3. simpl in H3. rewrite <- H3. cbn [bind andb].
  destruct (add_level_line "🎯 TP2: " (tp2 l) _ t3) as [t4 |] eqn:E4.
  2: { pose proof (add_level_line_returns "🎯 TP2: " (tp2 l)
                     (flag_get (SIGNAL_FORMAT cfg) "tp2") t3) as H.
       rewrite E4 in H. simpl in H. rewrite <- H. reflexivity. }
  pose proof (add_level_line_returns "🎯 TP2: " (tp2 l)
                (flag_get (SIGNAL_FORMAT cfg) "tp2") t3) as H4.
  rewrite E4 in H4. simpl in H4. rewrite <- H4. cbn [bind andb].
  pose proof (add_level_line_returns "🎯 TP3: " (tp3 l)
                (flag_get (SIGNAL_FORMAT cfg) "tp3") t4) as H5.
  destruct (add_level_line "🎯 TP3: " (tp3 l) _ t4) as [t5 |] eqn:E5;
    simpl in H5; rewrite <- H5; reflexivity.
Qed.

(** X3.  The signal text is produced exactly when every level that gets a
    line is a number the spec [.4f] accepts; a level that is a text, a list
    or an object makes the formatter raise. *)
Theorem signal_text_returns_iff_levels_are_numbers : forall cfg symbol l,
  returns (build_signal_text cfg symbol l)
  = forallb formattable (printed_levels cfg l).
Proof. exact build_signal_text_returns. Qed.

Lemma none_or_float_formattable : forall v,
  none_or_float v -> (negb (truthy v) || formattable v)%bool = true.
Proof.
  intros v [E | [f E]]; subst; [reflexivity |].
  unfold formattable. simpl. apply orb_true_r.
Qed.

Lemma shaped_levels_print : forall cfg l,
  regex_shaped l -> forallb formattable (printed_levels cfg l) = true.
Proof.
  intros cfg l (He & H1 & H2 & H3 & Hs & _ & _). unfold printed_levels.
  rewrite !filter_cons_truthy. simpl.
  assert (H : forall flag v, none_or_float v ->
            (negb (truthy (shown_if flag v)) || formattable (shown_if flag v))%bool
            = true).
  { intros flag v Hv. destruct flag; simpl; [| reflexivity].
    apply none_or_float_formattable. assumption. }
  rewrite !H by assumption. reflexivity.
Qed.

(** X4.  On an analysis in which the JSON phase finds nothing,
    [format_ai_output] returns in every mode: the levels of the regex phase
    are floats and never make a format spec fail. *)
Theorem format_never_raises_after_regex_phase :
  forall cfg analysis_text symbol,
  json_phase_fell_through analysis_text = true ->
  exists report, format_ai_output cfg analysis_text symbol = Ok report.
Proof.
  intros cfg text symbol Hj. unfold format_ai_output.
  destruct (extract_trading_levels_m_returns text []) as (log & l & E).
  assert (El : extract_trading_levels text = Ok l).
  { unfold extract_trading_levels. rewrite E. reflexivity. }
  rewrite El. cbn [bind].
  pose proof (fell_through_shaped text l Hj El) as Hl.
  pose proof (build_signal_text_returns cfg symbol l) as Hr.
  rewrite (shaped_levels_print cfg l Hl) in Hr.
  unfold format_levels.
  destruct (build_signal_text cfg symbol l) as [t |]; [| discriminate].
  destruct (AI_OUTPUT_MODE cfg =? "signal")%string; [eauto |].
  destruct (AI_OUTPUT_MODE cfg =? "detailed")%string; simpl; eauto.
Qed.

Lemma format_never_raises_after_regex_phase_witness :
  json_phase_fell_through markdown_answer = true
  /\ exists report,
       format_ai_output config_py markdown_answer "BTCUSDT" = Ok report.
Proof.
  split; [vm_compute; reflexivity |].
  apply (format_never_raises_after_regex_phase config_py markdown_answer
           "BTCUSDT").
  vm_compute. reflexivity.
Defined.



Lemma close_brace_caseless : Re.caseless "}".
Proof.
  intros fl x H. unfold Re.char_eq in H.
  destruct x as [[] [] [] [] [] [] [] []]; destruct (Re.ignorecase fl);
    vm_compute in H; congruence.
Qed.

Lemma no_close_brace_fell_through : forall text,
  contains_char "}" text = false -> json_phase_fell_through text = true.
Proof.
  intros text Ht. unfold json_phase_fell_through, json_phase, try_except.
  rewrite (search_needs_char "}" "\{.*\}" text Re.DOTALL close_brace_caseless);
    [reflexivity | vm_compute; reflexivity | assumption].
Qed.

(** X6.  A text without a colon that lacks an opening or a closing brace
    gives all seven fields [None]: every label pattern needs the colon and
    the JSON phase needs both braces. *)
Theorem no_colon_no_braces_no_levels : forall analysis_text,
  contains_char ":" analysis_text = false ->
  (contains_char "{" analysis_text && contains_char "}" analysis_text)%bool
  = false ->
  extract_trading_levels analysis_text = Ok no_levels.
Proof.
  intros text Hc Hb. apply unparseable_no_levels. unfold unparseable.
  rewrite (no_colon_no_pattern text Hc). rewrite andb_true_r.
  apply andb_false_iff in Hb. destruct Hb as [Hb | Hb].
  - apply no_brace_fell_through. assumption.
  - apply no_close_brace_fell_through. assumption.
Qed.

Lemma no_colon_no_braces_no_levels_witness :
  extract_trading_levels "Buy at 100 } no colon here" = Ok no_levels.
Proof.
  apply no_colon_no_braces_no_levels; vm_compute; reflexivity.
Defined.

(* ================================================================= *)
(** * Further properties of [extract_df] and [generate_charts] *)

Lemma substring_skip : forall a b n m,
  substring (String.length a + n) m (a ++ b) = substring n m b.
Proof.
  intros a b n m. induction a as [| c a IH]; simpl; [reflexivity | assumption].
Qed.

Lemma endswith_append : forall a b suffix,
  (String.length suffix <= String.length b)%nat ->
  endswith (a ++ b) suffix = endswith b suffix.
Proof.
  intros a b suffix H. unfold endswith. rewrite length_append.
  replace (String.length a + String.length b - String.length suffix)%nat
    with (String.length a + (String.length b - String.length suffix))%nat by lia.
  rewrite substring_skip.
  destruct (Nat.leb_spec (String.length suffix) (String.length b)); [| lia].
  destruct (Nat.leb_spec (String.length suffix)
              (String.length a + String.length b)); [| lia].
  reflexivity.
Qed.

Lemma typed_bars_bare : forall convert (t : raw_bar -> Z) bars df,
  mapM (fun b => typed_bar convert (t b) b) bars = Ok df -> Forall bare df.
Proof.
  intros convert t bars. induction bars as [| b bars IH]; intros df H;
    simpl in H.
  - inversion H. constructor.
  - step_bind H r Er. step_bind H rs Ers. inversion H; subst. constructor.
    + unfold typed_bar in Er.
      step_bind Er o Eo. step_bind Er h Eh. step_bind Er lo El.
      step_bind Er c Ec. inversion Er. reflexivity.
    + auto.
Qed.

Lemma Forall_skipn_list : forall (A : Type) (P : A -> Prop) n (l : list A),
  Forall P l -> Forall P (skipn n l).
Proof.
  intros A P n. induction n as [| n IH]; intros l H; simpl; [assumption |].
  destruct l; [constructor |]. inversion H; subst. auto.
Qed.

Lemma extract_df_bare : forall entry exchange symbol df,
  extract_df entry exchange = Ok (symbol, df) -> Forall bare df.
Proof.
  intros entry exchange symbol df H. unfold extract_df in H.
  step_bind H v Ev. step_bind H d1 E1.
  assert (Hd1 : Forall bare d1).
  { destruct v as [bars | rows].
    - apply (typed_bars_bare py_float
               (fun b => strftime_seconds (raw_datetime b)) bars).
      exact E1.
    - inversion E1; subst. apply Forall_forall. intros r Hr.
      apply in_map_iff in Hr. destruct Hr as (r0 & Hr0 & _). subst r.
      reflexivity. }
  destruct (exchange =? "bybit")%string; simpl in H.
  - step_bind H name Es. inversion H; subst. assumption.
  - step_bind H name Es. inversion H; subst.
    eapply Permutation_Forall; [apply sort_values_perm | assumption].
Qed.

Lemma bare_has_no_column : forall name df,
  Forall bare df -> has_column name df = false.
Proof.
  intros name df H. destruct H as [| r df Hr _]; [reflexivity |].
  unfold has_column. rewrite Hr. reflexivity.
Qed.

Lemma bare_summaries : forall cfg df,
  Forall bare df -> rsi_summary df = Ok "" /\ ema_summary cfg df = Ok "".
Proof.
  intros cfg df H. split.
  - unfold rsi_summary. rewrite bare_has_no_column by assumption. reflexivity.
  - unfold ema_summary. destruct (EMA_PERIODS cfg) as [| p0 [| p1 ps]];
      try reflexivity.
    rewrite (bare_has_no_column _ df H). reflexivity.
Qed.

(** X7.  The frame [extract_df] builds has the five named columns only,
    whatever indicator columns the payload carries; so the summary written
    when the screenshot fails never has an RSI line or an EMA line. *)
Theorem chart_frame_has_no_indicators :
  forall cfg entry exchange symbol df,
  extract_df entry exchange = Ok (symbol, df) ->
  Forall bare df
  /\ rsi_summary (tail 20 df) = Ok ""
  /\ ema_summary cfg (tail 20 df) = Ok "".
Proof.
  intros cfg entry exchange symbol df H.
  pose proof (extract_df_bare _ _ _ _ H) as Hb.
  split; [assumption |].
  apply bare_summaries. unfold tail. apply Forall_skipn_list. assumption.
Qed.

Lemma chart_frame_has_no_indicators_witness :
  Forall bare [drop_indicators sample_row]
  /\ rsi_summary (tail 20 [drop_indicators sample_row]) = Ok ""
  /\ ema_summary config_py (tail 20 [drop_indicators sample_row]) = Ok "".
Proof.
  apply (chart_frame_has_no_indicators config_py sample_payload "bybit"
           "BTCUSDT").
  vm_compute. reflexivity.
Defined.

(** X8.  [extract_df] looks keys up without a default: a payload without
    ['values'] raises [KeyError], and so does a processed payload of the
    other provider, which lacks ['result'] for the exchange ["bybit"] and
    ['meta'] for any other exchange. *)
Theorem extract_df_missing_keys : forall entry exchange,
  (values entry = None ->
   extract_df entry exchange = Raise (KeyError "values"))
  /\ (forall rows,
        values entry = Some (Records rows) ->
        exchange = "bybit" -> result_symbol entry = None ->
        extract_df entry exchange = Raise (KeyError "result"))
  /\ (forall rows,
        values entry = Some (Records rows) ->
        exchange <> "bybit" -> meta_symbol entry = None ->
        extract_df entry exchange = Raise (KeyError "meta")).
Proof.
  intros entry exchange. unfold extract_df. repeat split.
  - intro H. rewrite H. reflexivity.
  - intros rows Hv Hx Hr. rewrite Hv, Hr. subst exchange. reflexivity.
  - intros rows Hv Hx Hm. rewrite Hv, Hm. cbn [getitem bind].
    destruct (String.eqb_spec exchange "bybit"); [contradiction |].
    reflexivity.
Qed.

Lemma extract_df_missing_keys_witness :
  extract_df twelvedata_error "binance" = Raise (KeyError "values")
  /\ extract_df sample_payload "binance" = Raise (KeyError "meta").
Proof.
  split.
  - apply (proj1 (extract_df_missing_keys twelvedata_error "binance")).
    reflexivity.
  - apply (proj2 (proj2 (extract_df_missing_keys sample_payload "binance"))
             [sample_row]); [reflexivity | discriminate | reflexivity].
Defined.

(** X9.  [extract_df] keeps every bar of a processed payload: for the
    exchange ["bybit"] the rows come out in the order of the payload, for
    any other exchange as a rearrangement of them in ascending order of
    the timestamp. *)
Theorem extract_df_keeps_bars : forall entry exchange symbol df rows,
  values entry = Some (Records rows) ->
  extract_df entry exchange = Ok (symbol, df) ->
  (exchange = "bybit" -> df = map drop_indicators rows)
  /\ Permutation (map drop_indicators rows) df
  /\ List.length df = List.length rows.
Proof.
  intros entry exchange symbol df rows Hv H. unfold extract_df in H.
  rewrite Hv in H. cbn [getitem bind] in H.
  assert (Hp : Permutation (map drop_indicators rows) df
               /\ (exchange = "bybit" -> df = map drop_indicators rows)).
  { destruct (String.eqb_spec exchange "bybit") as [Ex | Ex]; simpl in H.
    - step_bind H name Es. inversion H; subst df. split; [reflexivity | auto].
    - step_bind H name Es. inversion H; subst df.
      split; [apply sort_values_perm | contradiction]. }
  destruct Hp as [Hp He]. repeat split; [assumption | assumption |].
  rewrite <- (Permutation_length Hp). apply length_map.
Qed.

Lemma extract_df_keeps_bars_witness :
  Permutation (map drop_indicators [sample_row]) [drop_indicators sample_row].
Proof.
  apply (proj1 (proj2 (extract_df_keeps_bars sample_payload "bybit" "BTCUSDT"
                         [drop_indicators sample_row] [sample_row]
                         eq_refl eq_refl))).
Defined.

Lemma format_f_returns : forall plus p v,
  returns (format_f plus p v) = formattable v.
Proof.
  intros plus p v. unfold formattable. destruct v; simpl; try reflexivity.
  destruct (Float64.of_int z); reflexivity.
Qed.

Lemma add_hline_returns : forall v, returns (add_hline v) = drawable v.
Proof.
  intro v. unfold add_hline, drawable. destruct (truthy v); simpl.
  - rewrite <- (format_f_returns false 2 v).
    destruct (format_f false 2 v); reflexivity.
  - reflexivity.
Qed.

Lemma add_hline_unit : forall v,
  add_hline v = Ok tt \/ exists e, add_hline v = Raise e.
Proof.
  intro v. destruct (add_hline v) as [[] | e]; [left | right]; eauto.
Qed.

Lemma endswith_cons : forall c b suffix,
  (String.length suffix <= String.length b)%nat ->
  endswith (String c b) suffix = endswith b suffix.
Proof.
  intros c b suffix H. apply (endswith_append (String c "") b suffix H).
Qed.

(** [endswith] looks at the last piece of a concatenation that is long
    enough. *)
Ltac length_bound :=
  repeat (rewrite length_append || (progress cbn [String.length])); lia.

Ltac drop_prefix :=
  (rewrite endswith_append by length_bound)
  || (rewrite endswith_cons by length_bound).

Lemma generate_charts_endswith :
  forall cfg env data analysis_text exchange s,
  generate_charts cfg env data analysis_text exchange = Ok s ->
  endswith s ".png" = png_saved env.
Proof.
  intros cfg env data text exchange s H. unfold generate_charts in H.
  step_bind H sd Esd. destruct sd as [symbol df].
  step_bind H l El.
  step_bind H u1 E1. step_bind H u2 E2. step_bind H u3 E3.
  step_bind H u4 E4. step_bind H u5 E5.
  destruct (png_saved env).
  - injection H as <-. repeat drop_prefix. reflexivity.
  - unfold text_summary in H.
    step_bind H u6 E6. step_bind H latest_price Ec. step_bind H last_open Eo.
    step_bind H rsi_text Er. step_bind H ema_text Ee.
    step_bind H levels_text Elv.
    injection H as <-. repeat drop_prefix. reflexivity.
Qed.

(** X10.  [run] tells a chart file from a textual summary by
    [chart_result.endswith('.png')].  That test is right: whatever
    [generate_charts] returns ends in [.png] exactly when the screenshot
    was saved. *)
Theorem chart_result_is_png_iff_saved :
  forall cfg env data analysis_text exchange s,
  generate_charts cfg env data analysis_text exchange = Ok s ->
  endswith s ".png" = png_saved env.
Proof. exact generate_charts_endswith. Qed.

Lemma chart_result_is_png_iff_saved_witness :
  endswith
    (nl ++ "📊 #BTCUSDT Technical Analysis:" ++ nl
       ++ "💰 Current Price: 100.7500" ++ nl
       ++ "📈 Change: +0.2500 (+0.25%)" ++ nl
       ++ "📊 High: 101.0000" ++ nl
       ++ "📉 Low: 99.2500" ++ nl
       ++ nl
       ++ nl
       ++ "⏰ Timeframe: Last 5 minutes" ++ nl
       ++ "        ") ".png"
  = png_saved png_fails.
Proof.
  apply (chart_result_is_png_iff_saved config_py png_fails sample_payload ""
           "bybit").
  vm_compute. reflexivity.
Defined.

Lemma iloc_last_returns : forall (A : Type) (l : list A),
  l <> [] -> exists x, iloc_last l = Ok x.
Proof.
  intros A l. induction l as [| a l IH]; intro H; [contradiction |].
  destruct l as [| b l]; [exists a; reflexivity |].
  destruct IH as (x & Hx); [discriminate |]. exists x. exact Hx.
Qed.

Lemma tail_nonempty : forall n df, (0 < n)%nat -> df <> [] -> tail n df <> [].
Proof.
  intros n df Hn Hdf Ht. unfold tail in Ht.
  assert (Hl : List.length (skipn (List.length df - n) df) = 0%nat)
    by (rewrite Ht; reflexivity).
  rewrite length_skipn in Hl.
  destruct df; [contradiction | cbn [List.length] in Hl; lia].
Qed.

Lemma falsy_level_drawn : forall v, truthy v = false -> add_hline v = Ok tt.
Proof. intros v H. unfold add_hline. rewrite H. reflexivity. Qed.

Lemma no_level_falsy : forall l,
  any_level l = false ->
  truthy (entry l) = false /\ truthy (tp1 l) = false
  /\ truthy (tp2 l) = false /\ truthy (tp3 l) = false
  /\ truthy (sl l) = false.
Proof.
  intros l H. unfold any_level in H.
  repeat (apply orb_false_iff in H; destruct H as [H ?]). auto.
Qed.

(** X11.  When the screenshot fails (and the HTML file can be written) the
    summary of a non-empty frame is returned exactly when the analysis
    names no price level; with any level present the call raises. *)
Theorem fallback_summary_iff_no_level :
  forall cfg env data analysis_text exchange symbol df l,
  png_saved env = false -> html_saved env = true ->
  extract_df data exchange = Ok (symbol, df) -> df <> [] ->
  extract_trading_levels analysis_text = Ok l ->
  returns (generate_charts cfg env data analysis_text exchange)
  = negb (any_level l).
Proof.
  intros cfg env data text exchange symbol df l Hpng Hhtml Hdf Hne Hl.
  destruct (any_level l) eqn:Hany.
  - destruct (fallback_raises_with_a_level cfg env data text exchange l
                Hpng Hl Hany) as (e & E).
    rewrite E. reflexivity.
  - destruct (no_level_falsy l Hany) as (He & H1 & H2 & H3 & Hs).
    unfold generate_charts. rewrite Hdf, Hl. cbn [bind].
    rewrite !falsy_level_drawn by assumption. cbn [bind].
    rewrite Hpng. unfold text_summary. rewrite Hhtml. cbn [bind].
    pose proof (tail_nonempty 20 df ltac:(lia) Hne) as Ht.
    destruct (iloc_last_returns _ (map row_close (tail 20 df))) as (c & Ec).
    { intro E. apply map_eq_nil in E. contradiction. }
    destruct (iloc_last_returns _ (map row_open (tail 20 df))) as (o & Eo).
    { intro E. apply map_eq_nil in E. contradiction. }
    rewrite Ec, Eo. cbn [bind].
    assert (Hb : Forall bare (tail 20 df)).
    { apply Forall_skipn_list. eapply extract_df_bare; eauto. }
    destruct (bare_summaries cfg _ Hb) as [Er Ee]. rewrite Er, Ee.
    cbn [bind]. unfold levels_summary. fold (any_level l). rewrite Hany.
    reflexivity.
Qed.

Lemma fallback_summary_iff_no_level_witness :
  returns (generate_charts config_py png_fails sample_payload json_answer
             "bybit")
  = negb (any_level {| entry := PInt 100; tp1 := PInt 105; tp2 := PNone;
                       tp3 := PNone; sl := PInt 95; signal := PStr "BUY";
                       probability := PNone |}).
Proof.
  apply (fallback_summary_iff_no_level config_py png_fails sample_payload
           json_answer "bybit" "BTCUSDT" [drop_indicators sample_row]).
  - reflexivity.
  - reflexivity.
  - vm_compute. reflexivity.
  - discriminate.
  - vm_compute. reflexivity.
Defined.

(** X12.  With the screenshot saved, [generate_charts] returns the path
    exactly when each of the five levels is absent, zero or a number: a
    level given as text in a JSON answer makes [f"{entry:.2f}"] raise
    when its line is labelled. *)
Theorem chart_returns_iff_levels_are_numbers :
  forall cfg env data analysis_text exchange symbol df l,
  png_saved env = true ->
  extract_df data exchange = Ok (symbol, df) ->
  extract_trading_levels analysis_text = Ok l ->
  returns (generate_charts cfg env data analysis_text exchange)
  = forallb drawable (drawn_levels l).
Proof.
  intros cfg env data text exchange symbol df l Hpng Hdf Hl.
  unfold generate_charts, drawn_levels. rewrite Hdf, Hl. cbn [bind forallb].
  rewrite <- !add_hline_returns.
  destruct (add_hline_unit (entry l)) as [-> | (e & ->)]; [| reflexivity].
  destruct (add_hline_unit (tp1 l)) as [-> | (e & ->)]; [| reflexivity].
  destruct (add_hline_unit (tp2 l)) as [-> | (e & ->)]; [| reflexivity].
  destruct (add_hline_unit (tp3 l)) as [-> | (e & ->)]; [| reflexivity].
  destruct (add_hline_unit (sl l)) as [-> | (e & ->)]; [| reflexivity].
  cbn [bind returns andb]. rewrite Hpng. reflexivity.
Qed.

Lemma chart_returns_iff_levels_are_numbers_witness :
  returns (generate_charts config_py
             {| timestamp := "20240101_120000"; png_saved := true;
                html_saved := true |}
             sample_payload
             ("{" ++ quoted "signal" ++ ":" ++ quoted "buy" ++ ","
                  ++ quoted "entry" ++ ":" ++ quoted "100" ++ "}")
             "bybit")
  = forallb drawable
      (drawn_levels {| entry := PStr "100"; tp1 := PNone; tp2 := PNone;
                       tp3 := PNone; sl := PNone; signal := PStr "BUY";
                       probability := PNone |}).
Proof.
  apply (chart_returns_iff_levels_are_numbers config_py _ sample_payload _
           "bybit" "BTCUSDT" [drop_indicators sample_row]).
  - reflexivity.
  - vm_compute. reflexivity.
  - vm_compute. reflexivity.
Defined.

(** X13.  With no bar in the frame and the screenshot failing,
    [generate_charts] raises: [df['close'].iloc[-1]] of the summary has
    nothing to read ([IndexError] when no level is named and the HTML file
    is written). *)
Theorem empty_frame_fallback_raises :
  forall cfg env data analysis_text exchange symbol,
  png_saved env = false ->
  extract_df data exchange = Ok (symbol, []) ->
  (exists e, generate_charts cfg env data analysis_text exchange = Raise e)
  /\ (forall l, html_saved env = true ->
        extract_trading_levels analysis_text = Ok l ->
        any_level l = false ->
        generate_charts cfg env data analysis_text exchange
        = Raise IndexError).
Proof.
  intros cfg env data text exchange symbol Hpng Hdf.
  assert (Hspec : forall l, html_saved env = true ->
            extract_trading_levels text = Ok l -> any_level l = false ->
            generate_charts cfg env data text exchange = Raise IndexError).
  { intros l Hhtml Hl Hany.
    destruct (no_level_falsy l Hany) as (He & H1 & H2 & H3 & Hs).
    unfold generate_charts. rewrite Hdf, Hl. cbn [bind].
    rewrite !falsy_level_drawn by assumption. cbn [bind].
    rewrite Hpng. unfold text_summary. rewrite Hhtml. reflexivity. }
  split; [| exact Hspec].
  destruct (extract_trading_levels text) as [l | e] eqn:El.
  - destruct (any_level l) eqn:Hany.
    + eapply fallback_raises_with_a_level; eauto.
    + destruct (html_saved env) eqn:Hhtml.
      * eexists. eapply Hspec; eauto.
      * destruct (no_level_falsy l Hany) as (He & H1 & H2 & H3 & Hs).
        unfold generate_charts. rewrite Hdf, El. cbn [bind].
        rewrite !falsy_level_drawn by assumption. cbn [bind].
        rewrite Hpng. unfold text_summary. rewrite Hhtml. eexists.
        reflexivity.
  - unfold generate_charts. rewrite Hdf, El. eexists. reflexivity.
Qed.

Lemma empty_frame_fallback_raises_witness :
  generate_charts config_py png_fails (set_values (Records []) sample_payload)
    "" "bybit" = Raise IndexError.
Proof.
  apply (proj2 (empty_frame_fallback_raises config_py png_fails
                  (set_values (Records []) sample_payload) "" "bybit"
                  "BTCUSDT" eq_refl eq_refl) no_levels).
  - reflexivity.
  - vm_compute. reflexivity.
  - reflexivity.
Defined.

Lemma tail_app : forall n (older recent : list row),
  (n <= List.length recent)%nat -> tail n (older ++ recent) = tail n recent.
Proof.
  intros n older recent H. unfold tail. rewrite length_app.
  replace (List.length older + List.length recent - n)%nat
    with (List.length older + (List.length recent - n))%nat by lia.
  rewrite skipn_app.
  replace (List.length older + (List.length recent - n) - List.length older)%nat
    with (List.length recent - n)%nat by lia.
  rewrite skipn_all2 by lia. reflexivity.
Qed.

Lemma extract_df_bybit_records : forall rows data,
  extract_df (set_values (Records rows) data) "bybit"
  = (symbol <- getitem (result_symbol data) "result" ;;
     Ok (symbol, map drop_indicators rows)).
Proof. reflexivity. Qed.

(** X14.  The chart and the summary of a processed Bybit payload depend on
    its last twenty bars only: any number of older bars in front of them
    changes nothing in what [generate_charts] returns or raises. *)
Theorem chart_uses_last_twenty_bars :
  forall cfg env data analysis_text older recent,
  (20 <= List.length recent)%nat ->
  generate_charts cfg env (set_values (Records (older ++ recent)) data)
    analysis_text "bybit"
  = generate_charts cfg env (set_values (Records recent) data)
      analysis_text "bybit".
Proof.
  intros cfg env data text older recent H.
  unfold generate_charts. rewrite !extract_df_bybit_records.
  destruct (result_symbol data) as [symbol |]; [| reflexivity].
  cbn [getitem bind].
  rewrite map_app, tail_app by (rewrite length_map; exact H). reflexivity.
Qed.

Lemma chart_uses_last_twenty_bars_witness :
  generate_charts config_py png_fails
    (set_values (Records ([sample_row] ++ repeat sample_row 20))
       sample_payload) "" "bybit"
  = generate_charts config_py png_fails
      (set_values (Records (repeat sample_row 20)) sample_payload) "" "bybit".
Proof.
  apply (chart_uses_last_twenty_bars config_py png_fails sample_payload ""
           [sample_row] (repeat sample_row 20)).
  simpl. lia.
Defined.

(* ================================================================= *)
(** * Further properties of the normalizers *)

Lemma dict_get_set_same : forall d key v,
  Json.dict_get (Json.dict_set d key v) key = Some v.
Proof.
  intros d key v. induction d as [| [k x] d IH]; simpl.
  - rewrite String.eqb_refl. reflexivity.
  - destruct (k =? key)%string eqn:E; simpl; rewrite E; auto.
Qed.

Lemma dict_get_set_kept : forall d key v name,
  Json.dict_get d name <> None ->
  Json.dict_get (Json.dict_set d key v) name <> None.
Proof.
  intros d key v name. induction d as [| [k x] d IH]; simpl; intro H.
  - contradiction.
  - destruct (k =? key)%string eqn:E; simpl.
    + destruct (k =? name)%string; [discriminate | assumption].
    + destruct (k =? name)%string; [discriminate | auto].
Qed.

Lemma with_indicator_has_cell : forall name v r,
  has_cell name (with_indicator name v r) = true.
Proof.
  intros name v r. unfold has_cell, with_indicator. simpl.
  rewrite dict_get_set_same. reflexivity.
Qed.

Lemma with_indicator_keeps_cell : forall name v r other,
  has_cell other r = true -> has_cell other (with_indicator name v r) = true.
Proof.
  intros name v r other H. unfold has_cell in *. simpl.
  pose proof (dict_get_set_kept (indicators r) name v other) as K.
  destruct (Json.dict_get (indicators r) other); [| discriminate].
  destruct (Json.dict_get (Json.dict_set (indicators r) name v) other);
    [reflexivity |].
  exfalso. apply K; [discriminate | reflexivity].
Qed.

Lemma zip_column_written : forall name col df df',
  zip_column name col df = Ok df' -> column_written name df df'.
Proof.
  intros name col. induction col as [| x col IH]; intros df df' H;
    destruct df as [| r df]; simpl in H; try discriminate.
  - inversion H. repeat split; auto.
  - step_bind H rest Er. inversion H; subst.
    destruct (IH _ _ Er) as (Hb & Hc & Hk). repeat split.
    + simpl. rewrite Hb. reflexivity.
    + constructor; [apply with_indicator_has_cell | assumption].
    + intros other Ho. inversion Ho; subst. constructor.
      * apply with_indicator_keeps_cell. assumption.
      * apply Hk. assumption.
Qed.

Lemma set_column_written : forall name col df df',
  set_column name col df = Ok df' -> column_written name df df'.
Proof.
  intros name [c |] df df' H; simpl in H.
  - eapply zip_column_written; eauto.
  - inversion H. clear. induction df as [| r df IH].
    + repeat split; auto.
    + destruct IH as (Hb & Hc & Hk). repeat split.
      * simpl. rewrite Hb. reflexivity.
      * constructor; [apply with_indicator_has_cell | assumption].
      * intros other Ho. inversion Ho; subst. constructor.
        -- apply with_indicator_keeps_cell. assumption.
        -- apply Hk. assumption.
Qed.

Lemma add_emas_written : forall ta periods df df',
  add_emas ta periods df = Ok df' ->
  map drop_indicators df' = map drop_indicators df
  /\ (forall period, In period periods ->
        Forall (fun r => has_cell ("ema_" ++ string_of_nat period) r = true) df')
  /\ forall other, Forall (fun r => has_cell other r = true) df ->
                   Forall (fun r => has_cell other r = true) df'.
Proof.
  intros ta periods. induction periods as [| p periods IH]; intros df df' H;
    simpl in H.
  - inversion H. repeat split; auto. intros period [].
  - step_bind H d1 E1.
    destruct (set_column_written _ _ _ _ E1) as (Hb1 & Hc1 & Hk1).
    destruct (IH _ _ H) as (Hb & Hc & Hk). repeat split.
    + rewrite Hb. assumption.
    + intros period [<- | Hin]; [apply Hk; assumption | auto].
    + intros other Ho. auto.
Qed.

(** X15.  [add_technical_indicators] only adds columns: the bars of the
    frame it returns are the bars it was given, in the same order, and
    every row has a cell in each of the columns [ema_<period>], [rsi],
    [price_change], [price_change_pct], [volatility] and [sma_20]. *)
Theorem indicators_only_add_columns : forall ta cfg df df',
  add_technical_indicators ta cfg df = Ok df' ->
  map drop_indicators df' = map drop_indicators df
  /\ forall name, In name (indicator_columns cfg) ->
       Forall (fun r => has_cell name r = true) df'.
Proof.
  intros ta cfg df df' H. unfold add_technical_indicators in H.
  step_bind H d1 E1. step_bind H d2 E2. step_bind H d3 E3.
  step_bind H d4 E4. step_bind H d5 E5. step_bind H d6 E6.
  inversion H; subst d6. clear H.
  destruct (add_emas_written _ _ _ _ E1) as (B1 & C1 & K1).
  destruct (set_column_written _ _ _ _ E2) as (B2 & C2 & K2).
  destruct (set_column_written _ _ _ _ E3) as (B3 & C3 & K3).
  destruct (set_column_written _ _ _ _ E4) as (B4 & C4 & K4).
  destruct (set_column_written _ _ _ _ E5) as (B5 & C5 & K5).
  destruct (set_column_written _ _ _ _ E6) as (B6 & C6 & K6).
  split.
  - congruence.
  - intros name Hin. unfold indicator_columns in Hin.
    apply in_app_or in Hin. destruct Hin as [Hin | Hin].
    + apply in_map_iff in Hin. destruct Hin as (period & <- & Hp).
      apply K6, K5, K4, K3, K2, C1. assumption.
    + simpl in Hin.
      destruct Hin as [<- | [<- | [<- | [<- | [<- | []]]]]]; auto 10.
Qed.

Lemma indicators_only_add_columns_witness :
  exists df',
    add_technical_indicators ta_declines config_py [sample_row] = Ok df'
    /\ map drop_indicators df' = map drop_indicators [sample_row]
    /\ Forall (fun r => has_cell "ema_200" r = true) df'.
Proof.
  destruct (add_technical_indicators ta_declines config_py [sample_row])
    as [df' |] eqn:E; [| vm_compute in E; discriminate].
  exists df'. split; [reflexivity |].
  destruct (indicators_only_add_columns ta_declines config_py [sample_row]
              df' E) as [Hb Hc].
  split; [exact Hb |]. apply Hc. vm_compute. tauto.
Defined.

Lemma map_insert_by : forall (A : Type) (key : A -> Z) x l,
  map key (insert_by key x l) = insert_by (fun t => t) (key x) (map key l).
Proof.
  intros A key x l. induction l as [| y l IH]; simpl; [reflexivity |].
  destruct (key x <=? key y); simpl; [reflexivity | rewrite IH; reflexivity].
Qed.

Lemma map_sort_values : forall (A : Type) (key : A -> Z) l,
  map key (sort_values key l) = sort_values (fun t => t) (map key l).
Proof.
  intros A key l. unfold sort_values. induction l as [| x l IH]; simpl;
    [reflexivity |].
  rewrite map_insert_by, IH. reflexivity.
Qed.

Lemma trim_warmup_datetimes : forall m df,
  map row_datetime (trim_warmup m df) = after_warmup m (map row_datetime df).
Proof.
  intros m df. unfold trim_warmup, after_warmup. rewrite length_map.
  destruct (m <? List.length df)%nat; [symmetry; apply skipn_map | reflexivity].
Qed.

Lemma after_warmup_map : forall (f : Z -> Z) m ts,
  map f (after_warmup m ts) = after_warmup m (map f ts).
Proof.
  intros f m ts. unfold after_warmup. rewrite length_map.
  destruct (m <? List.length ts)%nat; [symmetry; apply skipn_map | reflexivity].
Qed.

(** X16.  The series a normalizer writes holds the bars of the response in
    ascending order of time, without the oldest [max(EMA_PERIODS)] of them
    when the response has more bars than that, and all of them
    otherwise. *)
Theorem series_is_sorted_input_after_warmup :
  forall ta cfg data out bars max_period,
  py_max (EMA_PERIODS cfg) = Ok max_period ->
  (values data = Some (Raw bars) -> accepted data = true ->
   twelvedata_body ta cfg data = Ok out ->
   timestamps out
   = map strftime_seconds (after_warmup max_period (sorted_instants bars)))
  /\ (result_list data = Some bars ->
      bybit_ok_branch ta cfg data = Ok out ->
      timestamps out
      = map strftime_seconds (after_warmup max_period (sorted_instants bars))).
Proof.
  intros ta cfg data out bars m Hm. split.
  - intros Hv Ha H. unfold twelvedata_body in H. unfold accepted in Ha.
    rewrite Hv in *. destruct (status data) as [st |]; [| discriminate].
    cbn [getitem bind] in H. rewrite Ha in H.
    step_bind H d1 E1. step_bind H d2 E2. rewrite Hm in H.
    cbn [bind] in H. inversion H. unfold timestamps. cbn [values set_values].
    rewrite map_map. cbn [row_datetime set_datetime].
    rewrite <- (map_map row_datetime strftime_seconds).
    rewrite trim_warmup_datetimes.
    rewrite (add_technical_indicators_datetimes _ _ _ _ E2).
    unfold sorted_frame in E1.
    destruct (is_empty_values (Raw bars)); [discriminate |].
    rewrite (typed_bars_datetimes _ _ _ _ E1).
    rewrite map_sort_values. reflexivity.
  - intros Hr H. unfold bybit_ok_branch in H. rewrite Hr in H.
    cbn [getitem bind] in H.
    step_bind H d1 E1. step_bind H d2 E2. rewrite Hm in H.
    cbn [bind] in H. inversion H. unfold timestamps. cbn [values set_values].
    rewrite trim_warmup_datetimes.
    rewrite (add_technical_indicators_datetimes _ _ _ _ E2).
    rewrite (typed_bars_datetimes comma_decimal_float
               (fun b => strftime_seconds (raw_datetime b)) _ _ E1).
    rewrite <- (map_map raw_datetime strftime_seconds).
    rewrite map_sort_values. rewrite <- after_warmup_map. reflexivity.
Qed.

Lemma series_is_sorted_input_after_warmup_witness :
  exists out,
    bybit_ok_branch ta_declines config_py bybit_success = Ok out
    /\ timestamps out = [60; 120].
Proof.
  destruct (bybit_ok_branch ta_declines config_py bybit_success)
    as [out |] eqn:E; [| vm_compute in E; discriminate].
  exists out. split; [reflexivity |].
  apply (proj2 (series_is_sorted_input_after_warmup ta_declines config_py
                  bybit_success out
                  [minute_bar 120000 "17131.64"; minute_bar 60000 "17164.16"]
                  200%nat eq_refl) eq_refl E).
Defined.

(** ** The loops *)

Lemma twelvedata_loop_mapM : forall ta cfg fetch symbols json_data,
  twelvedata_loop ta cfg fetch symbols json_data
  = (outs <- mapM (fun s => twelvedata_body ta cfg (fetch s)) symbols ;;
     Ok (json_data ++ outs)%list).
Proof.
  intros ta cfg fetch symbols.
  induction symbols as [| s rest IH]; intro acc; simpl.
  - rewrite app_nil_r. reflexivity.
  - destruct (twelvedata_body ta cfg (fetch s)) as [d | e]; cbn [bind];
      [| reflexivity].
    rewrite IH.
    destruct (mapM _ rest) as [outs | e]; cbn [bind]; [| reflexivity].
    rewrite <- app_assoc. reflexivity.
Qed.

Lemma mapM_Forall2 : forall (A B : Type) (f : A -> result B) l outs,
  mapM f l = Ok outs -> Forall2 (fun a b => f a = Ok b) l outs.
Proof.
  intros A B f l. induction l as [| a l IH]; intros outs H; simpl in H.
  - inversion H. constructor.
  - step_bind H b Eb. step_bind H bs Ebs. inversion H. constructor; auto.
Qed.

Lemma mapM_raises : forall (A B : Type) (f : A -> result B) l a e,
  In a l -> f a = Raise e -> exists e', mapM f l = Raise e'.
Proof.
  intros A B f l a e. induction l as [| x l IH]; intros Hin Ha; [contradiction |].
  simpl. destruct (f x) as [b | e'] eqn:Ex; cbn [bind]; [| eauto].
  destruct Hin as [-> | Hin]; [congruence |].
  destruct (IH Hin Ha) as (e' & ->). cbn [bind]. eauto.
Qed.

Lemma twelvedata_body_answers : forall ta cfg data out,
  twelvedata_body ta cfg data = Ok out -> answers data out.
Proof.
  intros ta cfg data out H. unfold twelvedata_body in H.
  unfold answers, accepted.
  destruct (values data) as [v |]; [| inversion H; auto].
  destruct (status data) as [st |] eqn:Est; [| discriminate].
  cbn [getitem bind] in H. destruct (st =? "ok")%string.
  - step_bind H d1 E1. step_bind H d2 E2. step_bind H m Em.
    inversion H. cbn. auto.
  - inversion H; subst. auto.
Qed.

(** X17.  [get_symbol_data] and [get_coin_data] answer symbol by symbol:
    the list they return has one payload per symbol, in the order of the
    symbols; each keeps the status, the message and the meta data of its
    response, carries a normalized series when the response was accepted
    and is the response itself when it was not. *)
Theorem twelvedata_results_follow_symbols :
  forall ta cfg fetch symbols outs,
  get_symbol_data ta cfg fetch symbols = Ok outs
  \/ get_coin_data ta cfg fetch symbols = Ok outs ->
  Forall2 (fun symbol out => answers (fetch symbol) out) symbols outs.
Proof.
  intros ta cfg fetch symbols outs H.
  assert (H' : twelvedata_loop ta cfg fetch symbols [] = Ok outs)
    by (destruct H; assumption).
  rewrite twelvedata_loop_mapM in H'. step_bind H' os Eos.
  assert (os = outs) by (simpl in H'; congruence). subst os.
  apply mapM_Forall2 in Eos.
  eapply Forall2_impl; [| exact Eos].
  intros symbol out Hb. exact (twelvedata_body_answers _ _ _ _ Hb).
Qed.

Lemma twelvedata_results_follow_symbols_witness :
  Forall2 (fun symbol out => answers twelvedata_error out) ["EUR/USDX"]
    [twelvedata_error].
Proof.
  apply (twelvedata_results_follow_symbols ta_declines config_py
           (fun _ => twelvedata_error)).
  left. reflexivity.
Defined.

(** X18.  An accepted response with an empty series stops the whole call:
    its frame has no column [datetime], the [KeyError] is not caught, and
    what was fetched for the other symbols is lost. *)
Theorem empty_series_aborts_the_fetch :
  forall ta cfg fetch symbols symbol v,
  In symbol symbols ->
  status (fetch symbol) = Some "ok" ->
  values (fetch symbol) = Some v -> is_empty_values v = true ->
  twelvedata_body ta cfg (fetch symbol) = Raise (KeyError "datetime")
  /\ (exists e, get_symbol_data ta cfg fetch symbols = Raise e)
  /\ (exists e, get_coin_data ta cfg fetch symbols = Raise e).
Proof.
  intros ta cfg fetch symbols symbol v Hin Hs Hv He.
  assert (Hb : twelvedata_body ta cfg (fetch symbol)
               = Raise (KeyError "datetime")).
  { unfold twelvedata_body. rewrite Hv, Hs. cbn [getitem bind].
    cbn [String.eqb Ascii.eqb Bool.eqb]. unfold sorted_frame. rewrite He.
    reflexivity. }
  assert (Hl : exists e, twelvedata_loop ta cfg fetch symbols [] = Raise e).
  { rewrite twelvedata_loop_mapM.
    destruct (mapM_raises _ _ (fun s => twelvedata_body ta cfg (fetch s))
                symbols symbol _ Hin Hb) as (e & ->).
    eexists. reflexivity. }
  auto.
Qed.

Lemma empty_series_aborts_the_fetch_witness :
  exists e,
    get_symbol_data ta_declines config_py
      (fun symbol => if (symbol =? "EUR/USD")%string then duplicate_payload
                     else set_values (Raw []) duplicate_payload)
      ["EUR/USD"; "GBP/USD"] = Raise e.
Proof.
  apply (proj1 (proj2 (empty_series_aborts_the_fetch ta_declines config_py
           (fun symbol => if (symbol =? "EUR/USD")%string then duplicate_payload
                          else set_values (Raw []) duplicate_payload)
           ["EUR/USD"; "GBP/USD"] "GBP/USD" (Raw [])
           (or_intror (or_introl eq_refl)) eq_refl eq_refl eq_refl))).
Defined.

Lemma mapM_raise_from : forall (A B : Type) (f : A -> result B) l e,
  mapM f l = Raise e -> exists a, In a l /\ f a = Raise e.
Proof.
  intros A B f l e. induction l as [| x l IH]; intro H; simpl in H;
    [discriminate |].
  destruct (f x) as [b | e'] eqn:Ex; cbn [bind] in H.
  - destruct (mapM f l) as [bs | e'']; cbn [bind] in H; [discriminate |].
    destruct IH as (a & Hin & Ha); [assumption |].
    exists a. split; [right; assumption | assumption].
  - exists x. split; [left; reflexivity | congruence].
Qed.

Lemma typed_bar_raises : forall convert t b e,
  typed_bar convert t b = Raise e -> exists s, convert s = Raise e.
Proof.
  intros convert t b e H. unfold typed_bar in H.
  destruct (convert (raw_open b)) eqn:E1; cbn [bind] in H;
    [| exists (raw_open b); congruence].
  destruct (convert (raw_high b)) eqn:E2; cbn [bind] in H;
    [| exists (raw_high b); congruence].
  destruct (convert (raw_low b)) eqn:E3; cbn [bind] in H;
    [| exists (raw_low b); congruence].
  destruct (convert (raw_close b)) eqn:E4; cbn [bind] in H;
    [discriminate | exists (raw_close b); congruence].
Qed.

Lemma zip_column_raises : forall name col df e,
  zip_column name col df = Raise e -> e = ValueError.
Proof.
  intros name col. induction col as [| x col IH]; intros df e H;
    destruct df as [| r df]; simpl in H; try congruence.
  destruct (zip_column name col df) eqn:E; cbn [bind] in H;
    [discriminate |].
  apply (IH df). congruence.
Qed.

Lemma set_column_raises : forall name col df e,
  set_column name col df = Raise e -> e = ValueError.
Proof.
  intros name [c |] df e H; simpl in H; [| discriminate].
  eapply zip_column_raises; eauto.
Qed.

Lemma add_emas_raises : forall ta periods df e,
  add_emas ta periods df = Raise e -> e = ValueError.
Proof.
  intros ta periods. induction periods as [| p periods IH]; intros df e H;
    simpl in H; [discriminate |].
  destruct (set_column _ _ df) eqn:E; cbn [bind] in H.
  - eapply IH; eauto.
  - apply set_column_raises in E. congruence.
Qed.

(** The step [m] of [x <- m ;; k = Raise e] raised [e], or returned. *)
Ltac step_raise H a E :=
  match type of H with
  | bind ?m _ = Raise _ =>
      destruct m as [a | a] eqn:E; cbn [bind] in H;
      [| injection H as H; subst a]
  end.

Lemma add_technical_indicators_raises : forall ta cfg df e,
  add_technical_indicators ta cfg df = Raise e -> e = ValueError.
Proof.
  intros ta cfg df e H. unfold add_technical_indicators in H.
  step_raise H d1 E1; [| apply add_emas_raises in E1; congruence].
  step_raise H d2 E2; [| apply set_column_raises in E2; congruence].
  step_raise H d3 E3; [| apply set_column_raises in E3; congruence].
  step_raise H d4 E4; [| apply set_column_raises in E4; congruence].
  step_raise H d5 E5; [| apply set_column_raises in E5; congruence].
  step_raise H d6 E6; [| apply set_column_raises in E6; congruence].
  discriminate.
Qed.

Lemma getitem_raises : forall (A : Type) (field : option A) key e,
  getitem field key = Raise e -> e = KeyError key.
Proof. intros A [a |] key e H; simpl in H; congruence. Qed.

Lemma py_max_raises : forall l e, py_max l = Raise e -> e = ValueError.
Proof. intros [| x l] e H; simpl in H; congruence. Qed.

Lemma bybit_ok_branch_raises : forall ta cfg data e,
  bybit_ok_branch ta cfg data = Raise e -> is_plain_exception e = false.
Proof.
  intros ta cfg data e H. unfold bybit_ok_branch in H.
  step_raise H bars E0; [| apply getitem_raises in E0; subst; reflexivity].
  step_raise H d1 E1.
  - step_raise H d2 E2;
      [| apply add_technical_indicators_raises in E2; subst; reflexivity].
    step_raise H m Em; [discriminate |].
    apply py_max_raises in Em. subst. reflexivity.
  - apply mapM_raise_from in E1. destruct E1 as (b & _ & Eb).
    apply typed_bar_raises in Eb. destruct Eb as (s & Es).
    unfold comma_decimal_float in Es.
    apply py_float_raises_value_error in Es. subst. reflexivity.
Qed.

Lemma bybit_ok_branch_answers : forall ta cfg data out,
  bybit_ok_branch ta cfg data = Ok out ->
  retMsg out = retMsg data /\ result_symbol out = result_symbol data
  /\ has_series out = true.
Proof.
  intros ta cfg data out H. unfold bybit_ok_branch in H.
  step_bind H bars E0. step_bind H d1 E1. step_bind H d2 E2.
  step_bind H m Em. inversion H. cbn. auto.
Qed.

Lemma assoc_get_raises : forall d key e,
  assoc_get d key = Raise e -> e = KeyError key.
Proof.
  intros d key e. induction d as [| [k v] d IH]; simpl; intro H.
  - congruence.
  - destruct (k =? key)%string; [discriminate | auto].
Qed.

Lemma bybit_loop_message :
  forall ta cfg fetch interval coins json_data m,
  Forall (fun out => retMsg out = Some "OK") json_data ->
  bybit_loop ta cfg fetch interval coins json_data = Raise (Exception m) ->
  m = "Error: OK".
Proof.
  intros ta cfg fetch interval coins.
  induction coins as [| coin rest IH]; intros acc m Hacc H;
    cbn [bybit_loop] in H; [discriminate |].
  step_raise H code Ec; [| apply assoc_get_raises in Ec; congruence].
  step_raise H msg Em; [| apply getitem_raises in Em; congruence].
  destruct (msg =? "OK")%string eqn:Emsg.
  - step_raise H data' Ed.
    + apply (IH (acc ++ [data'])%list); [| assumption].
      apply Forall_app. split; [assumption |]. constructor; [| constructor].
      destruct (bybit_ok_branch_answers _ _ _ _ Ed) as (Hr & _).
      rewrite Hr. destruct (retMsg (fetch coin code)); [| discriminate].
      simpl in Em. apply String.eqb_eq in Emsg. congruence.
    + apply bybit_ok_branch_raises in Ed. discriminate.
  - destruct acc as [| first acc']; [discriminate |].
    inversion Hacc as [| ? ? Hfirst _]; subst. rewrite Hfirst in H.
    simpl in H. congruence.
Qed.

(** X19.  The error [get_bybit_coin_data] raises for a failed response never
    names the cause: the message is built from the first payload that was
    accepted, so it reads ["Error: OK"], and when the first coin fails
    there is no such payload and [IndexError] is raised instead. *)
Theorem bybit_error_never_names_the_cause :
  forall ta cfg fetch interval coins,
  (forall m,
     get_bybit_coin_data ta cfg fetch interval coins = Raise (Exception m) ->
     m = "Error: OK")
  /\ (forall coin rest code msg,
        coins = coin :: rest ->
        assoc_get interval_map interval = Ok code ->
        retMsg (fetch coin code) = Some msg -> msg <> "OK" ->
        get_bybit_coin_data ta cfg fetch interval coins = Raise IndexError).
Proof.
  intros ta cfg fetch interval coins. split.
  - intros m H. eapply bybit_loop_message; [| exact H]. constructor.
  - intros coin rest code msg -> Hc Hm Hne.
    unfold get_bybit_coin_data. cbn [bybit_loop]. rewrite Hc. cbn [bind].
    rewrite Hm. cbn [getitem bind].
    destruct (String.eqb_spec msg "OK"); [contradiction | reflexivity].
Qed.

Lemma bybit_error_never_names_the_cause_witness :
  get_bybit_coin_data ta_declines config_py (fun _ _ => bybit_error) "15min"
    ["BTCUSDX"; "ETHUSDT"] = Raise IndexError.
Proof.
  apply (proj2 (bybit_error_never_names_the_cause ta_declines config_py
                  (fun _ _ => bybit_error) "15min" ["BTCUSDX"; "ETHUSDT"])
           "BTCUSDX" ["ETHUSDT"] "15" "Symbol Is Invalid").
  - reflexivity.
  - reflexivity.
  - reflexivity.
  - discriminate.
Defined.

Lemma bybit_loop_follows :
  forall ta cfg fetch interval coins json_data outs,
  bybit_loop ta cfg fetch interval coins json_data = Ok outs ->
  exists added,
    outs = (json_data ++ added)%list
    /\ Forall2 (fun coin out =>
                  exists code, assoc_get interval_map interval = Ok code
                               /\ bybit_answers (fetch coin code) out)
         coins added.
Proof.
  intros ta cfg fetch interval coins.
  induction coins as [| coin rest IH]; intros acc outs H;
    cbn [bybit_loop] in H.
  - inversion H. exists []. rewrite app_nil_r. split; [reflexivity | constructor].
  - step_bind H code Ec. step_bind H msg Em.
    destruct (msg =? "OK")%string eqn:Emsg.
    + step_bind H data' Ed. destruct (IH _ _ H) as (added & -> & HF).
      exists (data' :: added). rewrite <- app_assoc. split; [reflexivity |].
      constructor; [| assumption].
      exists code. split; [reflexivity |].
      destruct (bybit_ok_branch_answers _ _ _ _ Ed) as (Hr & Hs & Hv).
      assert (HOK : retMsg (fetch coin code) = Some "OK").
      { destruct (retMsg (fetch coin code)); [| discriminate].
        simpl in Em. apply String.eqb_eq in Emsg. congruence. }
      unfold bybit_answers. rewrite Hr. auto.
    + destruct acc as [| first acc']; [discriminate |].
      destruct (retMsg first); discriminate.
Qed.

(** X20.  What [get_bybit_coin_data] returns has one payload per coin, in
    the order of the coins, and each of them is an accepted response
    ([retMsg] is ["OK"]) for that coin with a normalized series: unlike
    the twelvedata path, no failed response is ever passed on. *)
Theorem bybit_results_follow_coins :
  forall ta cfg fetch interval coins outs,
  get_bybit_coin_data ta cfg fetch interval coins = Ok outs ->
  Forall2 (fun coin out =>
             exists code, assoc_get interval_map interval = Ok code
                          /\ bybit_answers (fetch coin code) out)
    coins outs.
Proof.
  intros ta cfg fetch interval coins outs H.
  destruct (bybit_loop_follows _ _ _ _ _ _ _ H) as (added & -> & HF).
  exact HF.
Qed.

Lemma bybit_results_follow_coins_witness :
  exists out,
    get_bybit_coin_data ta_declines config_py (fun _ _ => bybit_success)
      "15min" ["BTCUSDT"] = Ok [out]
    /\ Forall2 (fun coin out =>
                  exists code, assoc_get interval_map "15min" = Ok code
                               /\ bybit_answers bybit_success out)
         ["BTCUSDT"] [out].
Proof.
  destruct (get_bybit_coin_data ta_declines config_py
              (fun _ _ => bybit_success) "15min" ["BTCUSDT"])
    as [[| out [| ? ?]] |] eqn:E; try (vm_compute in E; discriminate).
  exists out. split; [reflexivity |].
  exact (bybit_results_follow_coins ta_declines config_py
           (fun _ _ => bybit_success) "15min" ["BTCUSDT"] [out] E).
Defined.

(* ================================================================= *)
(** * [decode_message] and the JSON phase of [extract_trading_levels] *)














(* ================================================================= *)
(** * [get_instrument_information] *)

(** X24.  [get_instrument_information] reads the filters of the first
    instrument before it looks at [retMsg]: the message of a failed request
    is reported only when the answer nevertheless lists an instrument with
    both filters, and an answer with an empty result raises [KeyError] or
    [IndexError] whatever its [retMsg] says.  What it returns has the five
    keys, from an answer whose [retMsg] is ["OK"]. *)
Theorem instrument_error_is_reported_late : forall data,
  (forall m,
     get_instrument_information data = Raise (Exception m) ->
     exists i rest q lv msg,
       info_result data = Some (Some (i :: rest))
       /\ lotSizeFilter i = Some q /\ leverageFilter i = Some lv
       /\ info_retMsg data = Some msg /\ msg <> "OK"
       /\ m = "Error: " ++ msg)
  /\ (info_result data = Some None ->
      get_instrument_information data = Raise (KeyError "list"))
  /\ (info_result data = Some (Some []) ->
      get_instrument_information data = Raise IndexError)
  /\ (forall d,
        get_instrument_information data = Ok d ->
        info_retMsg data = Some "OK"
        /\ map fst d = ["minOrderQty"; "maxOrderQty"; "qtyStep";
                        "minLeverage"; "maxLeverage"]).
Proof.
  intro data. unfold get_instrument_information. repeat split.
  - intros m H.
    destruct (info_result data) as [[[| i rest] |] |];
      cbn [getitem first_item bind] in H; try discriminate H.
    destruct (lotSizeFilter i) as [q |] eqn:Eqty;
      cbn [getitem bind] in H; [| discriminate H].
    destruct (leverageFilter i) as [lv |] eqn:Elv;
      cbn [getitem bind] in H; [| discriminate H].
    destruct (info_retMsg data) as [msg |];
      cbn [getitem bind] in H; [| discriminate H].
    destruct (String.eqb_spec msg "OK") as [E | Hne].
    + exfalso.
      repeat match type of H with
             | bind (getitem ?o _) _ = _ =>
                 destruct o; cbn [getitem bind] in H; [| discriminate H]
             end.
      discriminate H.
    + injection H as <-. exists i, rest, q, lv, msg. repeat split; auto.
  - intros ->. reflexivity.
  - intros ->. reflexivity.
  - step_bind H r Er. step_bind H l El. step_bind H i Ei.
    step_bind H q Eqt. step_bind H lv Elv. step_bind H msg Em.
    destruct (String.eqb_spec msg "OK") as [-> | Hne]; [| discriminate].
    destruct (info_retMsg data); [| discriminate]. simpl in Em. congruence.
  - step_bind H r Er. step_bind H l El. step_bind H i Ei.
    step_bind H q Eqt. step_bind H lv Elv. step_bind H msg Em.
    destruct (msg =? "OK")%string; [| discriminate].
    step_bind H a Ea. step_bind H b Eb. step_bind H c Ec.
    step_bind H d' Ed. step_bind H e Ee. inversion H. reflexivity.
Qed.

Lemma instrument_error_is_reported_late_witness :
  get_instrument_information instruments_error = Raise (KeyError "list").
Proof.
  apply (proj1 (proj2 (instrument_error_is_reported_late instruments_error))).
  reflexivity.
Defined.

(* ================================================================= *)
(** * [make_prompt] and [run] *)

(** X25.  The prompt is written from the last hundred values only: any
    number of older rows in front of them leaves [make_prompt] as it
    is. *)
Theorem prompt_uses_last_hundred_values :
  forall dumps data contxt exchange older recent,
  (100 <= List.length recent)%nat ->
  make_prompt dumps (set_values (Records (older ++ recent)) data) contxt
    exchange
  = make_prompt dumps (set_values (Records recent) data) contxt exchange.
Proof.
  intros dumps data contxt exchange older recent H. unfold make_prompt.
  cbn [values set_values result_symbol meta_symbol getitem].
  assert (He : is_empty_values (Records (older ++ recent)) = false
               /\ is_empty_values (Records recent) = false).
  { destruct recent as [| r recent]; [simpl in H; lia |].
    split; [| reflexivity]. destruct older; reflexivity. }
  destruct He as [He1 He2].
  assert (Hl : last_values 100 (Records (older ++ recent))
               = last_values 100 (Records recent)).
  { cbn [last_values]. rewrite tail_app by exact H. reflexivity. }
  destruct (exchange =? "bybit")%string.
  - destruct (result_symbol data); cbn [getitem bind]; [| reflexivity].
    rewrite He1, He2, Hl. reflexivity.
  - destruct (meta_symbol data); cbn [getitem bind]; [| reflexivity].
    rewrite He1, He2, Hl. reflexivity.
Qed.

Lemma prompt_uses_last_hundred_values_witness :
  make_prompt (fun _ => "{}")
    (set_values (Records ([sample_row] ++ repeat sample_row 100))
       sample_payload) "crypto" "bybit"
  = make_prompt (fun _ => "{}")
      (set_values (Records (repeat sample_row 100)) sample_payload)
      "crypto" "bybit".
Proof.
  apply (prompt_uses_last_hundred_values (fun _ => "{}") sample_payload
           "crypto" "bybit" [sample_row] (repeat sample_row 100)).
  rewrite repeat_length. lia.
Defined.

Lemma run_loop_first_raises : forall report symbol rest e,
  report symbol = Raise e ->
  run_loop report (symbol :: rest) [] = ([], Raise e).
Proof. intros report symbol rest e H. simpl. rewrite H. reflexivity. Qed.

Lemma run_loop_raises : forall report data symbol e outbox,
  In symbol data -> report symbol = Raise e ->
  exists e', snd (run_loop report data outbox) = Raise e'.
Proof.
  intros report data symbol e. induction data as [| x data IH];
    intros outbox Hin He; [contradiction |].
  simpl. destruct (report x) as [messages | e'] eqn:Ex; [| simpl; eauto].
  destruct Hin as [-> | Hin]; [congruence | auto].
Qed.

Lemma twelvedata_body_result_symbol : forall ta cfg data out,
  twelvedata_body ta cfg data = Ok out ->
  result_symbol out = result_symbol data.
Proof.
  intros ta cfg data out H. unfold twelvedata_body in H.
  destruct (values data) as [v |]; [| inversion H; auto].
  destruct (status data) as [st |]; [| discriminate].
  cbn [getitem bind] in H. destruct (st =? "ok")%string.
  - step_bind H d1 E1. step_bind H d2 E2. step_bind H m Em.
    inversion H. reflexivity.
  - inversion H; subst. reflexivity.
Qed.

Lemma symbol_report_needs_result : forall cfg w contxt symbol,
  result_symbol symbol = None ->
  symbol_report cfg w contxt "bybit" symbol = Raise (KeyError "result").
Proof.
  intros cfg w contxt symbol H. unfold symbol_report, ask_grok, make_prompt.
  cbn [String.eqb Ascii.eqb Bool.eqb]. rewrite H. reflexivity.
Qed.

Lemma symbol_report_needs_meta : forall cfg w contxt exchange symbol,
  exchange <> "bybit" -> meta_symbol symbol = None ->
  symbol_report cfg w contxt exchange symbol = Raise (KeyError "meta").
Proof.
  intros cfg w contxt exchange symbol Hx H.
  unfold symbol_report, ask_grok, make_prompt.
  destruct (String.eqb_spec exchange "bybit"); [contradiction |].
  rewrite H. reflexivity.
Qed.

(** X26.  [run("forex")] with the default exchange ["bybit"] sends nothing:
    the payloads come from twelvedata and have no ['result'], which the
    prompt of the first of them asks for, so the call ends in
    [KeyError('result')]. *)
Theorem forex_run_needs_another_exchange : forall ta cfg wl w outs,
  SYMBOLS wl <> [] ->
  (forall symbol, result_symbol (forex_response w symbol) = None) ->
  get_symbol_data ta cfg (forex_response w) (SYMBOLS wl) = Ok outs ->
  run ta cfg wl w "forex" "bybit" = ([], Raise (KeyError "result")).
Proof.
  intros ta cfg wl w outs Hne Hr Hd. unfold run.
  cbn [String.eqb Ascii.eqb Bool.eqb]. rewrite Hd.
  unfold get_symbol_data in Hd. rewrite twelvedata_loop_mapM in Hd.
  step_bind Hd os Eos. assert (os = outs) by (simpl in Hd; congruence).
  subst os. apply mapM_Forall2 in Eos.
  destruct Eos as [| symbol out symbols outs' Hb _]; [contradiction |].
  apply run_loop_first_raises. apply symbol_report_needs_result.
  rewrite (twelvedata_body_result_symbol _ _ _ _ Hb). apply Hr.
Qed.

Lemma forex_run_needs_another_exchange_witness :
  run ta_declines config_py watchlist_py twelvedata_down "forex" "bybit"
  = ([], Raise (KeyError "result")).
Proof.
  apply (forex_run_needs_another_exchange ta_declines config_py watchlist_py
           twelvedata_down [twelvedata_error; twelvedata_error]).
  - discriminate.
  - reflexivity.
  - reflexivity.
Defined.

Lemma twelvedata_rejected_is_returned :
  forall ta cfg fetch symbols symbol outs,
  twelvedata_loop ta cfg fetch symbols [] = Ok outs ->
  In symbol symbols -> accepted (fetch symbol) = false ->
  In (fetch symbol) outs.
Proof.
  intros ta cfg fetch symbols symbol outs H Hin Ha.
  rewrite twelvedata_loop_mapM in H. step_bind H os Eos.
  assert (os = outs) by (simpl in H; congruence). subst os.
  apply mapM_Forall2 in Eos. clear H.
  induction Eos as [| s out ss os Hb _ IH]; [contradiction |].
  destruct Hin as [-> | Hin]; [| right; auto].
  left. apply twelvedata_body_answers in Hb.
  destruct Hb as (_ & _ & _ & Hb). rewrite Ha in Hb. assumption.
Qed.

(** X27.  A response that twelvedata did not accept is passed on by the
    fetch, and then stops [run]: it has no ['meta'], the prompt asks for
    it, and the [KeyError] ends the loop, for forex and for crypto on an
    exchange other than ["bybit"]. *)
Theorem failed_response_stops_the_run :
  forall ta cfg wl w exchange symbol,
  exchange <> "bybit" ->
  (In symbol (SYMBOLS wl) ->
   accepted (forex_response w symbol) = false ->
   meta_symbol (forex_response w symbol) = None ->
   exists e, snd (run ta cfg wl w "forex" exchange) = Raise e)
  /\ (In symbol (COINS wl) ->
      accepted (coin_response w symbol) = false ->
      meta_symbol (coin_response w symbol) = None ->
      exists e, snd (run ta cfg wl w "crypto" exchange) = Raise e).
Proof.
  intros ta cfg wl w exchange symbol Hx.
  assert (Hgen : forall contxt fetch symbols,
            In symbol symbols -> accepted (fetch symbol) = false ->
            meta_symbol (fetch symbol) = None ->
            exists e,
              snd (match twelvedata_loop ta cfg fetch symbols [] with
                   | Ok data =>
                       run_loop (symbol_report cfg w contxt exchange) data []
                   | Raise e => ([], Raise e)
                   end) = Raise e).
  { intros contxt fetch symbols Hin Ha Hm.
    destruct (twelvedata_loop ta cfg fetch symbols []) as [outs | e] eqn:E;
      [| simpl; eauto].
    eapply run_loop_raises.
    - eapply twelvedata_rejected_is_returned; eauto.
    - apply symbol_report_needs_meta; assumption. }
  unfold run. destruct (String.eqb_spec exchange "bybit"); [contradiction |].
  cbn [String.eqb Ascii.eqb Bool.eqb]. split; intros Hin Ha Hm.
  - apply (Hgen "forex" (forex_response w) (SYMBOLS wl)); assumption.
  - apply (Hgen "crypto" (coin_response w) (COINS wl)); assumption.
Qed.

Lemma failed_response_stops_the_run_witness :
  exists e,
    snd (run ta_declines config_py watchlist_py twelvedata_down "forex"
           "Binance") = Raise e.
Proof.
  apply (proj1 (failed_response_stops_the_run ta_declines config_py
                  watchlist_py twelvedata_down "Binance" "XAU/USD"
                  ltac:(discriminate))).
  - right. left. reflexivity.
  - reflexivity.
  - reflexivity.
Defined.



(* ================================================================= *)
(** * When the normalizers return *)














